(** * kaggle-regression-lab: data preparation and evaluation, verified

    A shallow embedding of the Python sources

    - [src/utils/data_processing.py]  (module [DataProcessing])
    - [src/utils/evaluation.py]       (modules [Evaluation], [Reports])
    - [src/utils/eda.py]              (module [Eda])
    - [uteis/preprocessing.py]        (module [Uteis])

    together with the library code these functions call and on which
    their behaviour rests:

    - [Pandas]: frames, column statistics, [get_dummies];
    - [Store]: frames as mutable objects, for the functions that copy
      and then write;
    - [Sklearn]: [SimpleImputer], [OneHotEncoder], [LabelEncoder] and the
      categorical pipeline of the column transformer;
    - [Random], [ModelSelection]: numpy's generators and
      [train_test_split];
    - [Csv]: [to_csv], the tokenizer and the type inference of
      [read_csv], and files;
    - [Numpy], [Metrics]: arrays and the regression metrics.

    Numbers are exact rationals: a float64 is read as the rational it
    denotes, so rounding and overflow are outside the model, and NaN is a
    value of its own wherever the code can produce it.  What the
    functions print is left out. *)

From Stdlib Require Import List String Ascii Bool Arith ZArith QArith Qabs Qround Lia Lqa.
From Stdlib Require Import DecimalString.
From Stdlib Require DecimalZ DecimalPos.
From Stdlib Require Reals Qreals Lra.
From Stdlib Require Import Permutation Sorted.
From Stdlib Require OrderedTypeEx.
Import ListNotations.

Local Open Scope string_scope.
Local Open Scope list_scope.

(** ** Exceptions and results *)

(** The Python exceptions the modelled code raises, with the message of
    the [raise] statement where the source spells one. *)
Inductive exn : Type :=
| ValueError (msg : string)
| KeyError (key : string)
| TypeError (msg : string)
| IndexError (msg : string)
| ParserError (msg : string)
| EmptyDataError (msg : string)
| FileNotFoundError (path : string).

Inductive result (A : Type) : Type :=
| Ok (a : A)
| Raise (e : exn).
Arguments Ok {A} a.
Arguments Raise {A} e.

Definition bind {A B : Type} (r : result A) (k : A -> result B) : result B :=
  match r with
  | Ok a => k a
  | Raise e => Raise e
  end.

Notation "x <- r ;; k" := (bind r (fun x => k))
  (at level 61, r at next level, right associativity).

(** [mapM f l]: run [f] over [l] left to right, stopping at the first
    exception, like a Python [for] loop that builds a list. *)
Fixpoint mapM {A B : Type} (f : A -> result B) (l : list A) : result (list B) :=
  match l with
  | [] => Ok []
  | a :: l' => b <- f a ;; bs <- mapM f l' ;; Ok (b :: bs)
  end.

(** ** Tables *)

Module Pandas.

(** The column types the code distinguishes by name.  [other] stands for
    every dtype that none of the [select_dtypes] calls names
    (datetime64, timedelta, ...). *)
Inductive dtype : Type := int64 | float64 | object | category | bool_ | other.

Definition dtype_eqb (a b : dtype) : bool :=
  match a, b with
  | int64, int64 | float64, float64 | object, object
  | category, category | bool_, bool_ | other, other => true
  | _, _ => false
  end.

(** A cell: missing ([NaN]/[None]), a number, or text.  A [bool_] column
    holds [Num 0] and [Num 1], as numpy does. *)
Inductive cell : Type :=
| NA
| Num (q : Q)
| Str (s : string).

Record Series : Type := mkSeries { dtype_of : dtype; values : list cell }.

(** A DataFrame: the length of its index and its columns in order, each
    under its label. *)
Record DataFrame : Type := mkFrame {
  nrows : nat;
  columns : list (string * Series)
}.

Definition column_names (df : DataFrame) : list string := map fst (columns df).

(** The Table invariant of the data model: labels are unique and every
    column has one cell per row of the index. *)
Definition wf_frame (df : DataFrame) : Prop :=
  NoDup (column_names df) /\
  Forall (fun c => List.length (values (snd c)) = nrows df) (columns df).

Definition isnull (c : cell) : bool :=
  match c with NA => true | _ => false end.

(** [s.isnull().sum()] *)
Definition null_count (s : Series) : nat := List.length (filter isnull (values s)).

(** [s.isnull().any()] *)
Definition has_null (s : Series) : bool := existsb isnull (values s).

(** Python [x in l] on a list of labels. *)
Definition mem (x : string) (l : list string) : bool :=
  existsb (String.eqb x) l.

(** [df[col]]: the column under a label, [KeyError] when there is none. *)
Fixpoint lookup_col (col : string) (cs : list (string * Series)) : option Series :=
  match cs with
  | [] => None
  | (n, s) :: cs' => if String.eqb col n then Some s else lookup_col col cs'
  end.

Definition getitem (df : DataFrame) (col : string) : result Series :=
  match lookup_col col (columns df) with
  | Some s => Ok s
  | None => Raise (KeyError col)
  end.

(** [df.select_dtypes(include=...).columns.tolist()] *)
Definition select_dtypes (include : list dtype) (df : DataFrame) : list string :=
  map fst (filter (fun c => existsb (dtype_eqb (dtype_of (snd c))) include) (columns df)).

(** [np.number] covers the integer and floating dtypes, not [bool_]. *)
Definition np_number : list dtype := [int64; float64].

(** [df.drop(columns=labels)] for labels that are all present: every
    column under one of the labels goes. *)
Definition drop (labels : list string) (df : DataFrame) : DataFrame :=
  mkFrame (nrows df) (filter (fun c => negb (mem (fst c) labels)) (columns df)).

(** A float that may be NaN, for quotients such as [0 / 0]. *)
Definition float := option Q.

(** [count / len(df)] on floats: [0 / 0] is NaN. *)
Definition ratio (count n : nat) : float :=
  match n with
  | O => None
  | S _ => Some (Z.of_nat count # Pos.of_nat n)
  end.

(** [x > t] on floats: false when [x] is NaN. *)
Definition float_gt (x : float) (t : Q) : bool :=
  match x with
  | Some q => negb (Qle_bool q t)
  | None => false
  end.

(** *** Order and equality of cells *)

(** Python [==] on cells; a missing cell equals nothing in the data but
    is grouped with the other missing cells. *)
Definition cell_eqb (a b : cell) : bool :=
  match a, b with
  | NA, NA => true
  | Num x, Num y => Qeq_bool x y
  | Str s, Str t => String.eqb s t
  | _, _ => false
  end.

(** The order pandas sorts values in: numbers by value, text by code
    point, numbers before text, missing last. *)
Definition cell_ltb (a b : cell) : bool :=
  match a, b with
  | Num x, Num y => negb (Qle_bool y x)
  | Str s, Str t => String.ltb s t
  | Num _, Str _ => true
  | NA, _ => false
  | _, NA => true
  | _, _ => false
  end.

(** Insert a value into a sorted list without repetitions. *)
Fixpoint insert_level (x : cell) (l : list cell) : list cell :=
  match l with
  | [] => [x]
  | y :: l' =>
      if cell_eqb x y then l
      else if cell_ltb x y then x :: l
      else y :: insert_level x l'
  end.

(** The distinct values of a list in ascending order. *)
Definition sort_unique (l : list cell) : list cell :=
  fold_right insert_level [] l.

Definition notnull (c : cell) : bool := negb (isnull c).

Definition count_cell (x : cell) (l : list cell) : nat :=
  List.length (filter (cell_eqb x) l).

(** *** Column statistics *)

(** The numbers of a column, missing cells skipped ([skipna=True]);
    arithmetic on text raises. *)
Fixpoint numbers (l : list cell) : result (list Q) :=
  match l with
  | [] => Ok []
  | NA :: l' => numbers l'
  | Num q :: l' => qs <- numbers l' ;; Ok (q :: qs)
  | Str _ :: l' => Raise (TypeError "could not convert string to numeric")
  end.

Definition Qsum (l : list Q) : Q := fold_left Qplus l 0.

(** [s.mean()]: NaN when no value is present. *)
Definition mean (s : Series) : result cell :=
  qs <- numbers (values s) ;;
  match qs with
  | [] => Ok NA
  | _ => Ok (Num (Qsum qs / inject_Z (Z.of_nat (List.length qs))))
  end.

Fixpoint insert_Q (x : Q) (l : list Q) : list Q :=
  match l with
  | [] => [x]
  | y :: l' => if Qle_bool x y then x :: l else y :: insert_Q x l'
  end.

Definition sort_Q (l : list Q) : list Q := fold_right insert_Q [] l.

(** [s.median()]: the middle value of the sorted numbers, or the mean of
    the two middle ones. *)
Definition median (s : Series) : result cell :=
  qs <- numbers (values s) ;;
  let sorted := sort_Q qs in
  let n := List.length sorted in
  match n with
  | O => Ok NA
  | _ =>
      if Nat.odd n then Ok (Num (nth (n / 2) sorted 0))
      else Ok (Num ((nth (n / 2 - 1) sorted 0 + nth (n / 2) sorted 0) / 2))
  end.

(** [s.mode()]: the most frequent values present, in ascending order. *)
Definition mode (s : Series) : list cell :=
  let present := filter notnull (values s) in
  let levels := sort_unique present in
  let best := fold_right Nat.max O (map (fun v => count_cell v present) levels) in
  filter (fun v => (count_cell v present =? best)%nat) levels.

(** [s.mode()[0]]: a column without any value has no mode to index. *)
Definition mode0 (s : Series) : result cell :=
  match mode s with
  | v :: _ => Ok v
  | [] => Raise (KeyError "0")
  end.

(** [s.fillna(value)]; filling with NaN leaves the gaps. *)
Definition fillna (value : cell) (s : Series) : Series :=
  mkSeries (dtype_of s) (map (fun c => if isnull c then value else c) (values s)).

(** [df[col] = s] on a frame value: the column is replaced in place, or
    appended when the label is new. *)
Fixpoint set_col (col : string) (s : Series) (cs : list (string * Series))
    : list (string * Series) :=
  match cs with
  | [] => [(col, s)]
  | (n, x) :: cs' =>
      if String.eqb col n then (n, s) :: cs' else (n, x) :: set_col col s cs'
  end.

(** *** Text of a value *)

(** [str(n)] for an integer. *)
Definition str_int (z : Z) : string := NilZero.string_of_int (Z.to_int z).

Definition digit_char (d : Z) : ascii :=
  ascii_of_nat (48 + Z.to_nat d).

(** The decimals of [num / den] for [0 <= num < den], at most [fuel] of
    them. *)
Fixpoint fraction_digits (fuel : nat) (num den : Z) : string :=
  match fuel with
  | O => EmptyString
  | S fuel' =>
      if (num =? 0)%Z then EmptyString
      else String (digit_char (num * 10 / den))
                  (fraction_digits fuel' ((num * 10) mod den) den)
  end.

(** [repr(x)] for a float in positional notation: sign, integer part,
    point, decimals (["0"] when there are none).  It is Python's text for
    the floats whose shortest decimal form is positional and ends within
    17 decimals; for the others it is cut there. *)
Definition repr_float (q : Q) : string :=
  let n := Qnum q in
  let d := Zpos (Qden q) in
  let a := Z.abs n in
  ((if (n <? 0)%Z then "-" else "") ++
   str_int (a / d) ++ "." ++
   (if (a mod d =? 0)%Z then "0" else fraction_digits 17 (a mod d) d))%string.

(** [str(value)] for a cell of a column of the given type: integers
    without a point, booleans by name, NaN as ["nan"]. *)
Definition str_cell (d : dtype) (c : cell) : string :=
  match c with
  | NA => "nan"
  | Str s => s
  | Num q =>
      match d with
      | int64 => str_int (Qfloor q)
      | bool_ => if Qeq_bool q 0 then "False" else "True"
      | _ => repr_float q
      end
  end.

(** *** One-hot encoding with [get_dummies] *)

(** [_get_dummies_1d]: one boolean column per level of the column, in
    ascending order of the levels, named [<column>_<level>]; missing
    cells belong to no level; with [drop_first] the first level has no
    column.  (The levels of a [category] column are taken to be the
    values present.) *)
Definition get_dummies_1d (col : string) (s : Series) (drop_first : bool)
    : list (string * Series) :=
  let levels := sort_unique (filter notnull (values s)) in
  let levels := if drop_first then tl levels else levels in
  map (fun level =>
         ((col ++ "_" ++ str_cell (dtype_of s) level)%string,
          mkSeries bool_ (map (fun c => if cell_eqb c level then Num 1 else Num 0)
                              (values s))))
      levels.

(** [pd.get_dummies(df, columns=..., drop_first=...)]: the columns that
    are not encoded keep their place at the front; the dummy columns of
    each encoded column follow, in the order of [columns]. *)
Definition get_dummies (df : DataFrame) (cols : list string) (drop_first : bool)
    : result DataFrame :=
  to_encode <- mapM (fun col => s <- getitem df col ;; Ok (col, s)) cols ;;
  Ok (mkFrame (nrows df)
        (columns (drop cols df) ++
         flat_map (fun cs => get_dummies_1d (fst cs) (snd cs) drop_first) to_encode)).

End Pandas.

(** ** The object store *)

(** DataFrames are mutable objects that names refer to.  The store keeps
    every frame allocated so far; a reference is its position. *)
Module Store.
Import Pandas.

Definition ref := nat.
Definition heap := list DataFrame.

Definition empty_frame : DataFrame := mkFrame 0 [].

Definition deref (h : heap) (r : ref) : DataFrame := nth r h empty_frame.

Fixpoint update (r : ref) (df : DataFrame) (h : heap) : heap :=
  match h, r with
  | [], _ => []
  | _ :: h', O => df :: h'
  | x :: h', S r' => x :: update r' df h'
  end.

(** Computations that read and write the store and may raise. *)
Definition M (A : Type) : Type := heap -> result A * heap.

Definition ret {A : Type} (a : A) : M A := fun h => (Ok a, h).

Definition raise {A : Type} (e : exn) : M A := fun h => (Raise e, h).

Definition bindM {A B : Type} (m : M A) (k : A -> M B) : M B :=
  fun h =>
    match m h with
    | (Ok a, h') => k a h'
    | (Raise e, h') => (Raise e, h')
    end.

(** A pure step that may raise. *)
Definition lift {A : Type} (r : result A) : M A := fun h => (r, h).

(** [df.copy()]: a new object with the same contents. *)
Definition copy (r : ref) : M ref :=
  fun h => (Ok (List.length h), h ++ [deref h r]).

(** [df[col]] *)
Definition load_col (r : ref) (col : string) : M Series :=
  fun h => (getitem (deref h r) col, h).

(** [df[col] = s]: writes to the object [r] refers to. *)
Definition store_col (r : ref) (col : string) (s : Series) : M unit :=
  fun h =>
    let df := deref h r in
    (Ok tt, update r (mkFrame (nrows df) (set_col col s (columns df))) h).

(** A [for] loop over a list. *)
Fixpoint for_each {A : Type} (l : list A) (body : A -> M unit) : M unit :=
  match l with
  | [] => ret tt
  | a :: l' => bindM (body a) (fun _ => for_each l' body)
  end.

End Store.

Notation "x <~ m ;; k" := (Store.bindM m (fun x => k))
  (at level 61, m at next level, right associativity).

(** ** sklearn: imputation, one-hot encoding, pipelines *)

Module Sklearn.
Import Pandas.




(** [SimpleImputer(strategy=..., fill_value=...)] *)
Record SimpleImputer : Type := mkImputer {
  strategy : string;
  fill_value : option cell
}.

(** [OneHotEncoder(handle_unknown=..., sparse_output=...)] *)
Record OneHotEncoder : Type := mkOneHot {
  handle_unknown : string;
  sparse_output : bool
}.

Definition is_num (c : cell) : bool := match c with Num _ => true | _ => false end.
Definition is_str (c : cell) : bool := match c with Str _ => true | _ => false end.






(** [SimpleImputer.transform]: gaps take the column's statistic; with
    [keep_empty_features=False] a column whose statistic is NaN is left
    out, except under the constant strategy. *)
Fixpoint imputer_apply (keep_all : bool) (statistics : list cell) (X : list (list cell))
    : list (list cell) :=
  match statistics, X with
  | st :: sts, column :: X' =>
      if keep_all || notnull st
      then map (fun c => if isnull c then st else c) column :: imputer_apply keep_all sts X'
      else imputer_apply keep_all sts X'
  | _, _ => []
  end.

Definition imputer_transform (imp : SimpleImputer) (statistics : list cell)
    (X : list (list cell)) : result (list (list cell)) :=
  if negb (List.length X =? List.length statistics)%nat
  then Raise (ValueError "X has a different number of features than the imputer was fitted with")
  else Ok (imputer_apply (String.eqb (strategy imp) "constant") statistics X).


(** The one-hot block of one cell: a 1 in the position of its category;
    a value outside the categories raises under ["error"] and is encoded
    as all zeros otherwise. *)
Definition encode_cell (enc : OneHotEncoder) (categories : list cell) (v : cell)
    : result (list Q) :=
  if existsb (cell_eqb v) categories
  then Ok (map (fun c => if cell_eqb v c then 1 else 0) categories)
  else if String.eqb (handle_unknown enc) "error"
  then Raise (ValueError "Found unknown categories during transform")
  else Ok (map (fun _ => 0) categories).

(** The blocks of a column, one per row. *)
Definition encode_column (enc : OneHotEncoder) (categories : list cell)
    (column : list cell) : result (list (list Q)) :=
  mapM (encode_cell enc categories) column.

Fixpoint encode_columns (enc : OneHotEncoder) (categories : list (list cell))
    (X : list (list cell)) : result (list (list (list Q))) :=
  match categories, X with
  | cats :: categories', column :: X' =>
      b <- encode_column enc cats column ;;
      bs <- encode_columns enc categories' X' ;;
      Ok (b :: bs)
  | _, _ => Ok []
  end.

(** Blocks side by side: row [i] of the result is the concatenation of
    the rows [i] of the blocks. *)
Fixpoint append_rows (a b : list (list Q)) : list (list Q) :=
  match a, b with
  | r :: a', s :: b' => (r ++ s) :: append_rows a' b'
  | _, _ => []
  end.

Definition hstack (n : nat) (blocks : list (list (list Q))) : list (list Q) :=
  fold_left append_rows blocks (repeat [] n).

Definition onehot_transform (enc : OneHotEncoder) (categories : list (list cell))
    (n : nat) (X : list (list cell)) : result (list (list Q)) :=
  if negb (List.length X =? List.length categories)%nat
  then Raise (ValueError "X has a different number of features than the encoder was fitted with")
  else blocks <- encode_columns enc categories X ;; Ok (hstack n blocks).

(** Position of a value in a list of classes. *)
Fixpoint index_of (x : cell) (classes : list cell) : option nat :=
  match classes with
  | [] => None
  | c :: classes' =>
      if cell_eqb x c then Some O else option_map S (index_of x classes')
  end.

(** [LabelEncoder().fit_transform(y)]: the classes are the distinct
    values in ascending order and each value becomes the position of its
    class. *)
Definition label_fit_transform (y : list cell) : list cell :=
  let classes := sort_unique y in
  map (fun v => match index_of v classes with
                | Some i => Num (inject_Z (Z.of_nat i))
                | None => NA
                end) y.

(** The categorical [Pipeline]: imputer, then encoder. *)
Record CategoricalPipeline : Type := mkCatPipeline {
  imputer : SimpleImputer;
  onehot : OneHotEncoder
}.

(** What fitting the categorical pipeline learns. *)
Record FittedCategorical : Type := mkFittedCat {
  fitted_pipeline : CategoricalPipeline;
  fitted_columns : list string;
  statistics_ : list cell;
  categories_ : list (list cell)
}.



(** Selecting columns of a frame by label. *)
Definition select_columns (df : DataFrame) (labels : list string)
    : result (list Series) :=
  mapM (fun l => match lookup_col l (columns df) with
                 | Some s => Ok s
                 | None => Raise (ValueError "A given column is not a column of the dataframe")
                 end) labels.


(** Transforming a frame with the fitted ['cat'] transformer: the
    fitted columns are taken by label, whatever else the frame has. *)
Definition transform_cat (f : FittedCategorical) (df : DataFrame)
    : result (list (list Q)) :=
  selected <- match select_columns df (fitted_columns f) with
              | Ok s => Ok s
              | Raise _ => Raise (ValueError "columns are missing")
              end ;;
  let X := map values selected in
  imputed <- imputer_transform (imputer (fitted_pipeline f)) (statistics_ f) X ;;
  onehot_transform (onehot (fitted_pipeline f)) (categories_ f) (nrows df) imputed.

End Sklearn.

(** ** numpy.random and sklearn.model_selection *)

Module Random.
Import Pandas.

(** numpy's pseudo-random generators as the splitter uses them.  The
    Mersenne Twister and the stratified index draw of
    [StratifiedShuffleSplit] are library code and stay abstract: a
    generator state, the state a seed starts from, and the draws, each
    of which returns the advanced state. *)
Class Generator : Type := {
  RandomState : Type;
  (** [np.random.RandomState(seed)] *)
  seeded : Z -> RandomState;
  (** [rng.permutation(n)] *)
  permutation : nat -> RandomState -> list nat * RandomState;
  (** [StratifiedShuffleSplit]'s train and test indices for the class
      labels, [n_train] and [n_test]; it raises on classes too small to
      split. *)
  stratified_indices :
    list cell -> nat -> nat -> RandomState -> result (list nat * list nat) * RandomState
}.

End Random.

Module ModelSelection.
Import Pandas Random.

Section TrainTestSplit.
Context {G : Generator}.

(** [check_random_state(seed)] in a process whose global generator is in
    state [global]: [None] is that generator, an integer a new generator
    of its own. *)
Definition check_random_state (random_state : option Z) (global : RandomState)
    : RandomState :=
  match random_state with
  | None => global
  | Some s => seeded s
  end.

(** A draw with the generator [check_random_state] returned: only a draw
    from the global generator moves the global state. *)
Definition with_generator {A : Type} (random_state : option Z)
    (draw : RandomState -> A * RandomState) (global : RandomState)
    : A * RandomState :=
  let '(a, rng') := draw (check_random_state random_state global) in
  match random_state with
  | None => (a, rng')
  | Some _ => (a, global)
  end.

(** [_validate_shuffle_split] for a float [test_size] and no
    [train_size]. *)
Definition validate_shuffle_split (n_samples : nat) (test_size : Q)
    : result (nat * nat) :=
  if Qle_bool test_size 0 || Qle_bool 1 test_size
  then Raise (ValueError "test_size should be a float in the (0, 1) range")
  else
    let n_test := Z.to_nat (Qceiling (test_size * inject_Z (Z.of_nat n_samples))) in
    let n_train := (n_samples - n_test)%nat in
    if (n_train =? 0)%nat
    then Raise (ValueError "the resulting train set will be empty")
    else Ok (n_train, n_test).

(** [_safe_indexing]: the rows at the given positions, in that order. *)
Definition take (l : list cell) (indices : list nat) : result (list cell) :=
  mapM (fun i => match nth_error l i with
                 | Some c => Ok c
                 | None => Raise (IndexError "positional indexers are out-of-bounds")
                 end) indices.

Definition take_series (s : Series) (indices : list nat) : result Series :=
  v <- take (values s) indices ;; Ok (mkSeries (dtype_of s) v).

Definition take_rows (df : DataFrame) (indices : list nat) : result DataFrame :=
  cols <- mapM (fun c => s <- take_series (snd c) indices ;; Ok (fst c, s)) (columns df) ;;
  Ok (mkFrame (List.length indices) cols).

(** [ShuffleSplit]: the first [n_test] positions of a permutation are
    the test rows, the next [n_train] the training rows. *)
Definition shuffle_split (n_samples n_train n_test : nat) (rng : RandomState)
    : result (list nat * list nat) * RandomState :=
  let '(p, rng') := permutation n_samples rng in
  (Ok (firstn n_train (skipn n_test p), firstn n_test p), rng').

(** [train_test_split(X, y, test_size=..., random_state=...,
    stratify=...)] *)
Definition train_test_split (X : DataFrame) (y : Series) (test_size : Q)
    (random_state : option Z) (stratify : option (list cell)) (global : RandomState)
    : result (DataFrame * DataFrame * Series * Series) * RandomState :=
  if negb (nrows X =? List.length (values y))%nat
  then (Raise (ValueError "Found input variables with inconsistent numbers of samples"), global)
  else
    match validate_shuffle_split (nrows X) test_size with
    | Raise e => (Raise e, global)
    | Ok (n_train, n_test) =>
        let '(indices, global') :=
          with_generator random_state
            (match stratify with
             | None => shuffle_split (nrows X) n_train n_test
             | Some labels => stratified_indices labels n_train n_test
             end) global in
        (idx <- indices ;;
         X_train <- take_rows X (fst idx) ;;
         X_test <- take_rows X (snd idx) ;;
         y_train <- take_series y (fst idx) ;;
         y_test <- take_series y (snd idx) ;;
         Ok (X_train, X_test, y_train, y_test),
         global')
    end.

End TrainTestSplit.
End ModelSelection.

(** ** CSV files: [DataFrame.to_csv] and [pd.read_csv] *)

Module Csv.
Import Pandas.

Definition comma : ascii := ascii_of_nat 44.
Definition dquote : ascii := ascii_of_nat 34.
Definition LF : ascii := ascii_of_nat 10.
Definition CR : ascii := ascii_of_nat 13.

Fixpoint any_char (p : ascii -> bool) (s : string) : bool :=
  match s with
  | EmptyString => false
  | String c s' => p c || any_char p s'
  end.

Fixpoint all_chars (p : ascii -> bool) (s : string) : bool :=
  match s with
  | EmptyString => true
  | String c s' => p c && all_chars p s'
  end.

(** *** Writing *)

(** Characters that make the [csv] writer quote a field
    ([QUOTE_MINIMAL]). *)
Definition special (c : ascii) : bool :=
  Ascii.eqb c comma || Ascii.eqb c dquote || Ascii.eqb c LF || Ascii.eqb c CR.

(** Inside quotes a quote character is written twice. *)
Fixpoint escape (s : string) : string :=
  match s with
  | EmptyString => EmptyString
  | String c s' =>
      if Ascii.eqb c dquote then String dquote (String dquote (escape s'))
      else String c (escape s')
  end.

Definition quote_field (f : string) : string :=
  if any_char special f
  then String dquote (escape f ++ String dquote EmptyString)
  else f.

Fixpoint join_fields (fields : list string) : string :=
  match fields with
  | [] => EmptyString
  | [f] => quote_field f
  | f :: fields' => quote_field f ++ String comma (join_fields fields')
  end.

(** One record and its line terminator.  A record that is a single empty
    field is written as a pair of quotes, so that the line is not
    empty. *)
Definition write_row (fields : list string) : string :=
  match fields with
  | [EmptyString] => String dquote (String dquote (String LF EmptyString))
  | _ => join_fields fields ++ String LF EmptyString
  end.

Fixpoint write_rows (rows : list (list string)) : string :=
  match rows with
  | [] => EmptyString
  | r :: rows' => write_row r ++ write_rows rows'
  end.

(** The text of a cell in the file: nothing for a missing value
    ([na_rep='']), [str] of the value otherwise. *)
Definition csv_cell (d : dtype) (c : cell) : string :=
  match c with
  | NA => EmptyString
  | _ => str_cell d c
  end.

(** The records of the data rows of a frame. *)
Definition data_rows (df : DataFrame) : list (list string) :=
  map (fun i => map (fun c => csv_cell (dtype_of (snd c)) (nth i (values (snd c)) NA))
                    (columns df))
      (seq 0 (nrows df)).

(** [df.to_csv(index=False)]: the header record, then the rows. *)
Definition to_csv (df : DataFrame) : string :=
  write_rows (column_names df :: data_rows df).

(** *** Tokenizing *)

Inductive tstate : Type :=
| StartRecord
| WhitespaceLine
| StartField
| InField
| InQuoted
| QuoteInQuoted.

(** The tokenizer: its state, the field and the record being read, and
    the records read so far (the last two newest first). *)
Record tokenizer : Type := mkTok {
  state : tstate;
  field : string;
  record : list string;
  records : list (list string)
}.

Definition snoc (s : string) (c : ascii) : string := s ++ String c EmptyString.

Definition is_eol (c : ascii) : bool := Ascii.eqb c LF || Ascii.eqb c CR.

Definition is_blank (c : ascii) : bool :=
  Ascii.eqb c (ascii_of_nat 32) || Ascii.eqb c (ascii_of_nat 9).

Definition end_field (t : tokenizer) : tokenizer :=
  mkTok StartField EmptyString (field t :: record t) (records t).

Definition end_line (t : tokenizer) : tokenizer :=
  mkTok StartRecord EmptyString [] (rev (field t :: record t) :: records t).

Definition push (t : tokenizer) (st : tstate) (c : ascii) : tokenizer :=
  mkTok st (snoc (field t) c) (record t) (records t).

Definition in_state (t : tokenizer) (st : tstate) : tokenizer :=
  mkTok st (field t) (record t) (records t).

Definition start_field (t : tokenizer) (c : ascii) : tokenizer :=
  if Ascii.eqb c dquote then in_state t InQuoted
  else if Ascii.eqb c comma then end_field t
  else if is_eol c then end_line t
  else push t InField c.

Definition in_field (t : tokenizer) (c : ascii) : tokenizer :=
  if Ascii.eqb c comma then end_field t
  else if is_eol c then end_line t
  else push t InField c.

(** One character.  Empty lines and lines of blanks are skipped
    ([skip_blank_lines=True]); a carriage return ends a record like a
    line feed, and the line feed after it is then an empty line. *)
Definition step (t : tokenizer) (c : ascii) : tokenizer :=
  match state t with
  | StartRecord =>
      if is_eol c then t
      else if is_blank c then push t WhitespaceLine c
      else start_field t c
  | WhitespaceLine =>
      if is_eol c then mkTok StartRecord EmptyString [] (records t)
      else if is_blank c then push t WhitespaceLine c
      else in_field t c
  | StartField => start_field t c
  | InField => in_field t c
  | InQuoted =>
      if Ascii.eqb c dquote then in_state t QuoteInQuoted
      else push t InQuoted c
  | QuoteInQuoted =>
      if Ascii.eqb c dquote then push t InQuoted c
      else in_field t c
  end.

Fixpoint run (t : tokenizer) (s : string) : tokenizer :=
  match s with
  | EmptyString => t
  | String c s' => run (step t c) s'
  end.

(** End of input: a record in progress is closed; an open quote is an
    error. *)
Definition finish (t : tokenizer) : result (list (list string)) :=
  match state t with
  | StartRecord | WhitespaceLine => Ok (rev (records t))
  | InQuoted => Raise (ParserError "EOF inside string")
  | StartField | InField | QuoteInQuoted => Ok (rev (records (end_line t)))
  end.

Definition tokenize (s : string) : result (list (list string)) :=
  finish (run (mkTok StartRecord EmptyString [] []) s).

(** *** Values *)

(** The strings read as a missing value (the default [na_values]). *)
Definition na_values : list string :=
  [ ""; "#N/A"; "#N/A N/A"; "#NA"; "-1.#IND"; "-1.#QNAN"; "-NaN"; "-nan";
    "1.#IND"; "1.#QNAN"; "<NA>"; "N/A"; "NA"; "NULL"; "NaN"; "None";
    "n/a"; "nan"; "null" ].

Definition true_values : list string := ["True"; "TRUE"; "true"].
Definition false_values : list string := ["False"; "FALSE"; "false"].

Definition is_na (tok : string) : bool := mem tok na_values.

Definition is_space (c : ascii) : bool :=
  let n := nat_of_ascii c in
  (n =? 32)%nat || ((9 <=? n)%nat && (n <=? 13)%nat).

Fixpoint lstrip (s : string) : string :=
  match s with
  | EmptyString => EmptyString
  | String c s' => if is_space c then lstrip s' else s
  end.

Fixpoint rstrip (s : string) : string :=
  match s with
  | EmptyString => EmptyString
  | String c s' =>
      match rstrip s' with
      | EmptyString => if is_space c then EmptyString else String c EmptyString
      | r => String c r
      end
  end.

Definition strip (s : string) : string := rstrip (lstrip s).

Definition is_digit (c : ascii) : bool :=
  let n := nat_of_ascii c in (48 <=? n)%nat && (n <=? 57)%nat.

Definition is_sign (c : ascii) : bool :=
  Ascii.eqb c (ascii_of_nat 43) || Ascii.eqb c (ascii_of_nat 45).

(** The characters a decimal number is written with. *)
Definition numeric_char (c : ascii) : bool :=
  is_digit c || is_sign c || Ascii.eqb c (ascii_of_nat 46)
  || Ascii.eqb c (ascii_of_nat 101) || Ascii.eqb c (ascii_of_nat 69).

(** A signed run of digits. *)
Definition signed_digits (s : string) : option Z :=
  match NilZero.int_of_string s with
  | Some d => Some (Z.of_int d)
  | None =>
      match s with
      | String c s' =>
          if Ascii.eqb c (ascii_of_nat 43)
          then option_map Z.of_uint (NilZero.uint_of_string s')
          else None
      | EmptyString => None
      end
  end.

(** An integer token: blanks around a signed run of digits. *)
Definition parse_int (tok : string) : option Z :=
  let s := strip tok in
  if all_chars (fun c => is_digit c || is_sign c) s then signed_digits s else None.

(** The longest run of digits at the front, and what follows. *)
Fixpoint take_digits (s : string) : string * string :=
  match s with
  | EmptyString => (EmptyString, EmptyString)
  | String c s' =>
      if is_digit c
      then let '(d, r) := take_digits s' in (String c d, r)
      else (EmptyString, s)
  end.

Definition digits_value (d : string) : Z :=
  match NilEmpty.uint_of_string d with
  | Some u => Z.of_uint u
  | None => 0
  end.

Definition pow10 (e : Z) : Q :=
  if (0 <=? e)%Z then inject_Z (10 ^ e) else 1 / inject_Z (10 ^ (- e)).

(** A decimal float token: sign, digits with an optional point, and an
    optional exponent.  The spellings of infinity, which pandas reads as
    floats, have no value in this model and are read as text. *)
Definition parse_float (tok : string) : option Q :=
  let s := strip tok in
  if negb (all_chars numeric_char s) then None
  else
    let '(negative, s) :=
      match s with
      | String c s' => if is_sign c then (Ascii.eqb c (ascii_of_nat 45), s') else (false, s)
      | EmptyString => (false, s)
      end in
    let '(ip, r1) := take_digits s in
    let '(fp, r2) :=
      match r1 with
      | String c r => if Ascii.eqb c (ascii_of_nat 46) then take_digits r
                      else (EmptyString, r1)
      | EmptyString => (EmptyString, r1)
      end in
    if String.eqb (ip ++ fp) EmptyString then None
    else
      let exponent :=
        match r2 with
        | EmptyString => Some 0%Z
        | String c r =>
            if Ascii.eqb c (ascii_of_nat 101) || Ascii.eqb c (ascii_of_nat 69)
            then signed_digits r else None
        end in
      match exponent with
      | None => None
      | Some e =>
          let m := inject_Z (digits_value (ip ++ fp)) * pow10 (e - Z.of_nat (String.length fp)) in
          Some (Qred (if negative then - m else m))
      end.

(** *** Columns *)

Definition is_some {A : Type} (o : option A) : bool :=
  match o with Some _ => true | None => false end.

(** The type and the values pandas gives a column of tokens: integers
    if every token is one; floats if every token that is not a missing
    marker is a number; booleans if every token is one; text otherwise,
    with the missing markers read as NaN.  A column of missing markers
    only is a float column; without rows it is a text column. *)
Definition infer_column (tokens : list string) : Series :=
  let present := filter (fun t => negb (is_na t)) tokens in
  match tokens, present with
  | [], _ => mkSeries object []
  | _, [] => mkSeries float64 (map (fun _ => NA) tokens)
  | _, _ =>
      if forallb (fun t => is_some (parse_int t)) present then
        mkSeries (if (List.length present =? List.length tokens)%nat then int64 else float64)
          (map (fun t => match parse_int t with
                         | Some z => if is_na t then NA else Num (inject_Z z)
                         | None => NA
                         end) tokens)
      else if forallb (fun t => is_some (parse_float t)) present then
        mkSeries float64
          (map (fun t => match parse_float t with
                         | Some q => if is_na t then NA else Num q
                         | None => NA
                         end) tokens)
      else if forallb (fun t => mem t true_values || mem t false_values) tokens then
        mkSeries bool_ (map (fun t => if mem t true_values then Num 1 else Num 0) tokens)
      else
        mkSeries object (map (fun t => if is_na t then NA else Str t) tokens)
  end.

(** Header names: an empty name becomes [Unnamed: i]; a repeated name
    gets the count of its earlier occurrences as a suffix. *)
Fixpoint mangle (seen : list string) (i : nat) (names : list string) : list string :=
  match names with
  | [] => []
  | n :: names' =>
      let n := if String.eqb n EmptyString
               then ("Unnamed: " ++ str_int (Z.of_nat i))%string else n in
      let k := List.length (filter (String.eqb n) seen) in
      (if (k =? 0)%nat then n else (n ++ "." ++ str_int (Z.of_nat k))%string)
        :: mangle (n :: seen) (S i) names'
  end.

(** [pd.read_csv] on the text of a file: the first record is the
    header; a data record shorter than the header is padded with
    missing values. *)
Definition read_csv (text : string) : result DataFrame :=
  rows <- tokenize text ;;
  match rows with
  | [] => Raise (EmptyDataError "No columns to parse from file")
  | header :: data =>
      let width := List.length header in
      if existsb (fun r => (width <? List.length r)%nat) data
      then Raise (ParserError "Error tokenizing data. Expected fewer fields")
      else
        Ok (mkFrame (List.length data)
              (combine (mangle [] 0 header)
                 (map (fun j => infer_column (map (fun r => nth j r EmptyString) data))
                      (seq 0 width))))
  end.

(** *** Files *)

(** The files of the machine: the text stored under each path. *)
Definition filesystem := string -> option string.

Definition write_file (path text : string) (fs : filesystem) : filesystem :=
  fun p => if String.eqb p path then Some text else fs p.

(** [os.path.dirname(path)] is empty exactly when the path has no
    slash. *)
Definition has_dirname (path : string) : bool :=
  any_char (Ascii.eqb (ascii_of_nat 47)) path.

End Csv.

(** ** src/utils/data_processing.py *)

Module DataProcessing.
Import Pandas Store Sklearn Random ModelSelection Csv.

(** Python [l.remove(x)] for an [x] known to be in [l]: the first
    occurrence goes. *)
Fixpoint list_remove (x : string) (l : list string) : list string :=
  match l with
  | [] => []
  | y :: l' => if String.eqb x y then l' else y :: list_remove x l'
  end.

(** Truth value of an [Optional[str]]: [None] and the empty string are
    false. *)
Definition truthy (o : option string) : bool :=
  match o with
  | Some s => negb (String.eqb s "")
  | None => false
  end.

(** [df.isnull().sum() / len(df)], one entry per column. *)
Definition missing_values (df : DataFrame) : list (string * float) :=
  map (fun c => (fst c, ratio (null_count (snd c)) (nrows df))) (columns df).

(** [load_data(data_path, train_file, test_file)]: the two files of the
    directory, read in this order. *)
Definition load_data (data_path train_file test_file : string) (fs : filesystem)
    : result (DataFrame * DataFrame) :=
  let read name :=
    match fs (data_path ++ "/" ++ name)%string with
    | None => Raise (FileNotFoundError (data_path ++ "/" ++ name)%string)
    | Some text => read_csv text
    end in
  train_df <- read train_file ;;
  test_df <- read test_file ;;
  Ok (train_df, test_df).

(** [preprocess_data]: the input frame is copied first and never written
    to, so the model passes it by value. *)
Definition preprocess_data (df : DataFrame) (target_column : option string)
    (drop_high_missing : bool) (missing_threshold : Q)
    : DataFrame * list string * list string :=
  let numeric_features := select_dtypes [int64; float64] df in
  let categorical_features := select_dtypes [object; category] df in
  let '(numeric_features, categorical_features) :=
    match target_column with
    | Some t =>
        if truthy target_column && mem t numeric_features
        then (list_remove t numeric_features, categorical_features)
        else if truthy target_column && mem t categorical_features
        then (numeric_features, list_remove t categorical_features)
        else (numeric_features, categorical_features)
    | None => (numeric_features, categorical_features)
    end in
  if drop_high_missing then
    let columns_to_drop :=
      map fst (filter (fun m => float_gt (snd m) missing_threshold) (missing_values df)) in
    let df' := drop columns_to_drop df in
    (df',
     filter (fun col => mem col (column_names df')) numeric_features,
     filter (fun col => mem col (column_names df')) categorical_features)
  else (df, numeric_features, categorical_features).

(** Default arguments of [preprocess_data]. *)
Definition default_drop_high_missing : bool := true.
Definition default_missing_threshold : Q := 8 # 10.



(** [split_data(X, y, test_size, random_state, stratify)], called in a
    process whose global generator is in state [global]. *)
Definition split_data {G : Generator} (X : DataFrame) (y : Series) (test_size : Q)
    (random_state : Z) (stratify : option (list cell)) (global : RandomState)
    : result (DataFrame * DataFrame * Series * Series) * RandomState :=
  train_test_split X y test_size (Some random_state) stratify global.

(** Default arguments of [split_data]. *)
Definition default_test_size : Q := 0.2.
Definition default_random_state : Z := 42.

(** The error of the last [else] branch of the strategy dispatch. *)
Definition invalid_strategy : exn :=
  ValueError "Estratégia inválida. Use 'media', 'mediana', 'moda' ou 'constante'.".

(** The body of the [for col in colunas] loop of
    [preencher_valores_numericos]: the strategy is looked at only for a
    column that has a gap. *)
Definition fill_column (df : ref) (estrategia : string) (valor_constante : Q)
    (col : string) : M unit :=
  s <~ load_col df col ;;
  if has_null s then
    fill_value <~
      (if String.eqb estrategia "media" then lift (mean s)
       else if String.eqb estrategia "mediana" then lift (median s)
       else if String.eqb estrategia "moda" then lift (mode0 s)
       else if String.eqb estrategia "constante" then ret (Num valor_constante)
       else raise invalid_strategy) ;;
    s' <~ load_col df col ;;
    store_col df col (fillna fill_value s')
  else ret tt.

(** [preencher_valores_numericos(df, colunas, estrategia, valor_constante)].
    The name [df] is rebound to a copy before anything is written. *)
Definition preencher_valores_numericos (df : ref) (colunas : option (list string))
    (estrategia : string) (valor_constante : Q) : M ref :=
  df <~ copy df ;;
  colunas <~ (match colunas with
              | None => fun h => (Ok (select_dtypes np_number (deref h df)), h)
              | Some l => ret l
              end) ;;
  _ <~ for_each colunas (fill_column df estrategia valor_constante) ;;
  ret df.

(** [df[col].astype(str)] *)
Definition astype_str (s : Series) : list cell :=
  map (fun c => Str (str_cell (dtype_of s) c)) (values s).

(** One turn of [for col in colunas] under the ['label'] method, on the
    frame value the loop has reached. *)
Definition label_column (df : DataFrame) (col : string) : result DataFrame :=
  s <- getitem df col ;;
  Ok (mkFrame (nrows df)
        (set_col col (mkSeries int64 (label_fit_transform (astype_str s))) (columns df))).

Fixpoint label_columns (df : DataFrame) (colunas : list string) : result DataFrame :=
  match colunas with
  | [] => Ok df
  | col :: colunas' => df' <- label_column df col ;; label_columns df' colunas'
  end.

Definition invalid_method : exn :=
  ValueError "Método inválido. Use 'onehot' ou 'label'.".

(** [converter_categorias(df, colunas, metodo, drop_first)]; it works on
    a copy, so the model passes the frame by value. *)
Definition converter_categorias (df : DataFrame) (colunas : option (list string))
    (metodo : string) (drop_first : bool) : result DataFrame :=
  let colunas := match colunas with
                 | None => select_dtypes [object; category] df
                 | Some l => l
                 end in
  if String.eqb metodo "onehot" then get_dummies df colunas drop_first
  else if String.eqb metodo "label" then label_columns df colunas
  else Raise invalid_method.

(** Default arguments of [converter_categorias]. *)
Definition default_metodo : string := "onehot".
Definition default_drop_first : bool := true.

End DataProcessing.

(** ** uteis/preprocessing.py *)

Module Uteis.
Import Pandas Store Random ModelSelection Csv.

Definition invalid_strategy : exn :=
  ValueError "Estratégia inválida. Use 'media', 'mediana', 'moda' ou 'constante'.".

(** [f"{fill_value:.2f}"]: the format code wants a number. *)
Definition format_2f (c : cell) : result unit :=
  match c with
  | Str _ => Raise (ValueError "Unknown format code 'f' for object of type 'str'")
  | _ => Ok tt
  end.

(** The body of the [for col in colunas] loop: the constant is 0, and
    each filled column is reported with [print], whose text goes to the
    console and whose formatting can raise. *)
Definition fill_column (df : ref) (estrategia : string) (col : string) : M unit :=
  s <~ load_col df col ;;
  if has_null s then
    fill_value <~
      (if String.eqb estrategia "media" then lift (mean s)
       else if String.eqb estrategia "mediana" then lift (median s)
       else if String.eqb estrategia "moda" then lift (mode0 s)
       else if String.eqb estrategia "constante" then ret (Num 0)
       else raise invalid_strategy) ;;
    s' <~ load_col df col ;;
    _ <~ store_col df col (fillna fill_value s') ;;
    lift (format_2f fill_value)
  else ret tt.

(** [preencher_valores_numericos(df, estrategia, colunas)] *)
Definition preencher_valores_numericos (df : ref) (estrategia : string)
    (colunas : option (list string)) : M ref :=
  df <~ copy df ;;
  colunas <~ (match colunas with
              | None => fun h => (Ok (select_dtypes np_number (deref h df)), h)
              | Some l => ret l
              end) ;;
  _ <~ for_each colunas (fill_column df estrategia) ;;
  ret df.

(** [df[col].astype(str)] *)
Definition astype_str (s : Series) : list cell :=
  map (fun c => Str (str_cell (dtype_of s) c)) (values s).

Definition label_column (df : DataFrame) (col : string) : result DataFrame :=
  s <- getitem df col ;;
  Ok (mkFrame (nrows df)
        (set_col col (mkSeries int64 (Sklearn.label_fit_transform (astype_str s)))
                 (columns df))).

Fixpoint label_columns (df : DataFrame) (colunas : list string) : result DataFrame :=
  match colunas with
  | [] => Ok df
  | col :: colunas' => df' <- label_column df col ;; label_columns df' colunas'
  end.

Definition invalid_method : exn :=
  ValueError "Método inválido. Use 'onehot' ou 'label'.".

(** [converter_categorias(df, colunas_categoricas, metodo)]: the one-hot
    call spells [drop_first=True]. *)
Definition converter_categorias (df : DataFrame) (colunas_categoricas : option (list string))
    (metodo : string) : result DataFrame :=
  let colunas_categoricas := match colunas_categoricas with
                             | None => select_dtypes [object; category] df
                             | Some l => l
                             end in
  if String.eqb metodo "onehot" then get_dummies df colunas_categoricas true
  else if String.eqb metodo "label" then label_columns df colunas_categoricas
  else Raise invalid_method.

Definition default_metodo : string := "onehot".


(** [salvar_dados(df, caminho_arquivo)] without further keyword
    arguments: [os.makedirs] on the directory part of the path, which
    raises when that part is empty, then [df.to_csv(caminho_arquivo,
    index=False)]. *)
Definition salvar_dados (df : DataFrame) (caminho_arquivo : string) (fs : filesystem)
    : result unit * filesystem :=
  if has_dirname caminho_arquivo
  then (Ok tt, write_file caminho_arquivo (to_csv df) fs)
  else (Raise (FileNotFoundError EmptyString), fs).

(** [dividir_dados(X, y, tamanho_teste, seed)] *)
Definition dividir_dados {G : Generator} (X : DataFrame) (y : Series) (tamanho_teste : Q)
    (seed : Z) (global : RandomState)
    : result (DataFrame * DataFrame * Series * Series) * RandomState :=
  train_test_split X y tamanho_teste (Some seed) None global.

End Uteis.

(** ** numpy: arrays of float64 *)

Module Numpy.

(** A float64 scalar handed back to the caller: a rational, the
    non-negative square root of a rational ([np.sqrt] is the one
    irrational operation the code applies, and it applies it last), or
    NaN. *)
Inductive scalar : Type :=
| Finite (q : Q)
| Sqrt (q : Q)
| NaN.

(** The real number a scalar stands for. *)
Definition real_of (s : scalar) : option Rdefinitions.R :=
  match s with
  | Finite q => Some (Rdefinitions.Q2R q)
  | Sqrt q => Some (R_sqrt.sqrt (Rdefinitions.Q2R q))
  | NaN => None
  end.

(** [a.sum()]: the elements added left to right from zero. *)
Definition sum (a : list Q) : Q := fold_left Qplus a 0.

(** [np.average(a)] without weights, on a non-empty array. *)
Definition average (a : list Q) : Q :=
  sum a / inject_Z (Z.of_nat (List.length a)).

(** Element-wise binary operation on two arrays of one shape. *)
Fixpoint zip_with (f : Q -> Q -> Q) (a b : list Q) : list Q :=
  match a, b with
  | x :: a', y :: b' => f x y :: zip_with f a' b'
  | _, _ => []
  end.

(** [np.sqrt]: NaN below zero. *)
Definition sqrt (q : Q) : scalar :=
  if Qle_bool 0 q then Sqrt q else NaN.

Definition square (q : Q) : Q := q * q.

(** [x != 0] *)
Definition nonzero (q : Q) : bool := negb (Qeq_bool q 0).

End Numpy.

(** ** sklearn.metrics *)

Module Metrics.
Import Numpy.

(** [_check_reg_targets]: [check_consistent_length] first, then
    [check_array], which wants at least one sample.  The arrays hold
    finite numbers; NaN and infinities, which [check_array] refuses, are
    not values of the element type. *)
Definition check_reg_targets (y_true y_pred : list Q) : result unit :=
  if negb (List.length y_true =? List.length y_pred)%nat
  then Raise (ValueError "Found input variables with inconsistent numbers of samples")
  else if (List.length y_true =? 0)%nat
  then Raise (ValueError "Found array with 0 sample(s) while a minimum of 1 is required")
  else Ok tt.

(** [np.average((y_true - y_pred) ** 2)] *)
Definition mean_squared_error (y_true y_pred : list Q) : result Q :=
  _ <- check_reg_targets y_true y_pred ;;
  Ok (average (map square (zip_with Qminus y_true y_pred))).

(** [np.average(np.abs(y_pred - y_true))] *)
Definition mean_absolute_error (y_true y_pred : list Q) : result Q :=
  _ <- check_reg_targets y_true y_pred ;;
  Ok (average (map Qabs (zip_with Qminus y_pred y_true))).

(** [_assemble_r2_explained_variance] with [force_finite=True], the
    default: a perfect fit scores 1.0 whatever the denominator, and an
    imperfect fit of constant data scores 0.0 rather than [-inf]. *)
Definition assemble_r2 (numerator denominator : Q) : scalar :=
  if nonzero denominator && nonzero numerator
  then Finite (1 - numerator / denominator)
  else if nonzero numerator then Finite 0
  else Finite 1.

(** [r2_score]: fewer than two samples give NaN (with a warning). *)
Definition r2_score (y_true y_pred : list Q) : result scalar :=
  _ <- check_reg_targets y_true y_pred ;;
  if (List.length y_pred <? 2)%nat then Ok NaN
  else
    let numerator := sum (map square (zip_with Qminus y_true y_pred)) in
    let mean := average y_true in
    let denominator := sum (map (fun y => square (y - mean)) y_true) in
    Ok (assemble_r2 numerator denominator).

End Metrics.

(** ** src/utils/evaluation.py *)

Module Evaluation.
Import Numpy Metrics.

(** The metrics dictionary, in insertion order. *)
Definition metrics := list (string * scalar).

Fixpoint get (key : string) (m : metrics) : option scalar :=
  match m with
  | [] => None
  | (k, v) :: m' => if String.eqb key k then Some v else get key m'
  end.

(** [evaluate_model]; the report it prints takes no part in the value
    it returns and is left out. *)
Definition evaluate_model (y_true y_pred : list Q) : result metrics :=
  mse <- mean_squared_error y_true y_pred ;;
  let rmse := sqrt mse in
  mae <- mean_absolute_error y_true y_pred ;;
  r2 <- r2_score y_true y_pred ;;
  Ok [ ("MSE", Finite mse); ("RMSE", rmse); ("MAE", Finite mae); ("R²", r2) ].

(** *** The metrics as the specification words them *)

(** Sum and mean of a sequence. *)
Fixpoint total (l : list Q) : Q :=
  match l with
  | [] => 0
  | x :: l' => x + total l'
  end.

Definition mean (l : list Q) : Q := total l / inject_Z (Z.of_nat (List.length l)).






(** [s] read to four decimal places is [r]: [s] lies within half a unit
    of the fourth decimal of [r].  For a square root the bounds are
    compared after squaring. *)
Definition half_ulp4 : Q := 1 # 20000.

Definition rounds_to4 (s : scalar) (r : Q) : bool :=
  match s with
  | Finite q => Qle_bool (r - half_ulp4) q && Qle_bool q (r + half_ulp4)
  | Sqrt q =>
      Qle_bool 0 (r - half_ulp4)
      && Qle_bool ((r - half_ulp4) * (r - half_ulp4)) q
      && Qle_bool q ((r + half_ulp4) * (r + half_ulp4))
  | NaN => false
  end.

End Evaluation.

(** ** src/utils/evaluation.py: tables of metrics and ranked features *)

Module Reports.
Import Pandas Numpy Evaluation.

(** A table whose rows carry labels, as [pd.DataFrame(dict_of_dicts)]
    builds one: the index and the columns, each with one float per row
    of the index. *)
Record Table : Type := mkTable {
  index : list string;
  table_columns : list (string * list scalar)
}.

(** The keys of several dicts in the order of their first appearance
    ([union_indexes(indexes, sort=False)]). *)
Fixpoint first_appearances (seen keys : list string) : list string :=
  match keys with
  | [] => []
  | k :: keys' =>
      if mem k seen then first_appearances seen keys'
      else k :: first_appearances (k :: seen) keys'
  end.

(** [d.get(key, nan)] *)
Definition get_or_nan (key : string) (d : metrics) : scalar :=
  match get key d with
  | Some v => v
  | None => NaN
  end.

(** [compare_models(metrics_dict)] is [pd.DataFrame(metrics_dict).T]:
    the frame has a column per model and a row per metric name, NaN
    where a model lacks the metric; transposed, it has a row per model,
    in the order of the dict, and a column per metric name.  The dict is
    an association list with the model names as keys. *)
Definition compare_models (metrics_dict : list (string * metrics)) : Table :=
  let metric_names :=
    first_appearances [] (List.concat (map (fun m => map fst (snd m)) metrics_dict)) in
  mkTable (map fst metrics_dict)
          (map (fun k => (k, map (fun m => get_or_nan k (snd m)) metrics_dict))
               metric_names).

(** [np.argsort(a)]: the positions of [a] in ascending order of the
    values.  numpy's default sort is not stable, so the order among
    equal values is the library's and the sort stays abstract. *)
Class Argsort : Type := {
  argsort : list Q -> list nat
}.

(** Python's [a[-k:]]: the last [k] elements for a positive [k] (all of
    them when there are fewer); for [k = 0] the slice starts at
    position 0 and is the whole list; a negative [k] skips the first
    [-k] elements. *)
Definition last_slice {A : Type} (k : Z) (a : list A) : list A :=
  if (0 <? k)%Z then skipn (List.length a - Z.to_nat k) a
  else skipn (Z.to_nat (- k)) a.

(** [plot_feature_importance(model, feature_names, top_n)], on the
    [feature_importances_] of the model.  The value is what is handed to
    matplotlib: the bars from bottom to top, each with its label and its
    width.  A selected position beyond the end of [feature_names] is an
    [IndexError]. *)
Definition plot_feature_importance {sorting : Argsort} (importances : list Q)
    (feature_names : list string) (top_n : Z) : result (list (string * Q)) :=
  let indices := last_slice top_n (argsort importances) in
  let widths := map (fun i => nth i importances 0) indices in
  labels <- mapM (fun i => match nth_error feature_names i with
                           | Some name => Ok name
                           | None => Raise (IndexError "list index out of range")
                           end) indices ;;
  Ok (combine labels widths).

Definition default_top_n : Z := 20.

End Reports.

(** ** src/utils/eda.py *)

(** [analisar_valores_ausentes] (the same function stands in
    uteis/preprocessing.py).  What it prints and plots is left out; what
    is kept is the table it returns and the two exceptions its own
    lines raise. *)
Module Eda.
Import Pandas.

(** The exceptions of this function that the data decide. *)
Inductive raised : Type :=
| ZeroDivisionError
| NameError (name : string).

Inductive outcome (A : Type) : Type :=
| Returns (a : A)
| Raises (e : raised).
Arguments Returns {A} a.
Arguments Raises {A} e.

(** A row of [missing_data]: the label of a column of the input (the
    index of the row) and its two columns. *)
Record missing_row : Type := mkMissing {
  label : string;
  Total : nat;
  Porcentagem : float
}.

(** [count / n * 100] on floats. *)
Definition percentage (count n : nat) : float :=
  match ratio count n with
  | Some q => Some (q * 100)
  | None => None
  end.

(** [sort_values('Porcentagem', ascending=False)].  pandas sorts with
    numpy's quicksort, which is not stable: the order among equal
    percentages is the library's, and the sort stays abstract. *)
Class Sorter : Type := {
  sort_values : list missing_row -> list missing_row
}.

(** The rows before sorting: one per column of the input. *)
Definition missing_counts (df : DataFrame) : list missing_row :=
  map (fun c => mkMissing (fst c) (null_count (snd c))
                          (percentage (null_count (snd c)) (nrows df)))
      (columns df).

(** [analisar_valores_ausentes(df, limite_porcentagem, plotar_grafico,
    limite_grafico)].  [missing_data] is the sorted rows with
    [Total > 0].  The share of columns with gaps divides two Python
    integers, so a table without columns raises.  When [missing_data]
    is not empty the function calls [display], a name the module does
    not define or import: it exists only where the interpreter provides
    it (a notebook), [display_defined] says whether it does.  The three
    limits only steer what is printed and drawn. *)
Definition analisar_valores_ausentes {sorter : Sorter} (display_defined : bool)
    (df : DataFrame) (limite_porcentagem : Q) (plotar_grafico : bool) (limite_grafico : Q)
    : outcome (list missing_row) :=
  let missing_data := filter (fun r => (0 <? Total r)%nat) (sort_values (missing_counts df)) in
  let total_colunas := List.length (columns df) in
  if (total_colunas =? 0)%nat then Raises ZeroDivisionError
  else
    match missing_data with
    | [] => Returns missing_data
    | _ :: _ => if display_defined then Returns missing_data
                else Raises (NameError "display")
    end.

End Eda.

(** * The vocabulary of the statements, and sample tables

    Predicates and functions the theorems are stated with, and the
    concrete inputs the examples, witnesses and counterexamples run
    on. *)

Import Pandas DataProcessing.

(** The fraction of missing cells of a column of [df], as
    [preprocess_data] computes it. *)
Definition missing_fraction (df : DataFrame) (s : Series) : float :=
  ratio (null_count s) (nrows df).

(** A small housing table: an integer column without gaps, a text column
    missing in four rows of five, a text column missing everywhere, and
    the numeric target. *)
Definition housing : DataFrame :=
  mkFrame 5
    [ ("LotArea", mkSeries int64 [Num 8450; Num 9600; Num 11250; Num 9550; Num 14260]);
      ("Alley", mkSeries object [NA; Str "Grvl"; NA; NA; NA]);
      ("PoolQC", mkSeries object [NA; NA; NA; NA; NA]);
      ("SalePrice", mkSeries float64 [Num 208500; Num 181500; Num 223500; NA; Num 250000]) ].

(** A table with a column labelled by the empty string. *)
Definition unnamed_target : DataFrame :=
  mkFrame 1 [ ("", mkSeries float64 [Num 1]); ("x", mkSeries float64 [Num 2]) ].

Import Numpy Metrics Evaluation.

(** The inputs of the metrics scenario. *)
Definition scenario_true : list Q := [3; -0.5; 2; 7].
Definition scenario_pred : list Q := [2.5; 0; 2; 8].

Import Store.



Definition present (df : DataFrame) (col : string) : Prop :=
  lookup_col col (columns df) <> None.

(** A table whose numeric columns have no gap. *)
Definition complete_table : DataFrame :=
  mkFrame 2
    [ ("LotArea", mkSeries int64 [Num 8450; Num 9600]);
      ("Street", mkSeries object [Str "Pave"; NA]) ].

Import Sklearn.

(** A column of text: every cell is a string or missing. *)
Definition text (l : list cell) : Prop := Forall (fun c => is_num c = false) l.








(** A table presented at transform time with a street type the fitting
    table did not have. *)
Definition new_streets : DataFrame :=
  mkFrame 2 [ ("Id", mkSeries int64 [Num 1; Num 2]);
              ("Street", mkSeries object [Str "Dirt"; Str "Pave"]) ].

Definition fitted_streets : FittedCategorical :=
  mkFittedCat
    (mkCatPipeline (mkImputer "most_frequent" (Some (Str "missing")))
                   (mkOneHot "ignore" false))
    ["Street"] [Str "Pave"] [[Str "Grvl"; Str "Pave"]].

Import Random ModelSelection.

(** A generator to run the splitter with: a linear congruential
    generator whose permutation rotates the positions.  It stands in for
    numpy's only to evaluate the model. *)
Definition rotate (n k : nat) : list nat :=
  skipn (k mod n) (seq 0 n) ++ firstn (k mod n) (seq 0 n).

Definition toy_generator : Generator := {|
  RandomState := Z;
  seeded := fun s => s;
  permutation := fun n g =>
    (rotate n (Z.to_nat (g mod 1000)), (1103515245 * g + 12345) mod 2147483648)%Z;
  stratified_indices := fun _ _ _ g =>
    (Raise (ValueError "The least populated class in y has only 1 member"), g)
|}.

(** A table with one categorical column. *)
Definition zoning : DataFrame :=
  mkFrame 3 [ ("Id", mkSeries int64 [Num 1; Num 2; Num 3]);
              ("Zone", mkSeries object [Str "RL"; Str "RM"; Str "RL"]) ].

Import Csv.

Definition not_blank (c : ascii) : bool := negb (is_blank c).

(** A record the reader gets back as written: it has a field, and if it
    has just one, that field is empty, quoted, or not made of blanks
    only. *)
Definition row_ok (fields : list string) : bool :=
  match fields with
  | [] => false
  | [f] => String.eqb f EmptyString || any_char special f || any_char not_blank f
  | _ => true
  end.

Definition digit_or_sign (c : ascii) : bool := is_digit c || is_sign c.

Definition lower_char (c : ascii) : ascii :=
  let n := nat_of_ascii c in
  if (65 <=? n)%nat && (n <=? 90)%nat then ascii_of_nat (n + 32) else c.

Fixpoint lower (s : string) : string :=
  match s with
  | EmptyString => EmptyString
  | String c s' => String (lower_char c) (lower s')
  end.

Definition unsigned (s : string) : string :=
  match s with
  | String c s' => if is_sign c then s' else s
  | EmptyString => s
  end.

(** Text that no reader takes for a number, a boolean or a missing
    value: it has a character that is neither blank nor part of a
    decimal number, it is none of the missing markers and boolean words,
    and it does not spell infinity or NaN in any case.  It has no
    carriage return, which not every writer quotes. *)
Definition textual (t : string) : bool :=
  any_char (fun c => negb (numeric_char c || is_space c)) t
  && negb (is_na t)
  && negb (mem t true_values || mem t false_values)
  && negb (mem (lower (unsigned (strip t))) ["inf"; "infinity"; "nan"])
  && negb (any_char (Ascii.eqb CR) t).

Definition int_cell (c : cell) : bool :=
  match c with
  | Num q => Pos.eqb (Qden q) 1
  | _ => false
  end.

Definition text_cell (c : cell) : bool :=
  match c with
  | NA => true
  | Str t => textual t
  | Num _ => false
  end.

(** A column the file format carries faithfully: integers, or textual
    strings and gaps with at least one string. *)
Definition portable_column (s : Series) : bool :=
  match dtype_of s with
  | int64 => forallb int_cell (values s)
  | object => forallb text_cell (values s) && existsb is_str (values s)
  | _ => false
  end.

Definition plain_label (l : string) : bool :=
  negb (String.eqb l EmptyString) && any_char not_blank l
  && negb (any_char (Ascii.eqb CR) l).

(** A table the file format carries faithfully: at least one row and one
    column, plain labels, portable columns. *)
Definition portable (df : DataFrame) : bool :=
  (0 <? nrows df)%nat
  && negb (List.length (columns df) =? 0)%nat
  && forallb plain_label (column_names df)
  && forallb (fun c => portable_column (snd c)) (columns df).


Definition no_files : filesystem := fun _ => None.

(** The table of the round-trip scenario: a missing value, a negative
    number and a text field with a comma in it. *)
Definition owners : DataFrame :=
  mkFrame 3
    [ ("balance", mkSeries int64 [Num 120; Num (-35); Num 0]);
      ("owner", mkSeries object [Str "Smith, John"; NA; Str "Ana"]) ].

(** ** Vocabulary of the further properties *)

(** [name] is the target [preprocess_data] takes out of the feature
    lists: a target name that was supplied and is not empty. *)
Definition is_target (target_column : option string) (name : string) : bool :=
  match target_column with
  | Some t => truthy target_column && String.eqb t name
  | None => false
  end.

(** The feature lists of a frame for a target: its columns of the given
    types, the target left out. *)
Definition features_of (include : list dtype) (target_column : option string)
    (df : DataFrame) : list string :=
  filter (fun name => negb (is_target target_column name)) (select_dtypes include df).

(** A table without rows. *)
Definition no_rows : DataFrame :=
  mkFrame 0 [ ("LotArea", mkSeries int64 []); ("Alley", mkSeries object []) ].

(** The value the strategy dispatch of [preencher_valores_numericos]
    computes for a column, [constante] being the constant of the
    ['constante'] branch. *)
Definition statistic (estrategia : string) (constante : Q) (s : Series) : result cell :=
  if String.eqb estrategia "media" then Pandas.mean s
  else if String.eqb estrategia "mediana" then Pandas.median s
  else if String.eqb estrategia "moda" then mode0 s
  else if String.eqb estrategia "constante" then Ok (Num constante)
  else Raise DataProcessing.invalid_strategy.

(** One turn of the loop seen on the value of the copy: how the turn
    ends, and the value the copy has after it.  [report] is what
    formatting the fill value for the printed report does. *)
Definition fill_turn (estrategia : string) (constante : Q) (report : cell -> result unit)
    (d : DataFrame) (col : string) : result unit * DataFrame :=
  match lookup_col col (columns d) with
  | None => (Raise (KeyError col), d)
  | Some s =>
      if has_null s then
        match statistic estrategia constante s with
        | Ok v => (report v, mkFrame (nrows d) (set_col col (fillna v s) (columns d)))
        | Raise e => (Raise e, d)
        end
      else (Ok tt, d)
  end.

Fixpoint fill_turns (estrategia : string) (constante : Q) (report : cell -> result unit)
    (d : DataFrame) (cols : list string) : result unit * DataFrame :=
  match cols with
  | [] => (Ok tt, d)
  | col :: cols' =>
      match fill_turn estrategia constante report d col with
      | (Ok _, d') => fill_turns estrategia constante report d' cols'
      | (Raise e, d') => (Raise e, d')
      end
  end.

(** The columns a call fills: those named, or the numeric ones. *)
Definition fill_targets (colunas : option (list string)) (table : DataFrame) : list string :=
  match colunas with
  | Some l => l
  | None => select_dtypes np_number table
  end.

(** [d'] is [d] with the gaps of the columns [targets] filled under a
    strategy: the same rows and labels, every target column that had a
    gap with its gaps taking the value the strategy computes for it, and
    every other column as it was. *)
Definition gaps_filled (estrategia : string) (constante : Q) (targets : list string)
    (d d' : DataFrame) : Prop :=
  nrows d' = nrows d
  /\ column_names d' = column_names d
  /\ forall col s, lookup_col col (columns d) = Some s ->
       if mem col targets && has_null s
       then exists v, statistic estrategia constante s = Ok v
                      /\ lookup_col col (columns d') = Some (fillna v s)
       else lookup_col col (columns d') = Some s.

(** A column without any value: it has cells and they are all missing. *)
Definition all_missing (s : Series) : bool :=
  negb (List.length (values s) =? 0)%nat && forallb isnull (values s).


(** A table with a numeric column that has no value. *)
Definition vacant : DataFrame :=
  mkFrame 2 [ ("LotArea", mkSeries int64 [Num 8450; Num 9600]);
              ("GarageYrBlt", mkSeries float64 [NA; NA]) ].

(** The codes of a column under the ['label'] method:
    [le.fit_transform(df[col].astype(str))]. *)
Definition label_codes (s : Series) : list cell :=
  label_fit_transform (DataProcessing.astype_str s).



(** The columns [converter_categorias] converts: those named, or the
    text columns. *)
Definition convert_targets (colunas : option (list string)) (df : DataFrame) : list string :=
  match colunas with
  | Some l => l
  | None => select_dtypes [object; category] df
  end.



(** The column the ['label'] method puts in place of [s]. *)
Definition label_encoded (s : Series) : Series := mkSeries int64 (label_codes s).



(** The number of test rows [train_test_split] computes for a fraction. *)
Definition test_rows (n_samples : nat) (test_size : Q) : nat :=
  Z.to_nat (Qceiling (test_size * inject_Z (Z.of_nat n_samples))).

(** A table with a single row, and its target. *)
Definition single_row : DataFrame :=
  mkFrame 1 [ ("LotArea", mkSeries int64 [Num 8450]) ].

Definition single_target : Series := mkSeries float64 [Num 208500].


(** The default file names of [load_data]. *)
Definition default_train_file : string := "train.csv".
Definition default_test_file : string := "test.csv".

(** Position of a label in an index. *)
Fixpoint position (label : string) (labels : list string) : option nat :=
  match labels with
  | [] => None
  | l :: labels' =>
      if String.eqb label l then Some O else option_map S (position label labels')
  end.

(** The column of a table of metrics under a label. *)
Fixpoint column_of (col : string) (cs : list (string * list scalar))
    : option (list scalar) :=
  match cs with
  | [] => None
  | (k, vs) :: cs' => if String.eqb col k then Some vs else column_of col cs'
  end.

(** [table.loc[row, col]] on a table of metrics. *)
Definition cell_at (t : Reports.Table) (row col : string) : option scalar :=
  match position row (Reports.index t), column_of col (Reports.table_columns t) with
  | Some i, Some vs => nth_error vs i
  | _, _ => None
  end.

(** The names of the metrics [evaluate_model] returns. *)
Definition metric_names : list string := ["MSE"; "RMSE"; "MAE"; "R²"].

(** The metrics of two models on the scenario: one with the scenario's
    predictions, one that predicts every value exactly. *)
Definition metrics_of (y_true y_pred : list Q) : metrics :=
  match evaluate_model y_true y_pred with
  | Ok m => m
  | Raise _ => []
  end.

Definition two_models : list (string * metrics) :=
  [ ("linear", metrics_of scenario_true scenario_pred);
    ("oracle", metrics_of scenario_true scenario_true) ].

(** [a] may stand before [b] in descending order; NaN stands last. *)
Definition descends (a b : float) : Prop :=
  match a, b with
  | Some x, Some y => y <= x
  | _, None => True
  | None, Some _ => False
  end.

(** What a sort in descending order of [Porcentagem] guarantees. *)
Definition sorts_descending (sorter : Eda.Sorter) : Prop :=
  forall l,
    Permutation (Eda.sort_values l) l
    /\ StronglySorted (fun a b => descends (Eda.Porcentagem a) (Eda.Porcentagem b))
         (Eda.sort_values l).

(** A sorter to evaluate the model with: insertion into a descending
    list. *)
Definition descends_b (a b : float) : bool :=
  match a, b with
  | Some x, Some y => Qle_bool y x
  | _, None => true
  | None, Some _ => false
  end.

Fixpoint insert_row (r : Eda.missing_row) (l : list Eda.missing_row) : list Eda.missing_row :=
  match l with
  | [] => [r]
  | h :: t =>
      if descends_b (Eda.Porcentagem r) (Eda.Porcentagem h) then r :: l
      else h :: insert_row r t
  end.

Definition insertion_sorter : Eda.Sorter :=
  {| Eda.sort_values := fold_right insert_row [] |}.

(** A table with gaps in two columns of three. *)
Definition gappy : DataFrame :=
  mkFrame 4
    [ ("LotArea", mkSeries int64 [Num 8450; Num 9600; Num 11250; Num 9550]);
      ("Alley", mkSeries object [NA; Str "Grvl"; NA; NA]);
      ("LotFrontage", mkSeries float64 [Num 65; NA; Num 68; Num 60]) ].

(** A table without columns. *)
Definition no_columns : DataFrame := mkFrame 3 [].

(** What [argsort] guarantees: a permutation of the positions along
    which the values ascend. *)
Definition sorts_ascending (sorting : Reports.Argsort) : Prop :=
  forall a,
    Permutation (Reports.argsort a) (seq 0 (List.length a))
    /\ StronglySorted (fun i j => nth i a 0 <= nth j a 0) (Reports.argsort a).

(** An [argsort] to evaluate the model with: insertion by value. *)
Fixpoint insert_position (a : list Q) (i : nat) (l : list nat) : list nat :=
  match l with
  | [] => [i]
  | j :: l' =>
      if Qle_bool (nth i a 0) (nth j a 0) then i :: l else j :: insert_position a i l'
  end.

Definition insertion_argsort : Reports.Argsort :=
  {| Reports.argsort := fun a => fold_right (insert_position a) [] (seq 0 (List.length a)) |}.

(** The number of bars [plot_feature_importance] draws for [n]
    importances. *)
Definition bars_drawn (n : nat) (top_n : Z) : nat :=
  if (0 <? top_n)%Z then Nat.min (Z.to_nat top_n) n
  else (n - Z.to_nat (- top_n))%nat.

(** Three features and their importances. *)
Definition sample_importances : list Q := [0.2; 0.5; 0.3].
Definition sample_features : list string := ["LotArea"; "GrLivArea"; "YearBuilt"].

(** * Theorems *)

(** ** Scalars as real numbers *)

Module ScalarMeaning.
Import Reals Qreals Lra.
Import Numpy Evaluation.

(** [rounds_to4] says what it should: the real number the scalar stands
    for lies within half a unit of the fourth decimal of [r]. *)
Lemma rounds_to4_sound (s : scalar) (r : Q) :
  rounds_to4 s r = true ->
  exists x : R, real_of s = Some x /\ (Rabs (x - Q2R r) <= Q2R half_ulp4)%R.
Proof.
  destruct s as [q|q|]; simpl; intros H; [| |discriminate].
  - apply andb_true_iff in H. destruct H as [H1 H2].
    apply Qle_bool_iff, Qle_Rle in H1. apply Qle_bool_iff, Qle_Rle in H2.
    rewrite Q2R_minus in H1. rewrite Q2R_plus in H2.
    exists (Q2R q). split; [reflexivity|].
    apply Rabs_le. lra.
  - apply andb_true_iff in H. destruct H as [H H3].
    apply andb_true_iff in H. destruct H as [H1 H2].
    apply Qle_bool_iff, Qle_Rle in H1. apply Qle_bool_iff, Qle_Rle in H2.
    apply Qle_bool_iff, Qle_Rle in H3.
    rewrite Q2R_mult, !Q2R_minus in H2. rewrite Q2R_mult, !Q2R_plus in H3.
    rewrite Q2R_minus in H1.
    assert (H0 : Q2R 0 = 0%R) by (unfold Q2R; simpl; lra).
    rewrite H0 in H1.
    exists (R_sqrt.sqrt (Q2R q)). split; [reflexivity|].
    set (lo := (Q2R r - Q2R half_ulp4)%R) in *.
    set (hi := (Q2R r + Q2R half_ulp4)%R) in *.
    assert (Hlo : (lo <= R_sqrt.sqrt (Q2R q))%R).
    { rewrite <- (sqrt_square lo) by assumption. now apply sqrt_le_1_alt. }
    assert (Hhi0 : (0 <= hi)%R).
    { assert (0 <= Q2R half_ulp4)%R by (unfold half_ulp4, Q2R; simpl; lra).
      unfold hi, lo in *. lra. }
    assert (Hhi : (R_sqrt.sqrt (Q2R q) <= hi)%R).
    { rewrite <- (sqrt_square hi) by assumption. now apply sqrt_le_1_alt. }
    apply Rabs_le. unfold lo, hi in *. lra.
Qed.

End ScalarMeaning.

Import Pandas DataProcessing.

(** ** Labels and association lists *)

Lemma mem_In (x : string) (l : list string) : mem x l = true <-> In x l.
Proof.
  unfold mem. rewrite existsb_exists. split.
  - intros [y [Hy Heq]]. apply String.eqb_eq in Heq. now subst.
  - intros H. exists x. split; [assumption | apply String.eqb_refl].
Qed.

Lemma mem_false (x : string) (l : list string) : mem x l = false <-> ~ In x l.
Proof.
  rewrite <- mem_In. destruct (mem x l); split; congruence.
Qed.

Lemma unique_label {A : Type} (l : list (string * A)) (n : string) (a b : A) :
  NoDup (map fst l) -> In (n, a) l -> In (n, b) l -> a = b.
Proof.
  induction l as [|[m c] l IH]; simpl; intros Hnd Ha Hb; [contradiction|].
  inversion Hnd as [|? ? Hnot Hnd']; subst.
  destruct Ha as [Ha|Ha], Hb as [Hb|Hb].
  - congruence.
  - inversion Ha; subst. exfalso. apply Hnot.
    change n with (fst (n, b)). now apply in_map.
  - inversion Hb; subst. exfalso. apply Hnot.
    change n with (fst (n, a)). now apply in_map.
  - now apply IH.
Qed.

Lemma list_remove_incl (x : string) (l : list string) :
  incl (list_remove x l) l.
Proof.
  induction l as [|y l IH]; simpl; [easy|].
  destruct (String.eqb x y).
  - now apply incl_tl.
  - intros z [Hz|Hz]; [now left | right; now apply IH].
Qed.

Lemma list_remove_NoDup (x : string) (l : list string) :
  NoDup l -> ~ In x (list_remove x l).
Proof.
  induction l as [|y l IH]; simpl; intros Hnd; [easy|].
  inversion Hnd as [|? ? Hnot Hnd']; subst.
  destruct (String.eqb_spec x y) as [->|Hne]; [assumption|].
  intros [Hy|Hin]; [congruence | now apply IH].
Qed.

Lemma select_dtypes_In (inc : list dtype) (df : DataFrame) (n : string) :
  In n (select_dtypes inc df) <->
  exists s, In (n, s) (columns df) /\ existsb (dtype_eqb (dtype_of s)) inc = true.
Proof.
  unfold select_dtypes. rewrite in_map_iff. split.
  - intros [[m s] [Hm Hin]]. simpl in Hm. subst m.
    apply filter_In in Hin. now exists s.
  - intros [s [Hin Hd]]. exists (n, s). split; [reflexivity|].
    apply filter_In. now split.
Qed.

Lemma select_dtypes_NoDup (inc : list dtype) (df : DataFrame) :
  NoDup (column_names df) -> NoDup (select_dtypes inc df).
Proof.
  unfold select_dtypes, column_names.
  induction (columns df) as [|[n s] cs IH]; simpl; intros Hnd; [constructor|].
  inversion Hnd as [|? ? Hnot Hnd']; subst.
  destruct (existsb (dtype_eqb (dtype_of s)) inc); simpl; [|now apply IH].
  constructor; [|now apply IH].
  intros Hin. apply Hnot. apply in_map_iff in Hin.
  destruct Hin as [c [Hc Hin]]. apply filter_In in Hin.
  apply in_map_iff. exists c. tauto.
Qed.

(** A column has one declared type, so type-based selections on disjoint
    type lists share no label. *)
Lemma numeric_categorical_disjoint (df : DataFrame) (n : string) :
  NoDup (column_names df) ->
  In n (select_dtypes [int64; float64] df) ->
  ~ In n (select_dtypes [object; category] df).
Proof.
  intros Hnd Hn Hc.
  apply select_dtypes_In in Hn. apply select_dtypes_In in Hc.
  destruct Hn as [s1 [H1 D1]], Hc as [s2 [H2 D2]].
  assert (s1 = s2) by (eapply unique_label; eauto). subst s2.
  destruct (dtype_of s1); simpl in *; discriminate.
Qed.

(** With unique labels, dropping by label is dropping by the column's own
    missing fraction. *)
Lemma drop_by_fraction (df : DataFrame) (t : Q) (c : string * Series) :
  NoDup (column_names df) ->
  In c (columns df) ->
  mem (fst c)
      (map fst (filter (fun m => float_gt (snd m) t) (missing_values df)))
  = float_gt (missing_fraction df (snd c)) t.
Proof.
  intros Hnd Hin. destruct c as [n s]. simpl.
  destruct (float_gt (missing_fraction df s) t) eqn:Hgt.
  - apply mem_In. apply in_map_iff.
    exists (n, missing_fraction df s). split; [reflexivity|].
    apply filter_In. split; [|assumption].
    unfold missing_values. apply in_map_iff. now exists (n, s).
  - apply mem_false. intros Hd. apply in_map_iff in Hd.
    destruct Hd as [[m f] [Hm Hf]]. simpl in Hm. subst m.
    apply filter_In in Hf. destruct Hf as [Hf Hgt'].
    unfold missing_values in Hf. apply in_map_iff in Hf.
    destruct Hf as [[n' s'] [Heq Hin']]. simpl in Heq.
    inversion Heq; subst.
    assert (s' = s) by (eapply unique_label; eauto). subst s'.
    simpl in Hgt'. unfold missing_fraction in Hgt. congruence.
Qed.

Lemma preprocess_data_columns (df : DataFrame) (target : option string) (t : Q) :
  NoDup (column_names df) ->
  columns (fst (fst (preprocess_data df target true t))) =
  filter (fun c => negb (float_gt (missing_fraction df (snd c)) t)) (columns df).
Proof.
  intros Hnd. unfold preprocess_data.
  destruct (match target with Some _ => _ | None => _ end) as [nf cf].
  simpl. apply filter_ext_in. intros c Hc.
  now rewrite drop_by_fraction.
Qed.



Lemma float_gt_spec (x : float) (t : Q) :
  float_gt x t = true <-> exists q, x = Some q /\ t < q.
Proof.
  unfold float_gt. destruct x as [q|].
  - rewrite negb_true_iff. split.
    + intros H. exists q. split; [reflexivity|].
      apply Qnot_le_lt. intros Hle. apply Qle_bool_iff in Hle. congruence.
    + intros [q' [Hq Hlt]]. inversion Hq; subst q'.
      destruct (Qle_bool q t) eqn:E; [|reflexivity].
      apply Qle_bool_iff in E. exfalso. eapply Qlt_not_le; eauto.
  - split; [discriminate | intros [q [Hq _]]; discriminate].
Qed.

(** ** C5 *)


Lemma housing_wf : wf_frame housing.
Proof.
  split.
  - repeat constructor; simpl; intuition discriminate.
  - repeat constructor.
Defined.

Example housing_preprocessed :
  preprocess_data housing (Some "SalePrice") true (8 # 10) =
  (mkFrame 5
     [ ("LotArea", mkSeries int64 [Num 8450; Num 9600; Num 11250; Num 9550; Num 14260]);
       ("Alley", mkSeries object [NA; Str "Grvl"; NA; NA; NA]);
       ("SalePrice", mkSeries float64 [Num 208500; Num 181500; Num 223500; NA; Num 250000]) ],
   ["LotArea"], ["Alley"]).
Proof. reflexivity. Qed.


(** ** C6 *)

(** C6, counterexample. The claim as written fails for the empty target
    name: Python reads the empty string as false, so
    [if target_column and ...] skips the removal and a column labelled
    by the empty string stays among the numeric features. *)
Lemma C6_empty_target_kept :
  wf_frame unnamed_target /\
  In "" (snd (fst (preprocess_data unnamed_target (Some "") true (8 # 10)))).
Proof.
  split.
  - split; [repeat constructor; simpl; intuition discriminate | repeat constructor].
  - simpl. now left.
Qed.

(** C6 (amended). For every table with unique labels and every optional
    target, the numeric and categorical feature lists returned by
    [preprocess_data] share no label, and a supplied target name that is
    not the empty string appears in neither list. *)
Theorem C6_features_disjoint_target_excluded
    (df : DataFrame) (target : option string) (drop_high_missing : bool) (t : Q)
    (Hnd : NoDup (column_names df)) :
  let numeric_features := snd (fst (preprocess_data df target drop_high_missing t)) in
  let categorical_features := snd (preprocess_data df target drop_high_missing t) in
  (forall col, In col numeric_features -> ~ In col categorical_features)
  /\ (forall name, target = Some name -> name <> "" ->
        ~ In name numeric_features /\ ~ In name categorical_features).
Proof.
  set (num0 := select_dtypes [int64; float64] df).
  set (cat0 := select_dtypes [object; category] df).
  assert (Hdis : forall n, In n num0 -> ~ In n cat0)
    by (intros n; now apply numeric_categorical_disjoint).
  assert (Hn0 : NoDup num0) by now apply select_dtypes_NoDup.
  assert (Hc0 : NoDup cat0) by now apply select_dtypes_NoDup.
  (* the lists after the target has been taken out *)
  assert (Hmid : exists num1 cat1,
    (match target with
     | Some t0 =>
         if truthy target && mem t0 num0 then (list_remove t0 num0, cat0)
         else if truthy target && mem t0 cat0 then (num0, list_remove t0 cat0)
         else (num0, cat0)
     | None => (num0, cat0)
     end) = (num1, cat1)
    /\ incl num1 num0 /\ incl cat1 cat0
    /\ (forall name, target = Some name -> name <> "" ->
          ~ In name num1 /\ ~ In name cat1)).
  { destruct target as [t0|].
    - destruct (String.eqb_spec t0 "") as [->|Hne].
      + simpl. exists num0, cat0.
        split; [reflexivity|]. split; [apply incl_refl|].
        split; [apply incl_refl|].
        intros name Hn Hne. inversion Hn; subst. congruence.
      + assert (Ht : truthy (Some t0) = true).
        { simpl. apply negb_true_iff. now apply String.eqb_neq. }
        rewrite Ht. simpl.
        destruct (mem t0 num0) eqn:En.
        * exists (list_remove t0 num0), cat0.
          split; [reflexivity|]. split; [apply list_remove_incl|].
          split; [apply incl_refl|].
          intros name Hn _. inversion Hn; subst name. split.
          -- now apply list_remove_NoDup.
          -- apply Hdis. now apply mem_In.
        * destruct (mem t0 cat0) eqn:Ec.
          -- exists num0, (list_remove t0 cat0).
             split; [reflexivity|]. split; [apply incl_refl|].
             split; [apply list_remove_incl|].
             intros name Hn _. inversion Hn; subst name. split.
             ++ now apply mem_false.
             ++ now apply list_remove_NoDup.
          -- exists num0, cat0.
             split; [reflexivity|]. split; [apply incl_refl|].
             split; [apply incl_refl|].
             intros name Hn _. inversion Hn; subst name.
             split; now apply mem_false.
    - exists num0, cat0.
      split; [reflexivity|]. split; [apply incl_refl|].
      split; [apply incl_refl|].
      intros name Hn. discriminate. }
  destruct Hmid as (num1 & cat1 & Heq & Hin & Hic & Htgt).
  unfold preprocess_data. fold num0. fold cat0. rewrite Heq.
  destruct drop_high_missing; simpl.
  - split.
    + intros col Hcol Hcat.
      apply filter_In in Hcol. apply filter_In in Hcat.
      apply (Hdis col); [apply Hin | apply Hic]; tauto.
    + intros name Hn Hne. destruct (Htgt name Hn Hne) as [H1 H2].
      split; intros Hf; apply filter_In in Hf; tauto.
  - split.
    + intros col Hcol Hcat. apply (Hdis col); [now apply Hin | now apply Hic].
    + exact Htgt.
Qed.

(** C6 on the housing table: the target [SalePrice] is in neither list. *)
Lemma C6_features_disjoint_target_excluded_witness :
  NoDup (column_names housing) /\
  ~ In "SalePrice" (snd (fst (preprocess_data housing (Some "SalePrice") true (8 # 10)))) /\
  ~ In "SalePrice" (snd (preprocess_data housing (Some "SalePrice") true (8 # 10))).
Proof.
  split; [exact (proj1 housing_wf)|].
  destruct (C6_features_disjoint_target_excluded housing (Some "SalePrice") true
              (8 # 10) (proj1 housing_wf)) as [_ Htarget].
  apply (Htarget "SalePrice"); [reflexivity | discriminate].
Defined.

(** ** Evaluation: library code against the specification's formulas *)

Import Numpy Metrics Evaluation.



























(** ** C3 *)




(** ** C4 *)




(** ** The object store: what a call can touch *)

Import Store.

Lemma deref_old (h : heap) (d : DataFrame) (r : ref) :
  (r < List.length h)%nat -> deref (h ++ [d]) r = deref h r.
Proof. intros Hr. unfold deref. now apply app_nth1. Qed.

Lemma deref_new (h : heap) (d : DataFrame) :
  deref (h ++ [d]) (List.length h) = d.
Proof. unfold deref. apply nth_middle. Qed.

Lemma update_new (h : heap) (d x : DataFrame) :
  update (List.length h) x (h ++ [d]) = h ++ [x].
Proof. induction h as [|y h IH]; simpl; [reflexivity | now rewrite IH]. Qed.

Lemma lookup_col_In (col : string) (cs : list (string * Series)) :
  In col (map fst cs) -> lookup_col col cs <> None.
Proof.
  induction cs as [|[n s] cs IH]; simpl; [easy|].
  intros [Hn|Hin].
  - subst n. now rewrite String.eqb_refl.
  - destruct (String.eqb col n); [discriminate | now apply IH].
Qed.

Lemma select_dtypes_present (inc : list dtype) (df : DataFrame) :
  Forall (present df) (select_dtypes inc df).
Proof.
  apply Forall_forall. intros col Hin. apply lookup_col_In.
  unfold select_dtypes in Hin. apply in_map_iff in Hin.
  destruct Hin as [c [Hc Hf]]. apply filter_In in Hf.
  apply in_map_iff. exists c. tauto.
Qed.




(** With a strategy the dispatch knows, the gap of [SalePrice] is filled
    in the copy and the caller's table keeps it. *)
Example housing_filled_with_median :
  DataProcessing.preencher_valores_numericos 0%nat None "mediana" 0 [housing] =
  (Ok 1%nat,
   [ housing;
     mkFrame 5
       [ ("LotArea", mkSeries int64 [Num 8450; Num 9600; Num 11250; Num 9550; Num 14260]);
         ("Alley", mkSeries object [NA; Str "Grvl"; NA; NA; NA]);
         ("PoolQC", mkSeries object [NA; NA; NA; NA; NA]);
         ("SalePrice",
          mkSeries float64 [Num 208500; Num 181500; Num 223500; Num (432000 # 2); Num 250000]) ] ]).
Proof. reflexivity. Qed.


(** ** C2 *)




(** ** Results of loops *)


Lemma mapM_total {A B : Type} (f : A -> result B) (g : A -> B) (l : list A) :
  Forall (fun a => f a = Ok (g a)) l -> mapM f l = Ok (map g l).
Proof.
  induction 1 as [|a l Ha _ IH]; simpl; [reflexivity|].
  now rewrite Ha, IH.
Qed.

(** ** Text columns *)

Import Sklearn.






Lemma max_attained {A : Type} (f : A -> nat) (l : list A) :
  l <> [] -> exists x, In x l /\ f x = fold_right Nat.max O (map f l).
Proof.
  induction l as [|a l IH]; [congruence|]. intros _. simpl.
  destruct l as [|b l'].
  - exists a. split; [now left|]. simpl. lia.
  - destruct IH as [x [Hx Hfx]]; [discriminate|].
    destruct (Nat.max_spec (f a) (fold_right Nat.max O (map f (b :: l')))) as [[_ E]|[_ E]].
    + exists x. split; [now right|]. rewrite E. exact Hfx.
    + exists a. split; [now left|]. now rewrite E.
Qed.



(** ** The categorical pipeline on text columns *)












(** ** C1 *)






(** ** Transforming with the fitted categorical pipeline *)











(** ** C7 *)


Example new_streets_encoded :
  transform_cat fitted_streets new_streets = Ok [[0; 0]; [0; 1]].
Proof. reflexivity. Qed.


(** ** C8 *)

Import Random ModelSelection.




Example split_housing :
  fst (split_data (G := toy_generator) housing
         (mkSeries float64 [Num 1; Num 2; Num 3; Num 4; Num 5]) 0.4 42 None 7%Z) =
  Ok (mkFrame 3
        [ ("LotArea", mkSeries int64 [Num 14260; Num 8450; Num 9600]);
          ("Alley", mkSeries object [NA; NA; Str "Grvl"]);
          ("PoolQC", mkSeries object [NA; NA; NA]);
          ("SalePrice", mkSeries float64 [Num 250000; Num 208500; Num 181500]) ],
      mkFrame 2
        [ ("LotArea", mkSeries int64 [Num 11250; Num 9550]);
          ("Alley", mkSeries object [NA; NA]);
          ("PoolQC", mkSeries object [NA; NA]);
          ("SalePrice", mkSeries float64 [Num 223500; NA]) ],
      mkSeries float64 [Num 5; Num 1; Num 2],
      mkSeries float64 [Num 3; Num 4]).
Proof. vm_compute. reflexivity. Qed.

Example unseeded_split_follows_global_state :
  fst (train_test_split (G := toy_generator) housing
         (mkSeries float64 [Num 1; Num 2; Num 3; Num 4; Num 5]) 0.4 None None 0%Z) <>
  fst (train_test_split (G := toy_generator) housing
         (mkSeries float64 [Num 1; Num 2; Num 3; Num 4; Num 5]) 0.4 None None 1%Z).
Proof. vm_compute. discriminate. Qed.

(** ** C10 *)

Lemma label_columns_same (colunas : list string) (df : DataFrame) :
  Uteis.label_columns df colunas = DataProcessing.label_columns df colunas.
Proof.
  revert df. induction colunas as [|col colunas IH]; intros df; simpl; [reflexivity|].
  unfold Uteis.label_column, DataProcessing.label_column.
  destruct (getitem df col) as [s|e]; simpl; [apply IH | reflexivity].
Qed.

Lemma converter_categorias_same (df : DataFrame) (colunas : option (list string))
    (metodo : string) :
  Uteis.converter_categorias df colunas metodo =
  DataProcessing.converter_categorias df colunas metodo DataProcessing.default_drop_first.
Proof.
  unfold Uteis.converter_categorias, DataProcessing.converter_categorias,
    DataProcessing.default_drop_first.
  destruct (String.eqb metodo "onehot"); [reflexivity|].
  destruct (String.eqb metodo "label"); [apply label_columns_same | reflexivity].
Qed.

(** C10, counterexample. The claim as written fails: called with default
    parameters the two implementations return the same table for every input, since both
    encode with [drop_first=True]. *)
Lemma C10_defaults_never_differ :
  ~ exists df : DataFrame,
      DataProcessing.converter_categorias df None DataProcessing.default_metodo
        DataProcessing.default_drop_first <>
      Uteis.converter_categorias df None Uteis.default_metodo.
Proof.
  intros [df Hdiff]. apply Hdiff. symmetry. apply converter_categorias_same.
Qed.

Example zoning_encoded :
  Uteis.converter_categorias zoning None "onehot" =
  Ok (mkFrame 3 [ ("Id", mkSeries int64 [Num 1; Num 2; Num 3]);
                  ("Zone_RM", mkSeries bool_ [Num 0; Num 1; Num 0]) ]).
Proof. reflexivity. Qed.

(** C10 (amended). The two implementations of [converter_categorias]
    encode with the same [drop_first] by default: for every table, every
    choice of columns and every method, the one in
    [uteis/preprocessing.py] returns what the one in
    [src/utils/data_processing.py] returns with its default
    [drop_first = True] (the same table or the same error).  They differ
    in that only the latter takes [drop_first] as a parameter: for some
    table with a categorical column, calling it with [drop_first = False]
    returns a table other than the one [uteis/preprocessing.py] returns. *)
Theorem C10_same_default_drop_first :
  (forall (df : DataFrame) (colunas : option (list string)) (metodo : string),
     Uteis.converter_categorias df colunas metodo =
     DataProcessing.converter_categorias df colunas metodo
       DataProcessing.default_drop_first)
  /\ DataProcessing.default_drop_first = true
  /\ (exists df : DataFrame,
        DataProcessing.converter_categorias df None "onehot" false <>
        Uteis.converter_categorias df None "onehot").
Proof.
  split; [exact converter_categorias_same|]. split; [reflexivity|].
  exists zoning. vm_compute. discriminate.
Qed.

(** ** CSV: what the tokenizer makes of what the writer wrote *)

Import Csv.

Lemma append_nil_r (s : string) : (s ++ "")%string = s.
Proof. induction s as [|c s IH]; simpl; [reflexivity | now rewrite IH]. Qed.

Lemma append_assoc (a b c : string) : ((a ++ b) ++ c)%string = (a ++ (b ++ c))%string.
Proof. induction a as [|x a IH]; simpl; [reflexivity | now rewrite IH]. Qed.

Lemma snoc_append (g : string) (c : ascii) (u : string) :
  (snoc g c ++ u)%string = (g ++ String c u)%string.
Proof. unfold snoc. now rewrite append_assoc. Qed.

Lemma run_app (t : tokenizer) (a b : string) :
  run t (a ++ b) = run (run t a) b.
Proof. revert t. induction a as [|c a IH]; intros t; simpl; [reflexivity | apply IH]. Qed.

(** A character that does not force quotes is none of the characters the
    tokenizer acts on. *)
Lemma plain_char (c : ascii) :
  special c = false ->
  Ascii.eqb c dquote = false /\ Ascii.eqb c comma = false /\ is_eol c = false.
Proof.
  unfold special, is_eol. intros H.
  repeat (apply orb_false_iff in H; destruct H as [H ?]).
  repeat split; try assumption. now apply orb_false_iff.
Qed.

Lemma run_unquoted_in_field (u g : string) (rec : list string) (recs : list (list string)) :
  any_char special u = false ->
  run (mkTok InField g rec recs) u = mkTok InField (g ++ u) rec recs.
Proof.
  revert g. induction u as [|c u IH]; intros g H; simpl.
  - now rewrite append_nil_r.
  - simpl in H. apply orb_false_iff in H. destruct H as [Hc Hu].
    destruct (plain_char c Hc) as (_ & Hcomma & Heol).
    unfold step, in_field. cbn [state]. rewrite Hcomma, Heol.
    unfold push. cbn [field record records].
    rewrite (IH _ Hu). now rewrite snoc_append.
Qed.

Lemma run_unquoted_whitespace (u g : string) (rec : list string) (recs : list (list string)) :
  any_char special u = false ->
  run (mkTok WhitespaceLine g rec recs) u =
  mkTok (if any_char not_blank u then InField else WhitespaceLine) (g ++ u) rec recs.
Proof.
  revert g. induction u as [|c u IH]; intros g H; simpl.
  - now rewrite append_nil_r.
  - simpl in H. apply orb_false_iff in H. destruct H as [Hc Hu].
    destruct (plain_char c Hc) as (_ & Hcomma & Heol).
    unfold step. cbn [state]. rewrite Heol. unfold not_blank at 1.
    destruct (is_blank c); cbn [negb orb].
    + unfold push. cbn [field record records].
      rewrite (IH _ Hu). now rewrite snoc_append.
    + unfold in_field. rewrite Hcomma, Heol. unfold push. cbn [field record records].
      rewrite (run_unquoted_in_field u _ rec recs Hu). now rewrite snoc_append.
Qed.

(** An unquoted field read at the start of a record. *)
Lemma run_unquoted_first (u : string) (rec : list string) (recs : list (list string)) :
  any_char special u = false -> u <> EmptyString ->
  run (mkTok StartRecord EmptyString rec recs) u =
  mkTok (if any_char not_blank u then InField else WhitespaceLine) u rec recs.
Proof.
  destruct u as [|c u]; [congruence|]. intros H _. simpl.
  simpl in H. apply orb_false_iff in H. destruct H as [Hc Hu].
  destruct (plain_char c Hc) as (Hq & Hcomma & Heol).
  unfold step. cbn [state]. rewrite Heol. unfold not_blank at 1.
  destruct (is_blank c); cbn [negb orb].
  - unfold push. cbn [field record records]. unfold snoc. simpl.
    now rewrite (run_unquoted_whitespace u _ rec recs Hu).
  - unfold start_field. rewrite Hq, Hcomma, Heol. unfold push.
    cbn [field record records]. unfold snoc. simpl.
    now rewrite (run_unquoted_in_field u _ rec recs Hu).
Qed.

(** An unquoted field read after a comma. *)
Lemma run_unquoted_next (u : string) (rec : list string) (recs : list (list string)) :
  any_char special u = false -> u <> EmptyString ->
  run (mkTok StartField EmptyString rec recs) u = mkTok InField u rec recs.
Proof.
  destruct u as [|c u]; [congruence|]. intros H _. simpl.
  simpl in H. apply orb_false_iff in H. destruct H as [Hc Hu].
  destruct (plain_char c Hc) as (Hq & Hcomma & Heol).
  unfold step. cbn [state]. unfold start_field. rewrite Hq, Hcomma, Heol.
  unfold push. cbn [field record records]. unfold snoc. simpl.
  now rewrite (run_unquoted_in_field u _ rec recs Hu).
Qed.

Lemma run_escape (f g : string) (rec : list string) (recs : list (list string)) :
  run (mkTok InQuoted g rec recs) (escape f) = mkTok InQuoted (g ++ f) rec recs.
Proof.
  revert g. induction f as [|c f IH]; intros g; simpl.
  - now rewrite append_nil_r.
  - destruct (Ascii.eqb c dquote) eqn:E.
    + apply Ascii.eqb_eq in E. subst c. simpl.
      unfold step at 2. cbn [state]. rewrite Ascii.eqb_refl.
      unfold in_state. cbn [field record records].
      unfold step at 1. cbn [state]. rewrite Ascii.eqb_refl.
      unfold push. cbn [field record records].
      rewrite IH. now rewrite snoc_append.
    + simpl. unfold step at 1. cbn [state]. rewrite E.
      unfold push. cbn [field record records].
      rewrite IH. now rewrite snoc_append.
Qed.

(** A quoted field, read at the start of a record or after a comma. *)
Lemma run_quoted (st : tstate) (f : string) (rec : list string) (recs : list (list string)) :
  st = StartRecord \/ st = StartField ->
  run (mkTok st EmptyString rec recs) (String dquote (escape f ++ String dquote EmptyString)) =
  mkTok QuoteInQuoted f rec recs.
Proof.
  intros Hst. cbn [run].
  assert (H1 : step (mkTok st EmptyString rec recs) dquote = mkTok InQuoted EmptyString rec recs).
  { destruct Hst; subst st; reflexivity. }
  rewrite H1, run_app, run_escape. simpl. reflexivity.
Qed.

(** A written field followed by a comma is one more field of the
    record, wherever in the record it stands. *)
Lemma field_then_comma (st : tstate) (f rest : string) (rec : list string)
    (recs : list (list string)) :
  st = StartRecord \/ st = StartField ->
  run (mkTok st EmptyString rec recs) (quote_field f ++ String comma rest) =
  run (mkTok StartField EmptyString (f :: rec) recs) rest.
Proof.
  intros Hst. rewrite run_app. cbn [run]. f_equal.
  unfold quote_field. destruct (any_char special f) eqn:Hsp.
  - rewrite (run_quoted st f rec recs Hst). reflexivity.
  - destruct f as [|c f'] eqn:Ef.
    + destruct Hst; subst st; reflexivity.
    + rewrite <- Ef in *. assert (Hne : f <> EmptyString) by (subst f; discriminate).
      destruct Hst; subst st.
      * rewrite (run_unquoted_first f rec recs Hsp Hne).
        destruct (any_char not_blank f); reflexivity.
      * rewrite (run_unquoted_next f rec recs Hsp Hne). reflexivity.
Qed.

(** A written field followed by the line terminator, after a comma,
    closes the record. *)
Lemma field_then_eol (f rest : string) (rec : list string) (recs : list (list string)) :
  run (mkTok StartField EmptyString rec recs) (quote_field f ++ String LF rest) =
  run (mkTok StartRecord EmptyString [] (rev (f :: rec) :: recs)) rest.
Proof.
  rewrite run_app. cbn [run]. f_equal.
  unfold quote_field. destruct (any_char special f) eqn:Hsp.
  - rewrite (run_quoted StartField f rec recs (or_intror eq_refl)). reflexivity.
  - destruct f as [|c f'] eqn:Ef.
    + reflexivity.
    + rewrite <- Ef in *. assert (Hne : f <> EmptyString) by (subst f; discriminate).
      rewrite (run_unquoted_next f rec recs Hsp Hne). reflexivity.
Qed.

(** The fields of a record after the first. *)
Lemma run_join_fields (f : string) (fs : list string) (rest : string)
    (rec : list string) (recs : list (list string)) :
  run (mkTok StartField EmptyString rec recs)
      (join_fields (f :: fs) ++ String LF rest) =
  run (mkTok StartRecord EmptyString [] ((rev rec ++ f :: fs) :: recs)) rest.
Proof.
  revert f rec. induction fs as [|f' fs IH]; intros f rec.
  - cbn [join_fields]. rewrite field_then_eol. reflexivity.
  - change (join_fields (f :: f' :: fs))
      with (quote_field f ++ String comma (join_fields (f' :: fs)))%string.
    rewrite append_assoc. cbn [append].
    rewrite (field_then_comma StartField) by (now right).
    rewrite IH. cbn [rev]. now rewrite <- app_assoc.
Qed.

Lemma run_write_row (fields : list string) (rest : string) (recs : list (list string)) :
  row_ok fields = true ->
  run (mkTok StartRecord EmptyString [] recs) (write_row fields ++ rest) =
  run (mkTok StartRecord EmptyString [] (fields :: recs)) rest.
Proof.
  intros Hok. destruct fields as [|f [|f' fs]]; [discriminate | |].
  - (* a single field *)
    destruct f as [|c f'] eqn:Ef.
    + reflexivity.
    + rewrite <- Ef in *. assert (Hne : f <> EmptyString) by (subst f; discriminate).
      assert (Hw : write_row [f] = (quote_field f ++ String LF EmptyString)%string)
        by (subst f; reflexivity).
      rewrite Hw, append_assoc. cbn [append]. rewrite run_app. cbn [run]. f_equal.
      unfold row_ok in Hok.
      assert (Hs : String.eqb f EmptyString = false) by (now apply String.eqb_neq).
      rewrite Hs in Hok. cbn [orb] in Hok.
      unfold quote_field. destruct (any_char special f) eqn:Hsp.
      * rewrite (run_quoted StartRecord f [] recs (or_introl eq_refl)). reflexivity.
      * cbn [orb] in Hok. rewrite (run_unquoted_first f [] recs Hsp Hne), Hok.
        reflexivity.
  - (* two fields or more *)
    assert (Hw : write_row (f :: f' :: fs) =
                 (quote_field f ++
                  String comma (join_fields (f' :: fs) ++ String LF EmptyString))%string).
    { unfold write_row.
      change (join_fields (f :: f' :: fs))
        with (quote_field f ++ String comma (join_fields (f' :: fs)))%string.
      rewrite append_assoc. cbn [append]. now destruct f. }
    rewrite Hw, append_assoc. cbn [append].
    rewrite (field_then_comma StartRecord) by (now left).
    rewrite append_assoc. cbn [append].
    rewrite run_join_fields. reflexivity.
Qed.

Lemma run_write_rows (rows : list (list string)) (recs : list (list string)) :
  forallb row_ok rows = true ->
  run (mkTok StartRecord EmptyString [] recs) (write_rows rows) =
  mkTok StartRecord EmptyString [] (rev rows ++ recs).
Proof.
  revert recs. induction rows as [|r rows IH]; intros recs H; simpl.
  - reflexivity.
  - simpl in H. apply andb_true_iff in H. destruct H as [Hr Hrows].
    rewrite (run_write_row r _ recs Hr), (IH _ Hrows).
    now rewrite <- app_assoc.
Qed.

(** The tokenizer returns the records the writer was given. *)
Lemma tokenize_write_rows (rows : list (list string)) :
  forallb row_ok rows = true -> tokenize (write_rows rows) = Ok rows.
Proof.
  intros H. unfold tokenize. rewrite (run_write_rows rows [] H).
  unfold finish. cbn [state records]. now rewrite app_nil_r, rev_involutive.
Qed.

(** ** CSV: what type inference makes of written values *)

Lemma any_all_chars (p q : ascii -> bool) (s : string) :
  (forall c, p c = true -> q c = false) ->
  any_char p s = true -> all_chars q s = false.
Proof.
  intros Hpq. induction s as [|c s IH]; simpl; [discriminate|].
  intros H. apply orb_true_iff in H. destruct H as [H|H].
  - now rewrite (Hpq c H).
  - rewrite (IH H). apply andb_false_r.
Qed.

Lemma any_char_lstrip (p : ascii -> bool) (s : string) :
  (forall c, p c = true -> is_space c = false) ->
  any_char p s = true -> any_char p (lstrip s) = true.
Proof.
  intros Hp. induction s as [|c s IH]; simpl; [discriminate|].
  intros H. destruct (is_space c) eqn:Hs; [|exact H].
  apply IH. destruct (p c) eqn:Hpc; [|exact H].
  apply Hp in Hpc. congruence.
Qed.

Lemma any_char_rstrip (p : ascii -> bool) (s : string) :
  (forall c, p c = true -> is_space c = false) ->
  any_char p s = true -> any_char p (rstrip s) = true.
Proof.
  intros Hp. induction s as [|c s IH]; simpl; [discriminate|].
  intros H. destruct (any_char p s) eqn:Hs.
  - specialize (IH eq_refl). destruct (rstrip s) as [|c' r]; [discriminate|].
    simpl. simpl in IH. rewrite IH. apply orb_true_r.
  - rewrite orb_false_r in H. rewrite (Hp c H).
    destruct (rstrip s); simpl; now rewrite H.
Qed.

Lemma any_char_strip (p : ascii -> bool) (s : string) :
  (forall c, p c = true -> is_space c = false) ->
  any_char p s = true -> any_char p (strip s) = true.
Proof.
  intros Hp H. unfold strip. now apply any_char_rstrip, any_char_lstrip.
Qed.

Lemma strip_no_space (s : string) :
  all_chars (fun c => negb (is_space c)) s = true -> strip s = s.
Proof.
  intros H. unfold strip.
  assert (Hl : lstrip s = s).
  { destruct s as [|c s]; [reflexivity|]. simpl in *.
    apply andb_true_iff in H. destruct H as [Hc _].
    apply negb_true_iff in Hc. now rewrite Hc. }
  rewrite Hl. induction s as [|c s IH]; [reflexivity|].
  simpl in H. apply andb_true_iff in H. destruct H as [Hc Hs].
  apply negb_true_iff in Hc.
  assert (Hls : lstrip s = s).
  { destruct s as [|c' s']; [reflexivity|]. simpl in *.
    apply andb_true_iff in Hs. destruct Hs as [Hc' _].
    apply negb_true_iff in Hc'. now rewrite Hc'. }
  simpl. rewrite (IH Hs Hls), Hc. now destruct s.
Qed.

Lemma all_chars_impl (p q : ascii -> bool) (s : string) :
  (forall c, p c = true -> q c = true) ->
  all_chars p s = true -> all_chars q s = true.
Proof.
  intros Hpq. induction s as [|c s IH]; simpl; [reflexivity|].
  intros H. apply andb_true_iff in H. destruct H as [Hc Hs].
  now rewrite (Hpq c Hc), (IH Hs).
Qed.

Lemma all_chars_app (p : ascii -> bool) (a b : string) :
  all_chars p (a ++ b) = all_chars p a && all_chars p b.
Proof.
  induction a as [|c a IH]; simpl; [reflexivity|]. now rewrite IH, andb_assoc.
Qed.

Lemma digit_or_sign_no_space (c : ascii) :
  digit_or_sign c = true -> negb (is_space c) = true.
Proof. destruct c as [[] [] [] [] [] [] [] []]; reflexivity || discriminate. Qed.

Lemma uint_digits (d : Decimal.uint) :
  all_chars digit_or_sign (NilEmpty.string_of_uint d) = true.
Proof. induction d; simpl; try reflexivity; exact IHd. Qed.

Lemma str_int_chars (z : Z) : all_chars digit_or_sign (str_int z) = true.
Proof.
  unfold str_int, NilZero.string_of_int, NilZero.string_of_uint.
  destruct (Z.to_int z) as [d|d]; destruct d; simpl; try reflexivity; apply uint_digits.
Qed.

(** An integer is read back from its text. *)
Lemma parse_int_str_int (z : Z) : parse_int (str_int z) = Some z.
Proof.
  unfold parse_int.
  rewrite strip_no_space
    by (apply (all_chars_impl digit_or_sign);
        [apply digit_or_sign_no_space | apply str_int_chars]).
  fold digit_or_sign. rewrite str_int_chars.
  unfold signed_digits, str_int. rewrite NilZero.isi.
  - now rewrite DecimalZ.of_to.
  - destruct z; simpl; try discriminate.
    intros H. inversion H as [H']. now apply DecimalPos.Unsigned.to_uint_nonnil in H'.
  - destruct z; simpl; try discriminate.
    intros H. inversion H as [H']. now apply DecimalPos.Unsigned.to_uint_nonnil in H'.
Qed.

(** No missing marker reads as an integer, so the text of an integer is
    no missing marker. *)
Lemma str_int_not_na (z : Z) : is_na (str_int z) = false.
Proof.
  destruct (is_na (str_int z)) eqn:E; [|reflexivity].
  unfold is_na in E. apply mem_In in E.
  assert (Hnone : forall t, In t na_values -> parse_int t = None).
  { intros t Ht. simpl in Ht.
    repeat (destruct Ht as [Ht|Ht]; [subst t; reflexivity|]). contradiction. }
  pose proof (parse_int_str_int z) as Hp. rewrite (Hnone _ E) in Hp. discriminate.
Qed.

(** *** Portable tables *)

Lemma forallb_witness {A : Type} (f : A -> bool) (x : A) (l : list A) :
  In x l -> f x = false -> forallb f l = false.
Proof.
  intros Hin Hx. destruct (forallb f l) eqn:E; [|reflexivity].
  rewrite forallb_forall in E. rewrite (E x Hin) in Hx. discriminate.
Qed.

Lemma filter_all {A : Type} (f : A -> bool) (l : list A) :
  forallb f l = true -> filter f l = l.
Proof.
  induction l as [|a l IH]; simpl; [reflexivity|].
  intros H. apply andb_true_iff in H. destruct H as [Ha Hl].
  now rewrite Ha, (IH Hl).
Qed.

(** A column of integers is read back as written. *)
Lemma infer_ints (zs : list Z) :
  zs <> [] ->
  infer_column (map str_int zs) = mkSeries int64 (map (fun z => Num (inject_Z z)) zs).
Proof.
  intros Hne. unfold infer_column.
  assert (Hna : forallb (fun t => negb (is_na t)) (map str_int zs) = true).
  { apply forallb_forall. intros t Ht. apply in_map_iff in Ht.
    destruct Ht as [z [Hz _]]. subst t. now rewrite str_int_not_na. }
  rewrite (filter_all _ _ Hna).
  assert (Hint : forallb (fun t => is_some (parse_int t)) (map str_int zs) = true).
  { apply forallb_forall. intros t Ht. apply in_map_iff in Ht.
    destruct Ht as [z [Hz _]]. subst t. now rewrite parse_int_str_int. }
  rewrite Hint, Nat.eqb_refl.
  destruct zs as [|z zs]; [congruence|]. cbn [map].
  rewrite parse_int_str_int, str_int_not_na. do 2 f_equal.
  rewrite map_map. apply map_ext. intros a.
  now rewrite parse_int_str_int, str_int_not_na.
Qed.

Lemma int_cell_shape (c : cell) :
  int_cell c = true -> c = Num (inject_Z (Qfloor match c with Num q => q | _ => 0 end))
                       /\ exists z, c = Num (inject_Z z).
Proof.
  destruct c as [|[n d]|s]; try discriminate.
  unfold int_cell. cbn [Qden]. intros H. apply Pos.eqb_eq in H. subst d.
  assert (E : Qfloor (n # 1) = n) by (unfold Qfloor; apply Z.div_1_r).
  rewrite E. split; [reflexivity | now exists n].
Qed.

Lemma infer_int_column (vals : list cell) :
  vals <> [] -> forallb int_cell vals = true ->
  infer_column (map (csv_cell int64) vals) = mkSeries int64 vals.
Proof.
  intros Hne Hall.
  set (zs := map (fun c => Qfloor match c with Num q => q | _ => 0 end) vals).
  assert (Htok : map (csv_cell int64) vals = map str_int zs).
  { subst zs. rewrite map_map. apply map_ext_in. intros c Hc.
    rewrite forallb_forall in Hall. specialize (Hall c Hc).
    destruct c as [|q|s]; simpl in *; try discriminate. reflexivity. }
  assert (Hval : map (fun z => Num (inject_Z z)) zs = vals).
  { subst zs. rewrite map_map. rewrite <- (map_id vals) at 2.
    apply map_ext_in. intros c Hc.
    rewrite forallb_forall in Hall. specialize (Hall c Hc).
    symmetry. now apply int_cell_shape. }
  rewrite Htok, infer_ints, Hval; [reflexivity|].
  subst zs. destruct vals; [congruence | discriminate].
Qed.

(** What [textual] gives in the model of the reader. *)
Lemma textual_reads_as_text (t : string) :
  textual t = true ->
  is_na t = false /\ parse_int t = None /\ parse_float t = None
  /\ mem t true_values || mem t false_values = false.
Proof.
  unfold textual. intros H.
  repeat (apply andb_true_iff in H; destruct H as [H ?]).
  assert (Hsp : forall c, negb (numeric_char c || is_space c) = true -> is_space c = false).
  { intros c Hc. apply negb_true_iff, orb_false_iff in Hc. tauto. }
  pose proof (any_char_strip _ t Hsp H) as Hs.
  split; [now apply negb_true_iff|]. split; [|split].
  - assert (Hd : all_chars (fun c => is_digit c || is_sign c) (strip t) = false).
    { apply (any_all_chars _ _ _) with (2 := Hs). intros c Hc.
      apply negb_true_iff, orb_false_iff in Hc. destruct Hc as [Hn _].
      unfold numeric_char in Hn.
      repeat (apply orb_false_iff in Hn; destruct Hn as [Hn ?]).
      apply orb_false_iff. now split. }
    unfold parse_int. now rewrite Hd.
  - assert (Hd : all_chars numeric_char (strip t) = false).
    { apply (any_all_chars _ _ _) with (2 := Hs). intros c Hc.
      apply negb_true_iff, orb_false_iff in Hc. tauto. }
    unfold parse_float. now rewrite Hd.
  - now apply negb_true_iff.
Qed.

(** A column of textual strings and gaps is read back as written. *)
Lemma infer_text_column (vals : list cell) :
  forallb text_cell vals = true -> existsb is_str vals = true ->
  infer_column (map (csv_cell object) vals) = mkSeries object vals.
Proof.
  intros Hall Hex.
  apply existsb_exists in Hex. destruct Hex as [w [Hw Hstr]].
  destruct w as [| |t]; try discriminate. clear Hstr.
  rewrite forallb_forall in Hall.
  destruct (textual_reads_as_text t (Hall _ Hw)) as (Hna & Hint & Hfloat & Hbool).
  unfold infer_column.
  remember (map (csv_cell object) vals) as tokens eqn:Etok.
  remember (filter (fun t => negb (is_na t)) tokens) as present eqn:Epres.
  assert (Hin : In t tokens).
  { subst tokens. apply in_map_iff. now exists (Str t). }
  assert (Hinp : In t present).
  { subst present. apply filter_In. split; [assumption | now rewrite Hna]. }
  assert (H1 : forallb (fun t => is_some (parse_int t)) present = false)
    by (apply (forallb_witness _ t); [assumption | now rewrite Hint]).
  assert (H2 : forallb (fun t => is_some (parse_float t)) present = false)
    by (apply (forallb_witness _ t); [assumption | now rewrite Hfloat]).
  assert (H3 : forallb (fun t => mem t true_values || mem t false_values) tokens = false)
    by (apply (forallb_witness _ t); assumption).
  assert (H4 : map (fun t => if is_na t then NA else Str t) tokens = vals).
  { subst tokens. rewrite map_map. rewrite <- (map_id vals) at 2.
    apply map_ext_in. intros c Hc. specialize (Hall c Hc).
    destruct c as [|q|s]; simpl in *; [reflexivity | discriminate |].
    destruct (textual_reads_as_text s Hall) as (Hs & _). now rewrite Hs. }
  clear Etok Epres.
  destruct tokens as [|t0 toks]; [contradiction|].
  destruct present as [|p0 ps]; [contradiction|].
  now rewrite H1, H2, H3, H4.
Qed.

Lemma series_eta (s : Series) : mkSeries (dtype_of s) (values s) = s.
Proof. now destruct s. Qed.

(** A portable column is read back from its tokens. *)
Lemma infer_portable_column (s : Series) :
  values s <> [] -> portable_column s = true ->
  infer_column (map (csv_cell (dtype_of s)) (values s)) = s.
Proof.
  intros Hne Hp. unfold portable_column in Hp.
  rewrite <- (series_eta s) at 3.
  destruct (dtype_of s); try discriminate.
  - now apply infer_int_column.
  - apply andb_true_iff in Hp. destruct Hp as [Hall Hex].
    now apply infer_text_column.
Qed.

Lemma filter_none {A : Type} (f : A -> bool) (l : list A) :
  (forall a, In a l -> f a = false) -> filter f l = [].
Proof.
  induction l as [|a l IH]; intros H; simpl; [reflexivity|].
  rewrite (H a (or_introl eq_refl)). apply IH. intros b Hb. apply H. now right.
Qed.

(** Unique, non-empty header names are kept as they are. *)
Lemma mangle_plain (names seen : list string) (i : nat) :
  Forall (fun n => n <> EmptyString) names -> NoDup names ->
  (forall n, In n names -> ~ In n seen) ->
  mangle seen i names = names.
Proof.
  revert seen i. induction names as [|n names IH]; intros seen i Hne Hnd Hseen;
    simpl; [reflexivity|].
  inversion Hne as [|? ? Hn Hne']; subst. inversion Hnd as [|? ? Hnot Hnd']; subst.
  apply String.eqb_neq in Hn. rewrite Hn.
  rewrite filter_none.
  - simpl. f_equal. apply IH; try assumption.
    intros m Hm [Hmn|Hms].
    + subst m. contradiction.
    + apply (Hseen m); [now right | assumption].
  - intros a Ha. apply String.eqb_neq. intros ->.
    apply (Hseen a); [now left | assumption].
Qed.

Lemma map_nth_seq {A B : Type} (F : A -> B) (l : list A) (d : A) :
  map (fun i => F (nth i l d)) (seq 0 (List.length l)) = map F l.
Proof.
  induction l as [|a l IH]; [reflexivity|].
  cbn [List.length]. rewrite <- cons_seq, <- seq_shift. cbn [map nth].
  f_equal. rewrite map_map. exact IH.
Qed.

Lemma combine_fst_snd {A B : Type} (l : list (A * B)) :
  combine (map fst l) (map snd l) = l.
Proof. induction l as [|[a b] l IH]; simpl; [reflexivity | now rewrite IH]. Qed.

(** The tokens of column [j] across the written data rows. *)
Lemma column_tokens (df : DataFrame) (j : nat) (c : string * Series) :
  nth_error (columns df) j = Some c ->
  List.length (values (snd c)) = nrows df ->
  map (fun r => nth j r EmptyString) (data_rows df) =
  map (csv_cell (dtype_of (snd c))) (values (snd c)).
Proof.
  intros Hj Hlen. unfold data_rows. rewrite map_map.
  rewrite <- Hlen, <- (map_nth_seq (csv_cell (dtype_of (snd c))) (values (snd c)) NA).
  apply map_ext. intros i.
  set (g := fun c0 : string * Series =>
              csv_cell (dtype_of (snd c0)) (nth i (values (snd c0)) NA)).
  assert (Hlt : (j < List.length (columns df))%nat)
    by (apply nth_error_Some; congruence).
  rewrite (nth_indep _ EmptyString (g c)) by (now rewrite length_map).
  rewrite map_nth. unfold g.
  now rewrite (nth_error_nth _ _ _ Hj).
Qed.

Lemma blank_is_space (c : ascii) : is_blank c = true -> is_space c = true.
Proof. destruct c as [[] [] [] [] [] [] [] []]; reflexivity || discriminate. Qed.

Lemma digits_not_blank (s : string) :
  all_chars digit_or_sign s = true -> s <> EmptyString -> any_char not_blank s = true.
Proof.
  destruct s as [|c s]; [congruence|]. simpl. intros H _.
  apply andb_true_iff in H. destruct H as [Hc _].
  apply digit_or_sign_no_space in Hc. apply negb_true_iff in Hc.
  unfold not_blank. destruct (is_blank c) eqn:Hb; [|reflexivity].
  apply blank_is_space in Hb. congruence.
Qed.

Lemma textual_not_blank (t : string) :
  textual t = true -> any_char not_blank t = true.
Proof.
  unfold textual. intros H.
  repeat (apply andb_true_iff in H; destruct H as [H ?]).
  clear -H. induction t as [|c t IH]; simpl in *; [discriminate|].
  apply orb_true_iff in H. destruct H as [H|H].
  - apply negb_true_iff, orb_false_iff in H. destruct H as [_ Hs].
    unfold not_blank at 1. destruct (is_blank c) eqn:Hb; [|reflexivity].
    apply blank_is_space in Hb. congruence.
  - rewrite (IH H). apply orb_true_r.
Qed.

(** The written form of a cell of a portable column is a record on its
    own. *)
Lemma portable_cell_row_ok (s : Series) (c : cell) :
  portable_column s = true -> In c (values s) ->
  row_ok [csv_cell (dtype_of s) c] = true.
Proof.
  unfold portable_column. intros Hp Hc. unfold row_ok.
  destruct (dtype_of s); try discriminate.
  - rewrite forallb_forall in Hp. specialize (Hp c Hc).
    destruct (int_cell_shape c Hp) as [_ [z Hz]]. subst c.
    assert (E : csv_cell int64 (Num (inject_Z z)) = str_int z).
    { simpl. f_equal. unfold Qfloor, inject_Z. apply Z.div_1_r. }
    rewrite E, digits_not_blank; [now rewrite !orb_true_r | apply str_int_chars |].
    intros H0. pose proof (parse_int_str_int z) as Hp0. rewrite H0 in Hp0. discriminate.
  - apply andb_true_iff in Hp. destruct Hp as [Hall _].
    rewrite forallb_forall in Hall. specialize (Hall c Hc).
    destruct c as [|q|t]; simpl in *; [reflexivity | discriminate |].
    rewrite (textual_not_blank t Hall). now rewrite !orb_true_r.
Qed.

Lemma rows_ok (df : DataFrame) :
  wf_frame df -> portable df = true ->
  forallb row_ok (column_names df :: data_rows df) = true.
Proof.
  intros [_ Hlen] Hp. unfold portable in Hp.
  repeat (apply andb_true_iff in Hp; destruct Hp as [Hp ?]).
  rename H into Hcols, H0 into Hlabels, H1 into Hwidth.
  apply negb_true_iff, Nat.eqb_neq in Hwidth.
  cbn [forallb]. apply andb_true_iff. split.
  - unfold column_names in *.
    destruct (columns df) as [|[n s] [|c2 cs]]; [simpl in Hwidth; congruence | | reflexivity].
    simpl in *. rewrite andb_true_r in Hlabels. unfold plain_label in Hlabels.
    repeat (apply andb_true_iff in Hlabels; destruct Hlabels as [Hlabels ?]).
    rewrite H0. now rewrite !orb_true_r.
  - apply forallb_forall. intros r Hr. unfold data_rows in Hr.
    apply in_map_iff in Hr. destruct Hr as [i [Hr Hi]]. subst r.
    apply in_seq in Hi.
    destruct (columns df) as [|[n s] [|c2 cs]] eqn:Ec;
      [simpl in Hwidth; congruence | | reflexivity].
    cbn [map snd]. simpl in Hcols. rewrite andb_true_r in Hcols.
    apply (portable_cell_row_ok s); [assumption|].
    apply nth_In. inversion Hlen as [|? ? Hs _]; subst. simpl in Hs. lia.
Qed.

(** Reading what was written gives the table back. *)
Lemma read_csv_to_csv (df : DataFrame) :
  wf_frame df -> portable df = true -> read_csv (to_csv df) = Ok df.
Proof.
  intros Hwf Hp. pose proof (rows_ok df Hwf Hp) as Hrows.
  destruct Hwf as [Hnd Hlen]. unfold portable in Hp.
  repeat (apply andb_true_iff in Hp; destruct Hp as [Hp ?]).
  rename H into Hcols, H0 into Hlabels, H1 into Hwidth, Hp into Hn.
  apply Nat.ltb_lt in Hn.
  unfold read_csv, to_csv. rewrite (tokenize_write_rows _ Hrows). cbn [bind].
  assert (Hlong : existsb (fun r => (List.length (column_names df) <? List.length r)%nat)
                    (data_rows df) = false).
  { destruct (existsb _ (data_rows df)) eqn:E; [|reflexivity].
    apply existsb_exists in E. destruct E as [r [Hr Hlt]].
    unfold data_rows in Hr. apply in_map_iff in Hr. destruct Hr as [i [Hr _]].
    subst r. unfold column_names in Hlt. rewrite !length_map in Hlt.
    apply Nat.ltb_lt in Hlt. lia. }
  rewrite Hlong.
  assert (Hnames : mangle [] 0 (column_names df) = column_names df).
  { apply mangle_plain; [|assumption|intros n _ []].
    apply Forall_forall. intros n Hin. rewrite forallb_forall in Hlabels.
    specialize (Hlabels n Hin). unfold plain_label in Hlabels.
    repeat (apply andb_true_iff in Hlabels; destruct Hlabels as [Hlabels ?]).
    apply negb_true_iff in Hlabels. now apply String.eqb_neq. }
  rewrite Hnames.
  assert (Hcolumns :
    map (fun j => infer_column (map (fun r => nth j r EmptyString) (data_rows df)))
        (seq 0 (List.length (column_names df))) = map snd (columns df)).
  { unfold column_names at 1. rewrite length_map.
    rewrite <- (map_nth_seq snd (columns df) (EmptyString, mkSeries object [])).
    apply map_ext_in. intros j Hj. apply in_seq in Hj.
    destruct (nth_error (columns df) j) as [c|] eqn:Ej;
      [|apply nth_error_None in Ej; lia].
    rewrite (nth_error_nth _ _ _ Ej).
    assert (Hin : In c (columns df)) by (eapply nth_error_In; eauto).
    rewrite Forall_forall in Hlen. specialize (Hlen c Hin).
    rewrite (column_tokens df j c Ej Hlen).
    apply infer_portable_column.
    - intros Hnil. rewrite Hnil in Hlen. simpl in Hlen. lia.
    - rewrite forallb_forall in Hcols. now apply Hcols. }
  rewrite Hcolumns. unfold column_names. rewrite combine_fst_snd.
  unfold data_rows. rewrite length_map, length_seq. now destruct df.
Qed.

(** ** C9 *)


(** The file has the comma inside quotes and nothing for the gap. *)
Example owners_file :
  to_csv owners =
  ("balance,owner" ++ String LF
   ("120," ++ String dquote ("Smith, John" ++ String dquote (String LF
   ("-35," ++ String LF
   ("0,Ana" ++ String LF EmptyString))))))%string.
Proof. reflexivity. Qed.



(** * Further properties *)

(** ** [preprocess_data] *)

Lemma frame_eta (df : DataFrame) : mkFrame (nrows df) (columns df) = df.
Proof. now destruct df. Qed.

Lemma filter_keep_all {A : Type} (f : A -> bool) (l : list A) :
  (forall x, In x l -> f x = true) -> filter f l = l.
Proof.
  induction l as [|a l IH]; simpl; intros H; [reflexivity|].
  rewrite (H a) by now left. f_equal. apply IH. intros x Hx. apply H. now right.
Qed.

Lemma filter_comm {A : Type} (f g : A -> bool) (l : list A) :
  filter f (filter g l) = filter g (filter f l).
Proof.
  induction l as [|a l IH]; simpl; [reflexivity|].
  destruct (f a) eqn:Ef, (g a) eqn:Eg; simpl; rewrite ?Ef, ?Eg, IH; reflexivity.
Qed.

Lemma filter_map_fst {A : Type} (p : string -> bool) (l : list (string * A)) :
  filter p (map fst l) = map fst (filter (fun c => p (fst c)) l).
Proof.
  induction l as [|a l IH]; simpl; [reflexivity|].
  destruct (p (fst a)); simpl; now rewrite IH.
Qed.

Lemma drop_nil (df : DataFrame) : drop [] df = df.
Proof.
  unfold drop. rewrite filter_keep_all by reflexivity. apply frame_eta.
Qed.

Lemma list_remove_filter (x : string) (l : list string) :
  NoDup l -> list_remove x l = filter (fun y => negb (String.eqb x y)) l.
Proof.
  induction l as [|y l IH]; simpl; intros Hnd; [reflexivity|].
  inversion Hnd as [|? ? Hnot Hnd']; subst.
  destruct (String.eqb_spec x y) as [->|Hne]; simpl.
  - symmetry. apply filter_keep_all. intros z Hz.
    apply negb_true_iff. apply String.eqb_neq. intros ->. contradiction.
  - now rewrite IH.
Qed.

(** The lists [preprocess_data] holds once the target is out. *)
Lemma target_removed (df : DataFrame) (target : option string) :
  NoDup (column_names df) ->
  (match target with
   | Some t =>
       if truthy target && mem t (select_dtypes [int64; float64] df)
       then (list_remove t (select_dtypes [int64; float64] df),
             select_dtypes [object; category] df)
       else if truthy target && mem t (select_dtypes [object; category] df)
       then (select_dtypes [int64; float64] df,
             list_remove t (select_dtypes [object; category] df))
       else (select_dtypes [int64; float64] df, select_dtypes [object; category] df)
   | None => (select_dtypes [int64; float64] df, select_dtypes [object; category] df)
   end) = (features_of [int64; float64] target df, features_of [object; category] target df).
Proof.
  intros Hnd. unfold features_of.
  set (num0 := select_dtypes [int64; float64] df).
  set (cat0 := select_dtypes [object; category] df).
  assert (Hn0 : NoDup num0) by now apply select_dtypes_NoDup.
  assert (Hc0 : NoDup cat0) by now apply select_dtypes_NoDup.
  assert (Hdis : forall n, In n num0 -> ~ In n cat0)
    by (intros n; now apply numeric_categorical_disjoint).
  assert (Hout : forall t l, ~ In t l ->
            filter (fun name => negb (true && String.eqb t name)) l = l).
  { intros t l Hl. apply filter_keep_all. intros z Hz. simpl.
    apply negb_true_iff. apply String.eqb_neq. intros ->. contradiction. }
  destruct target as [t|]; [|now rewrite !filter_keep_all by reflexivity].
  unfold is_target. destruct (truthy (Some t)) eqn:Et; cbn [andb].
  - destruct (mem t num0) eqn:En.
    + rewrite list_remove_filter by assumption. f_equal.
      symmetry. apply (Hout t). apply Hdis. now apply mem_In.
    + apply mem_false in En. destruct (mem t cat0) eqn:Ec.
      * rewrite list_remove_filter by assumption. f_equal.
        symmetry. now apply (Hout t).
      * apply mem_false in Ec. f_equal; symmetry; now apply (Hout t).
  - now rewrite !filter_keep_all by reflexivity.
Qed.

Lemma mem_column_names_drop (labels : list string) (df : DataFrame) (n : string) :
  In n (column_names df) ->
  mem n (column_names (drop labels df)) = negb (mem n labels).
Proof.
  intros Hin. unfold column_names, drop. cbn [columns].
  destruct (mem n labels) eqn:E; simpl.
  - apply mem_false. intros H. apply in_map_iff in H.
    destruct H as [c [Hc Hf]]. apply filter_In in Hf. subst n.
    destruct Hf as [_ Hf]. rewrite E in Hf. discriminate.
  - apply mem_In. apply in_map_iff in Hin. destruct Hin as [c [Hc Hin]].
    apply in_map_iff. exists c. split; [assumption|].
    apply filter_In. split; [assumption|]. subst n. now rewrite E.
Qed.

Lemma select_dtypes_drop (inc : list dtype) (labels : list string) (df : DataFrame) :
  select_dtypes inc (drop labels df) =
  filter (fun n => mem n (column_names (drop labels df))) (select_dtypes inc df).
Proof.
  unfold select_dtypes at 1. unfold drop at 1. cbn [columns].
  rewrite filter_comm, <- (filter_map_fst (fun n => negb (mem n labels))).
  fold (select_dtypes inc df).
  apply filter_ext_in. intros n Hn. symmetry. apply mem_column_names_drop.
  apply select_dtypes_In in Hn. destruct Hn as [s [Hs _]].
  apply in_map_iff. now exists (n, s).
Qed.

Lemma select_dtypes_names (inc : list dtype) (df : DataFrame) (n : string) :
  In n (select_dtypes inc df) -> In n (column_names df).
Proof.
  intros Hn. apply select_dtypes_In in Hn. destruct Hn as [s [Hs _]].
  apply in_map_iff. now exists (n, s).
Qed.

Lemma preprocess_data_features
    (df : DataFrame) (target_column : option string)
    (drop_high_missing : bool) (missing_threshold : Q)
    (Hlabels : NoDup (column_names df)) :
  let out := preprocess_data df target_column drop_high_missing missing_threshold in
  snd (fst out) = features_of [int64; float64] target_column (fst (fst out))
  /\ snd out = features_of [object; category] target_column (fst (fst out)).
Proof.
  unfold preprocess_data. rewrite (target_removed df target_column Hlabels).
  destruct drop_high_missing; cbn [fst snd]; [|split; reflexivity].
  unfold features_of. rewrite !select_dtypes_drop. split; apply filter_comm.
Qed.

(** X1. The feature lists [preprocess_data] returns describe the frame it
    returns: they are that frame's numeric columns and its text columns,
    in the frame's column order, without the target. *)
Theorem preprocess_data_lists_describe_frame
    (df : DataFrame) (target_column : option string)
    (drop_high_missing : bool) (missing_threshold : Q)
    (Hlabels : NoDup (column_names df)) :
  let out := preprocess_data df target_column drop_high_missing missing_threshold in
  snd (fst out) = features_of [int64; float64] target_column (fst (fst out))
  /\ snd out = features_of [object; category] target_column (fst (fst out)).
Proof.
  exact (preprocess_data_features df target_column drop_high_missing missing_threshold
           Hlabels).
Qed.

(** X1 on the housing table with [SalePrice] as target. *)
Lemma preprocess_data_lists_describe_frame_witness :
  NoDup (column_names housing) /\
  snd (fst (preprocess_data housing (Some "SalePrice") true (8 # 10))) = ["LotArea"].
Proof.
  split; [exact (proj1 housing_wf)|].
  destruct (preprocess_data_lists_describe_frame housing (Some "SalePrice") true (8 # 10)
              (proj1 housing_wf)) as [Hnum _].
  rewrite Hnum. reflexivity.
Defined.

Lemma null_count_le (s : Series) : (null_count s <= List.length (values s))%nat.
Proof. unfold null_count. apply filter_length_le. Qed.

Lemma ratio_le_1 (k n : nat) (q : Q) : (k <= n)%nat -> ratio k n = Some q -> q <= 1.
Proof.
  intros Hk Hq. destruct n as [|n]; [discriminate|].
  assert (Hp : Z.pos (Pos.of_nat (S n)) = Z.of_nat (S n))
    by (rewrite <- (positive_nat_Z (Pos.of_nat (S n))), Nat2Pos.id by lia; reflexivity).
  unfold ratio in Hq. injection Hq as <-.
  unfold Qle. cbn [Qnum Qden].
  change (Z.of_nat k * 1 <= 1 * Z.pos (Pos.of_nat (S n)))%Z. rewrite Hp. lia.
Qed.

Lemma ratio_nonneg (k n : nat) (q : Q) : ratio k n = Some q -> 0 <= q.
Proof.
  intros Hq. destruct n as [|n]; [discriminate|].
  unfold ratio in Hq. injection Hq as <-.
  unfold Qle. cbn [Qnum Qden]. lia.
Qed.

Lemma float_gt_false (x : float) (t : Q) :
  float_gt x t = false <-> (forall q, x = Some q -> q <= t).
Proof.
  unfold float_gt. destruct x as [q|].
  - rewrite negb_false_iff, Qle_bool_iff. split.
    + intros H q' Hq'. now inversion Hq'; subst.
    + intros H. now apply H.
  - split; [intros _ q Hq; discriminate | reflexivity].
Qed.

(** Nothing is dropped when no column's fraction exceeds the threshold. *)
Lemma preprocess_data_nothing_to_drop
    (df : DataFrame) (target : option string) (t : Q) :
  NoDup (column_names df) ->
  (forall c, In c (columns df) -> float_gt (missing_fraction df (snd c)) t = false) ->
  preprocess_data df target true t = preprocess_data df target false t.
Proof.
  intros Hnd Hlow. unfold preprocess_data.
  rewrite (target_removed df target Hnd).
  assert (Hnone : map fst (filter (fun m => float_gt (snd m) t) (missing_values df)) = []).
  { rewrite filter_none; [reflexivity|]. intros m Hm.
    unfold missing_values in Hm. apply in_map_iff in Hm.
    destruct Hm as [c [<- Hc]]. now apply Hlow. }
  rewrite Hnone, drop_nil. f_equal; [f_equal|].
  - apply filter_keep_all. intros n Hn. apply filter_In in Hn. apply mem_In.
    eapply select_dtypes_names. apply Hn.
  - apply filter_keep_all. intros n Hn. apply filter_In in Hn. apply mem_In.
    eapply select_dtypes_names. apply Hn.
Qed.

(** X2. Dropping by missing fraction does nothing to a table without
    rows, whose fractions are all NaN, and nothing under a threshold of
    1 or more: the call returns what it returns with
    [drop_high_missing=False]. *)
Theorem preprocess_data_drop_is_noop
    (df : DataFrame) (target_column : option string) (missing_threshold : Q)
    (Hwf : wf_frame df)
    (Hedge : nrows df = 0%nat \/ 1 <= missing_threshold) :
  preprocess_data df target_column true missing_threshold =
  preprocess_data df target_column false missing_threshold
  /\ fst (fst (preprocess_data df target_column true missing_threshold)) = df.
Proof.
  destruct Hwf as [Hnd Hlen].
  assert (E : preprocess_data df target_column true missing_threshold =
              preprocess_data df target_column false missing_threshold).
  { apply preprocess_data_nothing_to_drop; [assumption|].
    intros c Hc. apply float_gt_false. intros q Hq. unfold missing_fraction in Hq.
    destruct Hedge as [H0|H1].
    - rewrite H0 in Hq. discriminate.
    - apply Qle_trans with 1; [|assumption].
      apply (ratio_le_1 _ _ _ (null_count_le (snd c))).
      rewrite Forall_forall in Hlen. now rewrite (Hlen c Hc). }
  split; [exact E|]. rewrite E. unfold preprocess_data.
  now destruct (match target_column with Some _ => _ | None => _ end).
Qed.

(** A table without rows keeps its columns. *)
Lemma preprocess_data_drop_is_noop_witness :
  wf_frame no_rows /\ (nrows no_rows = 0%nat \/ 1 <= 0) /\
  fst (fst (preprocess_data no_rows None true 0)) = no_rows.
Proof.
  assert (Hwf : wf_frame no_rows).
  { split; [repeat constructor; simpl; intuition discriminate | repeat constructor]. }
  split; [exact Hwf|]. split; [now left|].
  exact (proj2 (preprocess_data_drop_is_noop no_rows None 0 Hwf (or_introl eq_refl))).
Defined.

(** X3. Under a negative threshold every column of a table with rows is
    dropped, the target included, and both feature lists are empty. *)
Theorem preprocess_data_negative_threshold_drops_all
    (df : DataFrame) (target_column : option string) (missing_threshold : Q)
    (Hrows : (0 < nrows df)%nat) (Hneg : missing_threshold < 0) :
  preprocess_data df target_column true missing_threshold =
  (mkFrame (nrows df) [], [], []).
Proof.
  unfold preprocess_data.
  destruct (match target_column with Some _ => _ | None => _ end) as [nf cf].
  set (L := map fst (filter _ (missing_values df))).
  assert (Hall : forall c, In c (columns df) -> mem (fst c) L = true).
  { intros c Hc. apply mem_In. subst L. apply in_map_iff.
    exists (fst c, ratio (null_count (snd c)) (nrows df)). split; [reflexivity|].
    apply filter_In. split.
    - unfold missing_values. apply in_map_iff. now exists c.
    - cbn [snd]. apply float_gt_spec.
      destruct (nrows df) as [|n] eqn:En; [lia|].
      eexists. split; [reflexivity|].
      apply Qlt_le_trans with 0; [assumption|].
      unfold Qle. cbn [Qnum Qden]. lia. }
  assert (Hd : drop L df = mkFrame (nrows df) []).
  { unfold drop. f_equal. apply filter_none. intros c Hc.
    now rewrite (Hall c Hc). }
  rewrite Hd. cbn [column_names columns map mem existsb].
  now rewrite !filter_none by reflexivity.
Qed.

(** X3 on the housing table with the threshold -1. *)
Lemma preprocess_data_negative_threshold_drops_all_witness :
  (0 < nrows housing)%nat /\ -1 < 0 /\
  preprocess_data housing (Some "SalePrice") true (-1) = (mkFrame 5 [], [], []).
Proof.
  split; [simpl; lia|]. split; [reflexivity|].
  apply (preprocess_data_negative_threshold_drops_all housing (Some "SalePrice") (-1));
    [simpl; lia | reflexivity].
Defined.

Lemma preprocess_data_wf (df : DataFrame) (target : option string) (d : bool) (t : Q) :
  wf_frame df -> wf_frame (fst (fst (preprocess_data df target d t))).
Proof.
  intros [Hnd Hlen]. unfold preprocess_data.
  destruct (match target with Some _ => _ | None => _ end) as [nf cf].
  destruct d; cbn [fst]; [|now split].
  unfold drop, wf_frame, column_names. cbn [columns nrows]. split.
  - rewrite <- filter_map_fst with (p := fun n => negb (mem n _)).
    now apply NoDup_filter.
  - apply Forall_forall. intros c Hc. apply filter_In in Hc.
    rewrite Forall_forall in Hlen. now apply Hlen.
Qed.

(** X4. [preprocess_data] is idempotent: run on the frame it returned,
    with the same arguments, it returns that frame and the same lists. *)
Theorem preprocess_data_idempotent
    (df : DataFrame) (target_column : option string)
    (drop_high_missing : bool) (missing_threshold : Q)
    (Hwf : wf_frame df) :
  let out := preprocess_data df target_column drop_high_missing missing_threshold in
  preprocess_data (fst (fst out)) target_column drop_high_missing missing_threshold = out.
Proof.
  intros out.
  pose proof (preprocess_data_wf df target_column drop_high_missing missing_threshold Hwf)
    as Hwf'. fold out in Hwf'.
  destruct (preprocess_data_features df target_column drop_high_missing
              missing_threshold (proj1 Hwf)) as [Hn Hc].
  fold out in Hn, Hc.
  assert (Hfalse : preprocess_data (fst (fst out)) target_column false missing_threshold = out).
  { unfold preprocess_data at 1. rewrite (target_removed _ target_column (proj1 Hwf')).
    rewrite <- Hn, <- Hc. now destruct out as [[a b] c]. }
  destruct drop_high_missing; [|exact Hfalse].
  rewrite preprocess_data_nothing_to_drop; [exact Hfalse | exact (proj1 Hwf') |].
  intros c Hc'. subst out.
  rewrite (preprocess_data_columns df target_column missing_threshold (proj1 Hwf)) in Hc'.
  apply filter_In in Hc'. destruct Hc' as [_ Hkeep].
  apply negb_true_iff in Hkeep.
  unfold missing_fraction in *. unfold preprocess_data.
  destruct (match target_column with Some _ => _ | None => _ end) as [nf cf].
  exact Hkeep.
Qed.

(** X4 on the housing table with the default threshold. *)
Lemma preprocess_data_idempotent_witness :
  wf_frame housing /\
  preprocess_data (fst (fst (preprocess_data housing (Some "SalePrice") true (8 # 10))))
    (Some "SalePrice") true (8 # 10)
  = preprocess_data housing (Some "SalePrice") true (8 # 10).
Proof.
  split; [exact housing_wf|].
  exact (preprocess_data_idempotent housing (Some "SalePrice") true (8 # 10) housing_wf).
Defined.

(** ** [preencher_valores_numericos] *)

Lemma dispatch_statistic (estrategia : string) (constante : Q) (s : Series) (h : heap) :
  (if String.eqb estrategia "media" then lift (Pandas.mean s)
   else if String.eqb estrategia "mediana" then lift (Pandas.median s)
   else if String.eqb estrategia "moda" then lift (mode0 s)
   else if String.eqb estrategia "constante" then ret (Num constante)
   else raise DataProcessing.invalid_strategy) h
  = (statistic estrategia constante s, h).
Proof.
  unfold statistic.
  destruct (String.eqb estrategia "media"); [reflexivity|].
  destruct (String.eqb estrategia "mediana"); [reflexivity|].
  destruct (String.eqb estrategia "moda"); [reflexivity|].
  destruct (String.eqb estrategia "constante"); reflexivity.
Qed.

(** The loop body of either file is one [fill_turn] on the copy. *)
Lemma fill_column_turn (h : heap) (d : DataFrame) (estrategia : string)
    (valor_constante : Q) (col : string) :
  DataProcessing.fill_column (List.length h) estrategia valor_constante col (h ++ [d]) =
    (fst (fill_turn estrategia valor_constante (fun _ => Ok tt) d col),
     h ++ [snd (fill_turn estrategia valor_constante (fun _ => Ok tt) d col)])
  /\ Uteis.fill_column (List.length h) estrategia col (h ++ [d]) =
    (fst (fill_turn estrategia 0 Uteis.format_2f d col),
     h ++ [snd (fill_turn estrategia 0 Uteis.format_2f d col)]).
Proof.
  unfold DataProcessing.fill_column, Uteis.fill_column, fill_turn, bindM, load_col, getitem.
  rewrite deref_new.
  destruct (lookup_col col (columns d)) as [s|] eqn:Hs; [|split; reflexivity].
  destruct (has_null s); [|split; reflexivity].
  change Uteis.invalid_strategy with DataProcessing.invalid_strategy.
  rewrite !dispatch_statistic.
  split.
  - destruct (statistic estrategia valor_constante s) as [v|e]; [|reflexivity].
    rewrite deref_new, Hs. unfold store_col. now rewrite deref_new, update_new.
  - destruct (statistic estrategia 0 s) as [v|e]; [|reflexivity].
    rewrite deref_new, Hs. unfold store_col, lift. now rewrite deref_new, update_new.
Qed.

Lemma for_each_turns (h : heap) (estrategia : string) (valor_constante : Q)
    (cols : list string) (d : DataFrame) :
  for_each cols (DataProcessing.fill_column (List.length h) estrategia valor_constante)
      (h ++ [d]) =
    (fst (fill_turns estrategia valor_constante (fun _ => Ok tt) d cols),
     h ++ [snd (fill_turns estrategia valor_constante (fun _ => Ok tt) d cols)])
  /\ for_each cols (Uteis.fill_column (List.length h) estrategia) (h ++ [d]) =
    (fst (fill_turns estrategia 0 Uteis.format_2f d cols),
     h ++ [snd (fill_turns estrategia 0 Uteis.format_2f d cols)]).
Proof.
  revert d. induction cols as [|col cols IH]; intros d; [split; reflexivity|].
  cbn [for_each fill_turns]. unfold bindM.
  destruct (fill_column_turn h d estrategia valor_constante col) as [F1 F2].
  rewrite F1, F2. split.
  - destruct (fill_turn estrategia valor_constante (fun _ => Ok tt) d col) as [[u|e] d'];
      cbn [fst snd]; [apply IH | reflexivity].
  - destruct (fill_turn estrategia 0 Uteis.format_2f d col) as [[u|e] d'];
      cbn [fst snd]; [apply IH | reflexivity].
Qed.

(** Both functions, as runs of [fill_turns] on a copy of the input. *)
Lemma preencher_as_turns (h : heap) (df : ref) (colunas : option (list string))
    (estrategia : string) (valor_constante : Q) :
  let d := deref h df in
  let targets := fill_targets colunas d in
  DataProcessing.preencher_valores_numericos df colunas estrategia valor_constante h =
    (let r := fill_turns estrategia valor_constante (fun _ => Ok tt) d targets in
     (match fst r with Ok _ => Ok (List.length h) | Raise e => Raise e end, h ++ [snd r]))
  /\ Uteis.preencher_valores_numericos df estrategia colunas h =
    (let r := fill_turns estrategia 0 Uteis.format_2f d targets in
     (match fst r with Ok _ => Ok (List.length h) | Raise e => Raise e end, h ++ [snd r])).
Proof.
  intros d targets.
  destruct (for_each_turns h estrategia valor_constante targets d) as [F1 F2].
  assert (Ht : forall h0, h0 = h ++ [d] ->
            match colunas with
            | Some l => ret l
            | None => fun h1 => (Ok (select_dtypes np_number (deref h1 (List.length h))), h1)
            end h0 = (Ok targets, h0)).
  { intros h0 ->. subst targets. unfold fill_targets.
    destruct colunas; [reflexivity | now rewrite deref_new]. }
  split.
  - unfold DataProcessing.preencher_valores_numericos, bindM, copy. fold d.
    rewrite (Ht _ eq_refl), F1. cbn zeta.
    destruct (fill_turns estrategia valor_constante (fun _ => Ok tt) d targets)
      as [[u|e] d']; reflexivity.
  - unfold Uteis.preencher_valores_numericos, bindM, copy. fold d.
    rewrite (Ht _ eq_refl), F2. cbn zeta.
    destruct (fill_turns estrategia 0 Uteis.format_2f d targets)
      as [[u|e] d']; reflexivity.
Qed.

(** X5. [preencher_valores_numericos], in either file and whatever its
    arguments, writes to no table the caller holds: every object of the
    store is after the call what it was before, also when the call
    raises, and a table it returns is a new object. *)
Theorem preencher_valores_numericos_writes_only_its_copy
    (h : heap) (df : ref) (colunas : option (list string))
    (estrategia : string) (valor_constante : Q) :
  let run1 := DataProcessing.preencher_valores_numericos df colunas estrategia valor_constante h in
  let run2 := Uteis.preencher_valores_numericos df estrategia colunas h in
  (forall r, (r < List.length h)%nat ->
     deref (snd run1) r = deref h r /\ deref (snd run2) r = deref h r)
  /\ (forall out, fst run1 = Ok out \/ fst run2 = Ok out -> out = List.length h)
  /\ List.length (snd run1) = S (List.length h)
  /\ List.length (snd run2) = S (List.length h).
Proof.
  destruct (preencher_as_turns h df colunas estrategia valor_constante) as [E1 E2].
  cbn zeta in *. rewrite E1, E2. cbn [fst snd].
  split; [|split; [|split]].
  - intros r Hr. split; now apply deref_old.
  - intros out [H|H].
    + destruct (fill_turns estrategia valor_constante (fun _ => Ok tt) _ _) as [[u|e] d'];
        cbn [fst] in H; [congruence | discriminate].
    + destruct (fill_turns estrategia 0 Uteis.format_2f _ _) as [[u|e] d'];
        cbn [fst] in H; [congruence | discriminate].
  - rewrite length_app. simpl. lia.
  - rewrite length_app. simpl. lia.
Qed.

(** *** Column statistics *)

Lemma insert_level_incl (x y : cell) (l : list cell) :
  In y (insert_level x l) -> y = x \/ In y l.
Proof.
  induction l as [|a l IH]; simpl; [intuition|].
  destruct (cell_eqb x a); [simpl; intuition|].
  destruct (cell_ltb x a); simpl; intuition.
Qed.

Lemma sort_unique_incl (y : cell) (l : list cell) : In y (sort_unique l) -> In y l.
Proof.
  unfold sort_unique. induction l as [|a l IH]; simpl; [easy|].
  intros H. apply insert_level_incl in H. intuition.
Qed.

Lemma insert_level_nonempty (x : cell) (l : list cell) : insert_level x l <> [].
Proof.
  destruct l as [|a l]; simpl; [discriminate|].
  destruct (cell_eqb x a); [discriminate|]. destruct (cell_ltb x a); discriminate.
Qed.

Lemma sort_unique_nonempty (l : list cell) : l <> [] -> sort_unique l <> [].
Proof.
  destruct l as [|a l]; [congruence|]. intros _. apply insert_level_nonempty.
Qed.

Lemma all_null_filter (l : list cell) :
  forallb isnull l = true -> filter notnull l = [].
Proof.
  intros H. apply filter_none. intros c Hc. unfold notnull.
  rewrite forallb_forall in H. now rewrite (H c Hc).
Qed.

Lemma not_all_null_filter (l : list cell) :
  forallb isnull l = false -> filter notnull l <> [].
Proof.
  induction l as [|a l IH]; simpl; [discriminate|].
  unfold notnull at 1. destruct (isnull a); simpl; [exact IH | discriminate].
Qed.

(** [mode()[0]] is a value of the column; a column without values has
    none. *)
Lemma mode0_spec (s : Series) :
  if forallb isnull (values s)
  then mode0 s = Raise (KeyError "0")
  else exists v, mode0 s = Ok v /\ In v (values s) /\ isnull v = false.
Proof.
  unfold mode0, mode.
  set (present := filter notnull (values s)).
  set (levels := sort_unique present).
  set (best := fold_right Nat.max O (map (fun v => count_cell v present) levels)).
  destruct (forallb isnull (values s)) eqn:E.
  - subst levels present. now rewrite (all_null_filter _ E).
  - assert (Hl : levels <> [])
      by (apply sort_unique_nonempty; now apply not_all_null_filter).
    destruct (max_attained (fun v => count_cell v present) levels Hl) as [x [Hx Hfx]].
    fold best in Hfx.
    assert (Hcx : In x (filter (fun v => (count_cell v present =? best)%nat) levels)).
    { apply filter_In. split; [assumption|]. now apply Nat.eqb_eq. }
    destruct (filter (fun v => (count_cell v present =? best)%nat) levels)
      as [|c cs] eqn:Ec; [contradiction|].
    exists c. split; [reflexivity|].
    assert (Hc : In c levels).
    { assert (In c (c :: cs)) by now left. rewrite <- Ec in H.
      now apply filter_In in H. }
    apply sort_unique_incl in Hc. apply filter_In in Hc.
    destruct Hc as [Hc Hn]. split; [assumption|].
    unfold notnull in Hn. now apply negb_true_iff in Hn.
Qed.


Lemma numbers_no_text (l : list cell) :
  forallb (fun c => negb (is_str c)) l = true -> exists qs, numbers l = Ok qs.
Proof.
  induction l as [|c l IH]; simpl; intros H; [now exists []|].
  apply andb_true_iff in H. destruct H as [Hc Hl].
  destruct (IH Hl) as [qs Hqs]. destruct c as [|q|t]; simpl in *.
  - now exists qs.
  - rewrite Hqs. simpl. now exists (q :: qs).
  - discriminate.
Qed.





(** *** The loop on the copy *)

Lemma lookup_set_col_same (col : string) (s : Series) (cs : list (string * Series)) :
  lookup_col col (set_col col s cs) = Some s.
Proof.
  induction cs as [|[n x] cs IH]; simpl.
  - now rewrite String.eqb_refl.
  - destruct (String.eqb col n) eqn:E; simpl; now rewrite E.
Qed.

Lemma lookup_set_col_other (col col' : string) (s : Series) (cs : list (string * Series)) :
  col' <> col -> lookup_col col' (set_col col s cs) = lookup_col col' cs.
Proof.
  intros Hne. induction cs as [|[n x] cs IH]; simpl.
  - apply String.eqb_neq in Hne. now rewrite Hne.
  - destruct (String.eqb_spec col n) as [->|E]; simpl.
    + apply String.eqb_neq in Hne. now rewrite Hne.
    + now rewrite IH.
Qed.

Lemma names_set_col (col : string) (s x : Series) (cs : list (string * Series)) :
  lookup_col col cs = Some x -> map fst (set_col col s cs) = map fst cs.
Proof.
  induction cs as [|[n y] cs IH]; simpl; [discriminate|].
  destruct (String.eqb col n); simpl; [reflexivity|].
  intros H. now rewrite IH.
Qed.

Lemma isnull_NA (c : cell) : isnull c = true -> c = NA.
Proof. now destruct c. Qed.

Lemma fillna_NA (s : Series) : fillna NA s = s.
Proof.
  unfold fillna. rewrite <- (series_eta s) at 3. f_equal.
  rewrite <- (map_id (values s)) at 2. apply map_ext.
  intros c. destruct c; reflexivity.
Qed.

Lemma has_null_fillna (v : cell) (s : Series) :
  has_null (fillna v s) = has_null s && isnull v.
Proof.
  unfold has_null, fillna. cbn [values].
  induction (values s) as [|c l IH]; simpl; [reflexivity|].
  rewrite IH. destruct c; simpl; [|reflexivity|reflexivity].
  destruct (isnull v); simpl; [reflexivity|].
  now rewrite andb_false_r.
Qed.

Lemma mem_app_one (c col : string) (done : list string) :
  mem c (done ++ [col]) = mem c done || String.eqb c col.
Proof. unfold mem. rewrite existsb_app. simpl. now rewrite orb_false_r. Qed.

(** A turn that does not raise keeps the table a filled version of the
    original, now with the turn's column among those filled. *)
Lemma fill_turn_keeps (estrategia : string) (constante : Q) (report : cell -> result unit)
    (done : list string) (d0 d d' : DataFrame) (col : string) (u : unit) :
  gaps_filled estrategia constante done d0 d ->
  fill_turn estrategia constante report d col = (Ok u, d') ->
  gaps_filled estrategia constante (done ++ [col]) d0 d'.
Proof.
  intros (Hrows & Hnames & Hcols) Hturn. unfold fill_turn in Hturn.
  destruct (lookup_col col (columns d)) as [s1|] eqn:Hs1; [|discriminate].
  destruct (has_null s1) eqn:Hgap.
  - destruct (statistic estrategia constante s1) as [v2|e] eqn:Hst; [|discriminate].
    inversion Hturn as [[Hrep Hd']]. clear Hturn.
    split; [exact Hrows|]. split.
    { unfold column_names. cbn [columns].
      rewrite (names_set_col col _ s1 _ Hs1). exact Hnames. }
    intros c s Hs. specialize (Hcols c s Hs). rewrite mem_app_one. cbn [columns].
    destruct (String.eqb_spec c col) as [->|Hne].
    + rewrite orb_true_r, lookup_set_col_same. cbn [andb].
      destruct (mem col done && has_null s) eqn:Hd.
      * destruct Hcols as [v [Hv Hl]]. rewrite Hs1 in Hl. inversion Hl; subst s1.
        rewrite has_null_fillna in Hgap. apply andb_true_iff in Hgap.
        destruct Hgap as [Hg Hv0]. apply isnull_NA in Hv0. subst v.
        rewrite fillna_NA in Hst. rewrite Hg. exists v2.
        split; [assumption|]. now rewrite fillna_NA.
      * rewrite Hs1 in Hcols. inversion Hcols; subst s1. rewrite Hgap.
        exists v2. now split.
    + rewrite orb_false_r. rewrite lookup_set_col_other by assumption. exact Hcols.
  - inversion Hturn; subst d'. split; [exact Hrows|]. split; [exact Hnames|].
    intros c s Hs. specialize (Hcols c s Hs). rewrite mem_app_one.
    destruct (String.eqb_spec c col) as [->|Hne].
    + rewrite orb_true_r. cbn [andb].
      destruct (mem col done && has_null s) eqn:Hd.
      * destruct Hcols as [v [Hv Hl]].
        apply andb_true_iff in Hd. destruct Hd as [_ Hg]. rewrite Hg.
        exists v. now split.
      * rewrite Hs1 in Hcols. inversion Hcols; subst s1. now rewrite Hgap.
    + now rewrite orb_false_r.
Qed.

Lemma fill_turns_keep (estrategia : string) (constante : Q) (report : cell -> result unit)
    (cols done : list string) (d0 d d' : DataFrame) (u : unit) :
  gaps_filled estrategia constante done d0 d ->
  fill_turns estrategia constante report d cols = (Ok u, d') ->
  gaps_filled estrategia constante (done ++ cols) d0 d'.
Proof.
  revert done d. induction cols as [|col cols IH]; intros done d Hinv Hrun.
  - simpl in Hrun. inversion Hrun; subst d'. now rewrite app_nil_r.
  - cbn [fill_turns] in Hrun.
    destruct (fill_turn estrategia constante report d col) as [[u1|e] d1] eqn:Ht;
      [|discriminate].
    replace (done ++ col :: cols) with ((done ++ [col]) ++ cols)
      by (rewrite <- app_assoc; reflexivity).
    apply (IH _ d1); [|assumption].
    eapply fill_turn_keeps; eassumption.
Qed.

Lemma gaps_filled_start (estrategia : string) (constante : Q) (d : DataFrame) :
  gaps_filled estrategia constante [] d d.
Proof. split; [reflexivity|]. split; [reflexivity|]. intros col s Hs. exact Hs. Qed.




Lemma all_missing_spec (s : Series) :
  all_missing s = true <-> has_null s = true /\ forallb isnull (values s) = true.
Proof.
  unfold all_missing, has_null. destruct (values s) as [|c l]; simpl.
  - split; [discriminate | intros [H _]; discriminate].
  - split.
    + intros H. apply andb_true_iff in H. destruct H as [Hc Hl].
      rewrite Hc, Hl. now split.
    + intros [_ H]. exact H.
Qed.

Lemma mem_true_In (x : string) (l : list string) : In x l -> mem x l = true.
Proof. apply mem_In. Qed.




(** *** The two files side by side *)







Lemma text_value (l : list cell) (v : cell) :
  text l -> In v l -> isnull v = false -> exists t, v = Str t.
Proof.
  unfold text. rewrite Forall_forall. intros Ht Hin Hn.
  specialize (Ht v Hin). destruct v as [|q|t]; try discriminate. now exists t.
Qed.

(** X9. They differ on text: asked to fill the gaps of one text column that has
    a value with its mode, the function of [data_processing.py] returns
    the filled table, and the one of [uteis] raises, because its report
    formats the fill value as a number. *)
Theorem preencher_valores_numericos_moda_on_text
    (h : heap) (df : ref) (valor_constante : Q) (col : string) (s : Series)
    (Hlabels : NoDup (column_names (deref h df)))
    (Hcol : lookup_col col (columns (deref h df)) = Some s)
    (Hgap : has_null s = true)
    (Htext : text (values s))
    (Hvalue : existsb is_str (values s) = true) :
  let run1 := DataProcessing.preencher_valores_numericos df (Some [col]) "moda"
                valor_constante h in
  let run2 := Uteis.preencher_valores_numericos df "moda" (Some [col]) h in
  (exists t, In (Str t) (values s)
     /\ fst run1 = Ok (List.length h)
     /\ lookup_col col (columns (deref (snd run1) (List.length h)))
        = Some (fillna (Str t) s))
  /\ fst run2 = Raise (ValueError "Unknown format code 'f' for object of type 'str'").
Proof.
  intros run1 run2.
  destruct (preencher_as_turns h df (Some [col]) "moda" valor_constante) as [E1 E2].
  cbn zeta in E1, E2. subst run1 run2. rewrite E1, E2. clear E1 E2.
  cbn [fill_targets fill_turns]. unfold fill_turn. rewrite Hcol, Hgap.
  assert (Hnot : forallb isnull (values s) = false).
  { apply existsb_exists in Hvalue. destruct Hvalue as [c [Hc Hstr]].
    apply (forallb_witness isnull c); [assumption | now destruct c]. }
  pose proof (mode0_spec s) as Hm. rewrite Hnot in Hm.
  destruct Hm as [v [Hv [Hin Hnn]]].
  destruct (text_value _ _ Htext Hin Hnn) as [t ->].
  unfold statistic. cbn [String.eqb Ascii.eqb Bool.eqb]. rewrite Hv.
  cbn [fst snd]. split; [|reflexivity].
  exists t. split; [assumption|]. split; [reflexivity|].
  rewrite deref_new. cbn [columns]. apply lookup_set_col_same.
Qed.

(** X9 on the [Alley] column of the housing table. *)
Lemma preencher_valores_numericos_moda_on_text_witness :
  NoDup (column_names (deref [housing] 0%nat))
  /\ lookup_col "Alley" (columns (deref [housing] 0%nat))
    = Some (mkSeries object [NA; Str "Grvl"; NA; NA; NA])
  /\ fst (Uteis.preencher_valores_numericos 0%nat "moda" (Some ["Alley"]) [housing])
     = Raise (ValueError "Unknown format code 'f' for object of type 'str'")
  /\ exists t, fst (DataProcessing.preencher_valores_numericos 0%nat (Some ["Alley"])
                      "moda" 0 [housing]) = Ok 1%nat
       /\ lookup_col "Alley"
            (columns (deref (snd (DataProcessing.preencher_valores_numericos 0%nat
                                    (Some ["Alley"]) "moda" 0 [housing])) 1%nat))
          = Some (fillna (Str t) (mkSeries object [NA; Str "Grvl"; NA; NA; NA])).
Proof.
  split; [exact (proj1 housing_wf)|]. split; [reflexivity|].
  assert (Htext : text (values (mkSeries object [NA; Str "Grvl"; NA; NA; NA])))
    by (repeat constructor).
  destruct (preencher_valores_numericos_moda_on_text [housing] 0%nat 0 "Alley" _
              (proj1 housing_wf) eq_refl eq_refl Htext eq_refl) as [[t (_ & H1 & H2)] H3].
  split; [exact H3|]. exists t. split; [exact H1 | exact H2].
Defined.

(** *** Errors of the loop *)

Lemma fill_turn_lookup (estrategia : string) (constante : Q) (report : cell -> result unit)
    (d d' : DataFrame) (col c : string) (r : result unit) :
  fill_turn estrategia constante report d col = (r, d') ->
  (lookup_col c (columns d') = None <-> lookup_col c (columns d) = None).
Proof.
  unfold fill_turn.
  destruct (lookup_col col (columns d)) as [s|] eqn:Hs;
    [|intros H; inversion H; subst; reflexivity].
  destruct (has_null s); [|intros H; inversion H; subst; reflexivity].
  destruct (statistic estrategia constante s) as [v|e];
    [|intros H; inversion H; subst; reflexivity].
  intros H. inversion H; subst. cbn [columns].
  destruct (String.eqb_spec c col) as [->|Hne].
  - rewrite lookup_set_col_same, Hs. split; discriminate.
  - now rewrite lookup_set_col_other.
Qed.

(** A label that is no column stops the loop. *)
Lemma fill_turns_absent (estrategia : string) (constante : Q) (report : cell -> result unit)
    (cols : list string) (d : DataFrame) (col : string) :
  In col cols -> lookup_col col (columns d) = None ->
  exists e, fst (fill_turns estrategia constante report d cols) = Raise e.
Proof.
  revert d. induction cols as [|c cols IH]; intros d Hin Habs; [contradiction|].
  cbn [fill_turns].
  destruct (fill_turn estrategia constante report d c) as [[u|e] d1] eqn:Ht.
  - destruct Hin as [->|Hin].
    + unfold fill_turn in Ht. rewrite Habs in Ht. discriminate.
    + apply IH; [assumption|]. now apply (fill_turn_lookup _ _ _ _ _ _ col _ Ht).
  - now exists e.
Qed.

(** X10. Naming a column the table does not have makes
    [preencher_valores_numericos] raise, in either file and under every
    strategy, also when no column has a gap. *)
Theorem preencher_valores_numericos_absent_column_raises
    (h : heap) (df : ref) (colunas : list string) (estrategia : string)
    (valor_constante : Q) (col : string)
    (Hnamed : In col colunas)
    (Habsent : lookup_col col (columns (deref h df)) = None) :
  (exists e, fst (DataProcessing.preencher_valores_numericos df (Some colunas) estrategia
                    valor_constante h) = Raise e)
  /\ (exists e, fst (Uteis.preencher_valores_numericos df estrategia (Some colunas) h)
                = Raise e).
Proof.
  destruct (preencher_as_turns h df (Some colunas) estrategia valor_constante) as [E1 E2].
  cbn zeta in E1, E2. rewrite E1, E2. cbn [fst fill_targets]. split.
  - destruct (fill_turns_absent estrategia valor_constante (fun _ => Ok tt) colunas
                (deref h df) col Hnamed Habsent) as [e He].
    rewrite He. now exists e.
  - destruct (fill_turns_absent estrategia 0 Uteis.format_2f colunas
                (deref h df) col Hnamed Habsent) as [e He].
    rewrite He. now exists e.
Qed.

(** X10 with a label [Price] the table does not have. *)
Lemma preencher_valores_numericos_absent_column_raises_witness :
  In "Price" ["LotArea"; "Price"]
  /\ lookup_col "Price" (columns (deref [complete_table] 0%nat)) = None
  /\ exists e, fst (DataProcessing.preencher_valores_numericos 0%nat
                      (Some ["LotArea"; "Price"]) "media" 0 [complete_table]) = Raise e.
Proof.
  assert (Hin : In "Price" ["LotArea"; "Price"]) by (simpl; tauto).
  split; [exact Hin|]. split; [reflexivity|].
  exact (proj1 (preencher_valores_numericos_absent_column_raises [complete_table] 0%nat
                  ["LotArea"; "Price"] "media" 0 "Price" Hin eq_refl)).
Defined.

(** Under ['moda'], on columns the table has, the loop of
    [data_processing.py] can only fail for a column without values. *)
Lemma fill_turns_moda_error (constante : Q) (cols : list string) (d d' : DataFrame)
    (e : exn) :
  Forall (present d) cols ->
  fill_turns "moda" constante (fun _ => Ok tt) d cols = (Raise e, d') ->
  e = KeyError "0".
Proof.
  revert d. induction cols as [|c cols IH]; intros d Hall Hrun; [discriminate|].
  inversion Hall as [|? ? Hc Hrest]; subst.
  cbn [fill_turns] in Hrun.
  destruct (fill_turn "moda" constante (fun _ => Ok tt) d c) as [[u|e1] d1] eqn:Ht.
  - apply (IH d1); [|assumption].
    apply Forall_forall. intros x Hx. rewrite Forall_forall in Hrest.
    unfold present in *. intros Hnone.
    apply (Hrest x Hx). now apply (fill_turn_lookup _ _ _ _ _ _ x _ Ht).
  - inversion Hrun; subst e1 d1. unfold fill_turn in Ht. unfold present in Hc.
    destruct (lookup_col c (columns d)) as [s|]; [|congruence].
    destruct (has_null s); [|discriminate].
    unfold statistic in Ht. cbn [String.eqb Ascii.eqb Bool.eqb] in Ht.
    pose proof (mode0_spec s) as Hm.
    destruct (forallb isnull (values s)).
    + rewrite Hm in Ht. now inversion Ht.
    + destruct Hm as [v [Hv _]]. rewrite Hv in Ht. discriminate.
Qed.

(** X11. A column without any value has no mode: under ['moda'], a call
    over columns of a table with unique labels, one of which has cells
    that are all missing, raises; in [data_processing.py] the exception is the
    [KeyError] of [mode()[0]]. *)
Theorem preencher_valores_numericos_moda_without_values
    (h : heap) (df : ref) (colunas : option (list string)) (valor_constante : Q)
    (col : string) (s : Series)
    (Hlabels : NoDup (column_names (deref h df)))
    (Hpresent : Forall (present (deref h df)) (fill_targets colunas (deref h df)))
    (Htarget : In col (fill_targets colunas (deref h df)))
    (Hcol : lookup_col col (columns (deref h df)) = Some s)
    (Hempty : all_missing s = true) :
  fst (DataProcessing.preencher_valores_numericos df colunas "moda" valor_constante h)
    = Raise (KeyError "0")
  /\ exists e, fst (Uteis.preencher_valores_numericos df "moda" colunas h) = Raise e.
Proof.
  assert (Hno : forall constante targets d',
            In col targets ->
            ~ gaps_filled "moda" constante targets (deref h df) d').
  { intros constante targets d' Hin (_ & _ & Hcols). specialize (Hcols col s Hcol).
    apply all_missing_spec in Hempty. destruct Hempty as [Hg Hall].
    rewrite (mem_true_In _ _ Hin), Hg in Hcols. cbn [andb] in Hcols.
    destruct Hcols as [v [Hv _]]. unfold statistic in Hv.
    cbn [String.eqb Ascii.eqb Bool.eqb] in Hv.
    pose proof (mode0_spec s) as Hm. rewrite Hall in Hm. congruence. }
  destruct (preencher_as_turns h df colunas "moda" valor_constante) as [E1 E2].
  cbn zeta in E1, E2. rewrite E1, E2. cbn [fst]. split.
  - destruct (fill_turns "moda" valor_constante (fun _ => Ok tt) (deref h df)
                (fill_targets colunas (deref h df))) as [[u|e] d'] eqn:Hr; cbn [fst].
    + exfalso. apply (Hno valor_constante _ d' Htarget).
      apply (fill_turns_keep _ _ _ _ [] _ _ d' u (gaps_filled_start _ _ _) Hr).
    + f_equal. eapply fill_turns_moda_error; eassumption.
  - destruct (fill_turns "moda" 0 Uteis.format_2f (deref h df)
                (fill_targets colunas (deref h df))) as [[u|e] d'] eqn:Hr; cbn [fst].
    + exfalso. apply (Hno 0 _ d' Htarget).
      apply (fill_turns_keep _ _ _ _ [] _ _ d' u (gaps_filled_start _ _ _) Hr).
    + now exists e.
Qed.

(** X11 on a table whose [GarageYrBlt] has no value. *)
Lemma preencher_valores_numericos_moda_without_values_witness :
  NoDup (column_names (deref [vacant] 0%nat))
  /\ Forall (present (deref [vacant] 0%nat)) (fill_targets None (deref [vacant] 0%nat))
  /\ In "GarageYrBlt" (fill_targets None (deref [vacant] 0%nat))
  /\ all_missing (mkSeries float64 [NA; NA]) = true
  /\ fst (DataProcessing.preencher_valores_numericos 0%nat None "moda" 0 [vacant])
     = Raise (KeyError "0").
Proof.
  assert (Hp : Forall (present (deref [vacant] 0%nat))
                 (fill_targets None (deref [vacant] 0%nat)))
    by apply select_dtypes_present.
  assert (Hin : In "GarageYrBlt" (fill_targets None (deref [vacant] 0%nat)))
    by (simpl; tauto).
  assert (Hnd : NoDup (column_names (deref [vacant] 0%nat)))
    by (repeat constructor; simpl; intuition discriminate).
  split; [exact Hnd|]. split; [exact Hp|]. split; [exact Hin|]. split; [reflexivity|].
  exact (proj1 (preencher_valores_numericos_moda_without_values [vacant] 0%nat None 0
                  "GarageYrBlt" _ Hnd Hp Hin eq_refl eq_refl)).
Defined.

(** ** [converter_categorias] *)

(** *** The order of cells *)





Lemma Qle_bool_false (x y : Q) : Qle_bool x y = false <-> y < x.
Proof.
  split.
  - intros H. apply Qnot_le_lt. intros Hle. apply Qle_bool_iff in Hle. congruence.
  - intros H. destruct (Qle_bool x y) eqn:E; [|reflexivity].
    apply Qle_bool_iff in E. exfalso. now apply (Qlt_not_le _ _ H).
Qed.










(** *** Levels in ascending order *)









(** *** Label encoding *)




Lemma label_column_ok (d : DataFrame) (col : string) (s : Series) :
  lookup_col col (columns d) = Some s ->
  DataProcessing.label_column d col =
  Ok (mkFrame (nrows d) (set_col col (label_encoded s) (columns d))).
Proof.
  intros Hs. unfold DataProcessing.label_column, getitem. now rewrite Hs.
Qed.




(** *** Errors and empty work *)

Lemma label_columns_absent (before after : list string) (col : string) (d : DataFrame) :
  Forall (present d) before -> lookup_col col (columns d) = None ->
  DataProcessing.label_columns d (before ++ col :: after) = Raise (KeyError col).
Proof.
  revert d. induction before as [|c l IH]; intros d Hall Habs.
  - simpl. unfold DataProcessing.label_column, getitem. now rewrite Habs.
  - inversion Hall as [|? ? Hc Hrest]; subst. unfold present in Hc.
    destruct (lookup_col c (columns d)) as [sc|] eqn:Hsc; [|congruence].
    cbn [app DataProcessing.label_columns]. rewrite (label_column_ok d c sc Hsc).
    cbn [bind].
    assert (Hne : col <> c) by (intros ->; congruence).
    apply IH.
    + apply Forall_forall. intros x Hx. rewrite Forall_forall in Hrest.
      specialize (Hrest x Hx). unfold present in *. cbn [columns].
      destruct (String.eqb_spec x c) as [->|Hxc].
      * rewrite lookup_set_col_same. discriminate.
      * now rewrite lookup_set_col_other.
    + cbn [columns]. now rewrite lookup_set_col_other.
Qed.

Lemma mapM_getitem_missing (d : DataFrame) (cols : list string) (col : string) :
  In col cols -> lookup_col col (columns d) = None ->
  exists k, mapM (fun c => s <- getitem d c ;; Ok (c, s)) cols = Raise (KeyError k).
Proof.
  induction cols as [|c cols IH]; [contradiction|]. intros Hin Habs. simpl.
  unfold getitem at 1. destruct (lookup_col c (columns d)) as [sc|] eqn:Hc.
  - destruct Hin as [->|Hin]; [congruence|].
    destruct (IH Hin Habs) as [k Hk]. simpl. rewrite Hk. now exists k.
  - now exists c.
Qed.

(** X14. Naming a column a table with unique labels does not have makes
    [converter_categorias] raise a [KeyError], in both files: under
    ['onehot'] wherever the label stands in the list; under ['label'] it
    is the [KeyError] of the first such label, raised when the loop
    reaches it. *)
Theorem converter_categorias_absent_column_raises
    (df : DataFrame) (before after : list string) (col : string) (drop_first : bool)
    (Hlabels : NoDup (column_names df))
    (Hbefore : Forall (present df) before)
    (Habsent : lookup_col col (columns df) = None) :
  (forall colunas, In col colunas ->
     exists k,
       DataProcessing.converter_categorias df (Some colunas) "onehot" drop_first
         = Raise (KeyError k)
       /\ Uteis.converter_categorias df (Some colunas) "onehot" = Raise (KeyError k))
  /\ DataProcessing.converter_categorias df (Some (before ++ col :: after)) "label" drop_first
      = Raise (KeyError col)
  /\ Uteis.converter_categorias df (Some (before ++ col :: after)) "label"
      = Raise (KeyError col).
Proof.
  split; [|split].
  - intros colunas Hin.
    destruct (mapM_getitem_missing df colunas col Hin Habsent) as [k Hk].
    exists k.
    assert (H : forall b, DataProcessing.converter_categorias df (Some colunas) "onehot" b
                          = Raise (KeyError k)).
    { intros b. unfold DataProcessing.converter_categorias.
      cbn [String.eqb Ascii.eqb Bool.eqb]. unfold get_dummies. now rewrite Hk. }
    split; [apply H|]. rewrite converter_categorias_same. apply H.
  - unfold DataProcessing.converter_categorias. cbn [String.eqb Ascii.eqb Bool.eqb].
    now apply label_columns_absent.
  - rewrite converter_categorias_same.
    unfold DataProcessing.converter_categorias. cbn [String.eqb Ascii.eqb Bool.eqb].
    now apply label_columns_absent.
Qed.

(** X14 with a label [Street] the zoning table does not have. *)
Lemma converter_categorias_absent_column_raises_witness :
  NoDup (column_names zoning)
  /\ Forall (present zoning) ["Zone"]
  /\ lookup_col "Street" (columns zoning) = None
  /\ Uteis.converter_categorias zoning (Some (["Zone"] ++ "Street" :: [])) "label"
     = Raise (KeyError "Street").
Proof.
  assert (Hl : NoDup (column_names zoning))
    by (repeat constructor; simpl; intuition discriminate).
  assert (Hp : Forall (present zoning) ["Zone"])
    by (constructor; [discriminate | constructor]).
  split; [exact Hl|]. split; [exact Hp|]. split; [reflexivity|].
  exact (proj2 (proj2 (converter_categorias_absent_column_raises zoning ["Zone"] []
                         "Street" true Hl Hp eq_refl))).
Defined.

(** X15. With nothing to convert (an empty list of columns, or no text
    column) in a table that has columns, both methods return the table
    as it is, in both files; a method name that is neither ['onehot']
    nor ['label'] is an error all the same. *)
Theorem converter_categorias_nothing_to_convert
    (df : DataFrame) (colunas : option (list string)) (metodo : string) (drop_first : bool)
    (Hcolumns : columns df <> [])
    (Hnone : convert_targets colunas df = []) :
  DataProcessing.converter_categorias df colunas metodo drop_first =
    (if String.eqb metodo "onehot" || String.eqb metodo "label"
     then Ok df else Raise DataProcessing.invalid_method)
  /\ Uteis.converter_categorias df colunas metodo =
    (if String.eqb metodo "onehot" || String.eqb metodo "label"
     then Ok df else Raise Uteis.invalid_method).
Proof.
  assert (H : forall b, DataProcessing.converter_categorias df colunas metodo b =
            (if String.eqb metodo "onehot" || String.eqb metodo "label"
             then Ok df else Raise DataProcessing.invalid_method)).
  { intros b. unfold DataProcessing.converter_categorias.
    change (match colunas with
            | Some l => l
            | None => select_dtypes [object; category] df
            end) with (convert_targets colunas df).
    rewrite Hnone.
    destruct (String.eqb metodo "onehot"); cbn [orb].
    - unfold get_dummies. cbn [mapM bind flat_map]. now rewrite app_nil_r, drop_nil, frame_eta.
    - destruct (String.eqb metodo "label"); reflexivity. }
  split; [apply H|]. rewrite converter_categorias_same. apply H.
Qed.

(** X15 on the zoning table with an empty list of columns. *)
Lemma converter_categorias_nothing_to_convert_witness :
  columns zoning <> []
  /\ convert_targets (Some []) zoning = []
  /\ Uteis.converter_categorias zoning (Some []) "onehot" = Ok zoning
  /\ Uteis.converter_categorias zoning (Some []) "ordinal" = Raise Uteis.invalid_method.
Proof.
  assert (Hc : columns zoning <> []) by discriminate.
  split; [exact Hc|]. split; [reflexivity|]. split.
  - exact (proj2 (converter_categorias_nothing_to_convert zoning (Some []) "onehot" true
                    Hc eq_refl)).
  - exact (proj2 (converter_categorias_nothing_to_convert zoning (Some []) "ordinal" true
                    Hc eq_refl)).
Defined.

(** *** One-hot rows *)






(** ** [split_data] and [dividir_dados] *)





Lemma In_skipn_list {A : Type} (n : nat) (l : list A) (x : A) :
  In x (skipn n l) -> In x l.
Proof.
  intros H. rewrite <- (firstn_skipn n l). apply in_or_app. now right.
Qed.


Section Partition.
Context {G : Generator}.


End Partition.



Lemma test_rows_single (test_size : Q) : 0 < test_size -> (1 <= test_rows 1 test_size)%nat.
Proof.
  intros H. unfold test_rows.
  assert (Hq : test_size * inject_Z (Z.of_nat 1) == test_size)
    by (change (inject_Z (Z.of_nat 1)) with 1; ring).
  pose proof (Qle_ceiling (test_size * inject_Z (Z.of_nat 1))) as Hc.
  rewrite Hq in Hc at 1.
  assert (Hpos : 0 < inject_Z (Qceiling (test_size * inject_Z (Z.of_nat 1))))
    by (eapply Qlt_le_trans; eassumption).
  change 0 with (inject_Z 0) in Hpos. rewrite <- Zlt_Qlt in Hpos. lia.
Qed.

Section TooFewRows.
Context {G : Generator}.

(** X18. A table with fewer than two rows cannot be split: whatever the
    fraction, the seed and the target, [split_data] and [dividir_dados]
    raise a [ValueError] and leave the process-wide generator as it
    was. *)
Theorem split_data_needs_two_rows
    (X : DataFrame) (y : Series) (test_size : Q) (random_state : Z)
    (stratify : option (list cell)) (global : RandomState)
    (Hfew : (nrows X <= 1)%nat) :
  (exists msg, split_data X y test_size random_state stratify global
               = (Raise (ValueError msg), global))
  /\ (exists msg, Uteis.dividir_dados X y test_size random_state global
                  = (Raise (ValueError msg), global)).
Proof.
  assert (H : forall st, exists msg,
            train_test_split X y test_size (Some random_state) st global
            = (Raise (ValueError msg), global)).
  { intros st. unfold train_test_split.
    destruct (negb (nrows X =? List.length (values y))%nat); [eexists; reflexivity|].
    unfold validate_shuffle_split. fold (test_rows (nrows X) test_size).
    destruct (Qle_bool test_size 0) eqn:E0; [eexists; reflexivity|].
    destruct (Qle_bool 1 test_size) eqn:E1; [eexists; reflexivity|].
    cbn [orb]. apply Qle_bool_false in E0.
    assert (Hz : (nrows X - test_rows (nrows X) test_size =? 0)%nat = true).
    { apply Nat.eqb_eq. destruct (nrows X) as [|[|n]]; [reflexivity | | lia].
      pose proof (test_rows_single test_size E0). lia. }
    rewrite Hz. eexists; reflexivity. }
  split; [apply (H stratify) | apply (H None)].
Qed.

End TooFewRows.

(** X18 on a table with one row. *)
Lemma split_data_needs_two_rows_witness :
  (nrows single_row <= 1)%nat
  /\ exists msg, split_data (G := toy_generator) single_row single_target 0.2 42 None 7%Z
                 = (Raise (ValueError msg), 7%Z).
Proof.
  assert (Hfew : (nrows single_row <= 1)%nat) by (simpl; lia).
  split; [exact Hfew|].
  exact (proj1 (split_data_needs_two_rows (G := toy_generator) single_row single_target
                  0.2 42 None 7%Z Hfew)).
Defined.

(** ** [evaluate_model] *)



















(** ** [salvar_dados] and [carregar_dados] *)







(** ** [load_data] *)

Lemma append_inj_l (p a b : string) : (p ++ a)%string = (p ++ b)%string -> a = b.
Proof. induction p as [|c p IH]; simpl; intros H; [assumption | inversion H; auto]. Qed.

Lemma has_dirname_app (p q : string) :
  has_dirname q = true -> has_dirname (p ++ q) = true.
Proof.
  unfold has_dirname. induction p as [|c p IH]; simpl; intros H; [assumption|].
  rewrite (IH H). apply orb_true_r.
Qed.

(** X24. [load_data] reads back what [salvar_dados] wrote: once a
    training table and a test table (well-formed and portable) are
    saved as [train.csv] and [test.csv] under a directory, [load_data]
    on that directory with its default file names returns the two
    tables, training table first. *)
Theorem load_data_reads_saved_tables
    (train test : DataFrame) (data_path : string) (fs : filesystem)
    (Hpath : data_path <> EmptyString)
    (Hwf_train : wf_frame train) (Hportable_train : portable train = true)
    (Hwf_test : wf_frame test) (Hportable_test : portable test = true) :
  exists fs1 fs2,
    Uteis.salvar_dados train (data_path ++ "/" ++ default_train_file) fs = (Ok tt, fs1)
    /\ Uteis.salvar_dados test (data_path ++ "/" ++ default_test_file) fs1 = (Ok tt, fs2)
    /\ load_data data_path default_train_file default_test_file fs2 = Ok (train, test).
Proof.
  assert (Hd1 : has_dirname (data_path ++ "/" ++ default_train_file) = true)
    by (apply has_dirname_app; reflexivity).
  assert (Hd2 : has_dirname (data_path ++ "/" ++ default_test_file) = true)
    by (apply has_dirname_app; reflexivity).
  unfold Uteis.salvar_dados. rewrite Hd1. eexists. eexists.
  split; [reflexivity|]. rewrite Hd2. split; [reflexivity|].
  unfold load_data, write_file.
  assert (Hne : String.eqb (data_path ++ "/" ++ default_train_file)
                           (data_path ++ "/" ++ default_test_file) = false).
  { apply String.eqb_neq. intros H. apply append_inj_l in H. discriminate. }
  rewrite Hne, !String.eqb_refl.
  rewrite !read_csv_to_csv by assumption. reflexivity.
Qed.

(** X24 with the table of the round-trip scenario saved twice. *)
Lemma load_data_reads_saved_tables_witness :
  "data" <> EmptyString
  /\ wf_frame owners /\ portable owners = true
  /\ exists fs1 fs2,
       Uteis.salvar_dados owners "data/train.csv" no_files = (Ok tt, fs1)
       /\ Uteis.salvar_dados owners "data/test.csv" fs1 = (Ok tt, fs2)
       /\ load_data "data" "train.csv" "test.csv" fs2 = Ok (owners, owners).
Proof.
  assert (Hwf : wf_frame owners).
  { split; [repeat constructor; simpl; intuition discriminate | repeat constructor]. }
  assert (Hp : "data" <> EmptyString) by discriminate.
  split; [exact Hp|]. split; [exact Hwf|]. split; [reflexivity|].
  exact (load_data_reads_saved_tables owners owners "data" no_files Hp
           Hwf eq_refl Hwf eq_refl).
Defined.

(** ** [compare_models] *)

Lemma first_appearances_spec (keys seen : list string) (k : string) :
  In k (Reports.first_appearances seen keys) <-> In k keys /\ ~ In k seen.
Proof.
  revert seen. induction keys as [|a keys IH]; intros seen; simpl; [tauto|].
  destruct (mem a seen) eqn:E.
  - apply mem_In in E. rewrite IH. split.
    + intros [H1 H2]. tauto.
    + intros [[->|H1] H2]; [contradiction | tauto].
  - apply mem_false in E. simpl. rewrite IH. simpl. split.
    + intros [->|[H1 H2]]; [tauto|]. split; [tauto|]. intros H. apply H2. now right.
    + intros [[->|H1] H2]; [now left|].
      destruct (String.eqb_spec a k) as [->|Hne]; [now left|]. right.
      split; [assumption|]. intros [H|H]; [congruence | contradiction].
Qed.

Lemma first_appearances_NoDup (keys seen : list string) :
  NoDup (Reports.first_appearances seen keys).
Proof.
  revert seen. induction keys as [|a keys IH]; intros seen; simpl; [constructor|].
  destruct (mem a seen); [apply IH|]. constructor; [|apply IH].
  rewrite first_appearances_spec. intros [_ H]. apply H. now left.
Qed.

Lemma column_of_map (f : string -> list scalar) (names : list string) (k : string) :
  In k names -> column_of k (map (fun n => (n, f n)) names) = Some (f k).
Proof.
  induction names as [|n names IH]; simpl; [contradiction|].
  destruct (String.eqb_spec k n) as [->|Hne]; [reflexivity|].
  intros [H|H]; [congruence | now apply IH].
Qed.

Lemma column_of_map_none (f : string -> list scalar) (names : list string) (k : string) :
  ~ In k names -> column_of k (map (fun n => (n, f n)) names) = None.
Proof.
  induction names as [|n names IH]; simpl; [reflexivity|].
  intros H. destruct (String.eqb_spec k n) as [->|Hne]; [tauto|]. apply IH. tauto.
Qed.

Lemma position_row {A : Type} (l : list (string * A)) (name : string) (a : A) (g : A -> scalar) :
  NoDup (map fst l) -> In (name, a) l ->
  exists i, position name (map fst l) = Some i
            /\ nth_error (map (fun m => g (snd m)) l) i = Some (g a).
Proof.
  induction l as [|[n x] l IH]; simpl; intros Hnd Hin; [contradiction|].
  inversion Hnd as [|? ? Hnot Hnd']; subst.
  destruct Hin as [Heq|Hin].
  - inversion Heq; subst. rewrite String.eqb_refl. now exists 0%nat.
  - destruct (String.eqb_spec name n) as [->|Hne].
    + exfalso. apply Hnot. apply in_map_iff. now exists (n, a).
    + destruct (IH Hnd' Hin) as [i [Hp Hv]]. exists (S i). rewrite Hp. now split.
Qed.

Lemma get_In (k : string) (m : metrics) (v : scalar) :
  get k m = Some v -> In k (map fst m).
Proof.
  induction m as [|[k' v'] m IH]; simpl; [discriminate|].
  destruct (String.eqb_spec k k') as [->|Hne]; [now left | right; now apply IH].
Qed.

(** X25. The table [compare_models] builds has one row per model, in
    the order of the dict; the cell of a model under a metric name is
    the value the model's dict has for it, NaN if the dict lacks the
    name while another model's has it, and there is no column for a
    name no dict has. *)
Theorem compare_models_cells
    (metrics_dict : list (string * metrics)) (model : string) (m : metrics)
    (Hkeys : NoDup (map fst metrics_dict))
    (Hmodel : In (model, m) metrics_dict) :
  Reports.index (Reports.compare_models metrics_dict) = map fst metrics_dict
  /\ forall name,
       cell_at (Reports.compare_models metrics_dict) model name =
       if existsb (fun d => mem name (map fst (snd d))) metrics_dict
       then Some (Reports.get_or_nan name m)
       else None.
Proof.
  split; [reflexivity|]. intros name. unfold cell_at, Reports.compare_models.
  cbn [Reports.index Reports.table_columns].
  set (keys := List.concat (map (fun d => map fst (snd d)) metrics_dict)).
  assert (Hk : In name keys <->
               existsb (fun d => mem name (map fst (snd d))) metrics_dict = true).
  { subst keys. rewrite in_concat, existsb_exists. split.
    - intros [l [Hl Hn]]. apply in_map_iff in Hl. destruct Hl as [d [<- Hd]].
      exists d. split; [assumption | now apply mem_In].
    - intros [d [Hd Hn]]. exists (map fst (snd d)). split; [|now apply mem_In].
      apply in_map_iff. now exists d. }
  destruct (position_row metrics_dict model m (Reports.get_or_nan name) Hkeys Hmodel)
    as [i [Hp Hv]].
  rewrite Hp.
  destruct (existsb (fun d => mem name (map fst (snd d))) metrics_dict) eqn:E.
  - rewrite (column_of_map (fun k => map (fun d => Reports.get_or_nan k (snd d)) metrics_dict)).
    + exact Hv.
    + apply first_appearances_spec. split; [now apply Hk | tauto].
  - rewrite (column_of_map_none
               (fun k => map (fun d => Reports.get_or_nan k (snd d)) metrics_dict));
      [reflexivity|].
    rewrite first_appearances_spec. intros [H _]. apply Hk in H. discriminate.
Qed.

(** X25 on two models with different metrics: the missing one is NaN. *)
Lemma compare_models_cells_witness :
  NoDup (map fst [("a", [("MSE", Finite 1)]); ("b", [("MAE", Finite 2)])])
  /\ In ("b", [("MAE", Finite 2)]) [("a", [("MSE", Finite 1)]); ("b", [("MAE", Finite 2)])]
  /\ cell_at (Reports.compare_models
                [("a", [("MSE", Finite 1)]); ("b", [("MAE", Finite 2)])]) "b" "MSE"
     = Some NaN.
Proof.
  assert (Hnd : NoDup (map fst [("a", [("MSE", Finite 1)]); ("b", [("MAE", Finite 2)])]))
    by (repeat constructor; simpl; intuition discriminate).
  assert (Hin : In ("b", [("MAE", Finite 2)])
                   [("a", [("MSE", Finite 1)]); ("b", [("MAE", Finite 2)])])
    by (simpl; tauto).
  split; [exact Hnd|]. split; [exact Hin|].
  exact (proj2 (compare_models_cells _ "b" _ Hnd Hin) "MSE").
Defined.

Lemma first_appearances_seen (seen keys : list string) :
  (forall k, In k keys -> In k seen) -> Reports.first_appearances seen keys = [].
Proof.
  induction keys as [|a keys IH]; simpl; intros H; [reflexivity|].
  rewrite (mem_true_In a seen) by (apply H; now left). apply IH.
  intros k Hk. apply H. now right.
Qed.

Lemma first_appearances_prefix (names rest seen : list string) :
  NoDup names -> (forall k, In k names -> ~ In k seen) ->
  (forall k, In k rest -> In k names \/ In k seen) ->
  Reports.first_appearances seen (names ++ rest) = names.
Proof.
  revert seen. induction names as [|a names IH]; intros seen Hnd Hnew Hrest.
  - simpl. apply first_appearances_seen. intros k Hk.
    destruct (Hrest k Hk) as [[]|H]. exact H.
  - inversion Hnd as [|? ? Hnot Hnd']; subst. cbn [app Reports.first_appearances].
    assert (E : mem a seen = false) by (apply mem_false; apply Hnew; now left).
    rewrite E. f_equal. apply IH; [assumption | |].
    + intros k Hk [H|H]; [subst; contradiction|]. apply (Hnew k); [now right | assumption].
    + intros k Hk. destruct (Hrest k Hk) as [[H|H]|H].
      * right. now left.
      * now left.
      * right. now right.
Qed.

Lemma evaluate_model_keys (y_true y_pred : list Q) (m : metrics) :
  evaluate_model y_true y_pred = Ok m -> map fst m = metric_names.
Proof.
  unfold evaluate_model.
  destruct (mean_squared_error y_true y_pred) as [mse|e]; cbn [bind]; [|discriminate].
  destruct (mean_absolute_error y_true y_pred) as [mae|e]; cbn [bind]; [|discriminate].
  destruct (r2_score y_true y_pred) as [r2|e]; cbn [bind]; [|discriminate].
  intros H. inversion H. reflexivity.
Qed.

(** X26. Comparing the metrics [evaluate_model] returned for several
    models gives a table with exactly the columns MSE, RMSE, MAE and
    R², in this order, one row per model, and in each cell the metric
    [evaluate_model] computed: no cell is NaN for want of a value. *)
Theorem compare_models_of_evaluations
    (metrics_dict : list (string * metrics))
    (Hkeys : NoDup (map fst metrics_dict))
    (Hmodels : metrics_dict <> [])
    (Hevaluated : Forall (fun d => exists y_true y_pred,
                            evaluate_model y_true y_pred = Ok (snd d)) metrics_dict) :
  map fst (Reports.table_columns (Reports.compare_models metrics_dict)) = metric_names
  /\ Forall (fun c => List.length (snd c) = List.length metrics_dict)
            (Reports.table_columns (Reports.compare_models metrics_dict))
  /\ forall model m name, In (model, m) metrics_dict -> In name metric_names ->
       exists v, get name m = Some v
                 /\ cell_at (Reports.compare_models metrics_dict) model name = Some v.
Proof.
  assert (Hnames : forall d, In d metrics_dict -> map fst (snd d) = metric_names).
  { intros d Hd. rewrite Forall_forall in Hevaluated.
    destruct (Hevaluated d Hd) as (t & p & H). now apply (evaluate_model_keys t p). }
  assert (Hfirst : Reports.first_appearances []
                     (List.concat (map (fun d => map fst (snd d)) metrics_dict))
                   = metric_names).
  { destruct metrics_dict as [|d ds]; [congruence|].
    change (List.concat (map (fun d0 => map fst (snd d0)) (d :: ds)))
      with (map fst (snd d) ++ List.concat (map (fun d0 => map fst (snd d0)) ds)).
    rewrite (Hnames d) by now left.
    apply first_appearances_prefix.
    - repeat constructor; simpl; intuition discriminate.
    - intros k _ [].
    - intros k Hk. left. apply in_concat in Hk. destruct Hk as [l [Hl Hk]].
      apply in_map_iff in Hl. destruct Hl as [d' [Hl Hd']]. subst l.
      rewrite <- (Hnames d' (or_intror Hd')). exact Hk. }
  unfold Reports.compare_models. cbn [Reports.table_columns Reports.index].
  rewrite Hfirst. split; [|split].
  - rewrite map_map. cbn [fst]. apply map_id.
  - apply Forall_forall. intros c Hc. apply in_map_iff in Hc.
    destruct Hc as [k [<- _]]. cbn [snd]. apply length_map.
  - intros model m name Hin Hname.
    assert (Hget : exists v, get name m = Some v).
    { pose proof (Hnames (model, m) Hin) as Hm. cbn [snd] in Hm.
      rewrite <- Hm in Hname. clear -Hname.
      induction m as [|[k v] m IH]; simpl in *; [contradiction|].
      destruct (String.eqb_spec name k) as [->|Hne]; [now exists v|].
      destruct Hname as [H|H]; [congruence | now apply IH]. }
    destruct Hget as [v Hv]. exists v. split; [assumption|].
    unfold cell_at. cbn [Reports.table_columns Reports.index].
    destruct (position_row metrics_dict model m (Reports.get_or_nan name) Hkeys Hin)
      as [i [Hp Hrow]].
    rewrite Hp.
    rewrite (column_of_map (fun k => map (fun d => Reports.get_or_nan k (snd d)) metrics_dict))
      by assumption.
    rewrite Hrow. unfold Reports.get_or_nan. now rewrite Hv.
Qed.

Lemma two_models_keys : NoDup (map fst two_models).
Proof. repeat constructor; simpl; intuition discriminate. Qed.

(** X26 on the metrics of two models. *)
Lemma compare_models_of_evaluations_witness :
  NoDup (map fst two_models) /\ two_models <> []
  /\ Forall (fun d => exists y_true y_pred, evaluate_model y_true y_pred = Ok (snd d))
            two_models
  /\ map fst (Reports.table_columns (Reports.compare_models two_models)) = metric_names.
Proof.
  assert (Hne : two_models <> []) by discriminate.
  assert (Hev : Forall (fun d => exists y_true y_pred,
                          evaluate_model y_true y_pred = Ok (snd d)) two_models).
  { constructor; [exists scenario_true, scenario_pred; reflexivity|].
    constructor; [exists scenario_true, scenario_true; reflexivity|]. constructor. }
  split; [exact two_models_keys|]. split; [exact Hne|]. split; [exact Hev|].
  exact (proj1 (compare_models_of_evaluations two_models two_models_keys Hne Hev)).
Defined.

(** ** [analisar_valores_ausentes] *)

Lemma descends_b_spec (a b : float) : descends_b a b = true <-> descends a b.
Proof.
  destruct a as [x|], b as [y|]; simpl; try tauto; try (split; [discriminate | tauto]).
  apply Qle_bool_iff.
Qed.

Lemma descends_total (a b : float) : descends_b a b = false -> descends b a.
Proof.
  destruct a as [x|], b as [y|]; simpl; try discriminate; try tauto.
  intros H. apply Qle_bool_false in H. now apply Qlt_le_weak.
Qed.

Lemma descends_trans (a b c : float) : descends a b -> descends b c -> descends a c.
Proof.
  destruct a as [x|], b as [y|], c as [z|]; simpl; try tauto.
  intros H1 H2. now apply Qle_trans with y.
Qed.

Lemma insert_row_perm (r : Eda.missing_row) (l : list Eda.missing_row) :
  Permutation (insert_row r l) (r :: l).
Proof.
  induction l as [|h t IH]; simpl; [reflexivity|].
  destruct (descends_b (Eda.Porcentagem r) (Eda.Porcentagem h)); [reflexivity|].
  rewrite IH. apply perm_swap.
Qed.

Lemma insert_row_sorted (r : Eda.missing_row) (l : list Eda.missing_row) :
  StronglySorted (fun a b => descends (Eda.Porcentagem a) (Eda.Porcentagem b)) l ->
  StronglySorted (fun a b => descends (Eda.Porcentagem a) (Eda.Porcentagem b))
    (insert_row r l).
Proof.
  intros Hs. induction Hs as [|h t Hs IH Hh]; simpl.
  - constructor; constructor.
  - destruct (descends_b (Eda.Porcentagem r) (Eda.Porcentagem h)) eqn:E.
    + apply descends_b_spec in E. constructor; [now constructor|].
      constructor; [assumption|]. rewrite Forall_forall in *. intros x Hx.
      eapply descends_trans; [exact E | now apply Hh].
    + apply descends_total in E. constructor; [assumption|].
      rewrite Forall_forall in *. intros x Hx.
      apply (Permutation_in _ (insert_row_perm r t)) in Hx.
      destruct Hx as [<-|Hx]; [assumption | now apply Hh].
Qed.

Lemma insertion_sorter_sorts : sorts_descending insertion_sorter.
Proof.
  intros l. cbn [Eda.sort_values insertion_sorter].
  induction l as [|r l [IHp IHs]]; simpl.
  - split; constructor.
  - split.
    + rewrite insert_row_perm. now constructor.
    + now apply insert_row_sorted.
Qed.

Section MissingReport.
Context {sorter : Eda.Sorter}.
Hypothesis Hsort : sorts_descending sorter.

Lemma missing_data_rows (df : DataFrame) (r : Eda.missing_row) :
  In r (filter (fun r => (0 <? Eda.Total r)%nat) (Eda.sort_values (Eda.missing_counts df)))
  <-> exists c, In c (columns df)
        /\ (0 < null_count (snd c))%nat
        /\ r = Eda.mkMissing (fst c) (null_count (snd c))
                 (Eda.percentage (null_count (snd c)) (nrows df)).
Proof.
  destruct (Hsort (Eda.missing_counts df)) as [Hp _].
  rewrite filter_In. split.
  - intros [Hin Hpos]. apply (Permutation_in _ Hp) in Hin.
    unfold Eda.missing_counts in Hin. apply in_map_iff in Hin.
    destruct Hin as [c [<- Hc]]. exists c. cbn [Eda.Total] in Hpos.
    apply Nat.ltb_lt in Hpos. now repeat split.
  - intros [c (Hc & Hpos & ->)]. split.
    + apply (Permutation_in _ (Permutation_sym Hp)).
      unfold Eda.missing_counts. apply in_map_iff. now exists c.
    + cbn [Eda.Total]. now apply Nat.ltb_lt.
Qed.

Lemma null_count_pos (s : Series) : (0 < null_count s)%nat <-> has_null s = true.
Proof.
  unfold null_count, has_null. induction (values s) as [|c l IH]; simpl.
  - split; [lia | discriminate].
  - destruct (isnull c); simpl; [split; [reflexivity | lia] | exact IH].
Qed.

Lemma missing_data_empty (df : DataFrame) :
  filter (fun r => (0 <? Eda.Total r)%nat) (Eda.sort_values (Eda.missing_counts df)) = []
  <-> existsb (fun c => has_null (snd c)) (columns df) = false.
Proof.
  split.
  - intros Hnil. destruct (existsb _ (columns df)) eqn:E; [|reflexivity].
    apply existsb_exists in E. destruct E as [c [Hc Hgap]].
    assert (Hin : In (Eda.mkMissing (fst c) (null_count (snd c))
                        (Eda.percentage (null_count (snd c)) (nrows df)))
                     (filter (fun r => (0 <? Eda.Total r)%nat)
                        (Eda.sort_values (Eda.missing_counts df)))).
    { apply missing_data_rows. exists c. split; [assumption|].
      split; [now apply null_count_pos | reflexivity]. }
    rewrite Hnil in Hin. contradiction.
  - intros Hnone.
    destruct (filter _ (Eda.sort_values (Eda.missing_counts df))) as [|r rows] eqn:E;
      [reflexivity|].
    assert (Hin : In r (filter (fun r => (0 <? Eda.Total r)%nat)
                          (Eda.sort_values (Eda.missing_counts df))))
      by (rewrite E; now left).
    apply missing_data_rows in Hin. destruct Hin as [c (Hc & Hpos & _)].
    apply null_count_pos in Hpos.
    assert (existsb (fun c => has_null (snd c)) (columns df) = true)
      by (apply existsb_exists; now exists c).
    congruence.
Qed.

(** X27. The exceptions of [analisar_valores_ausentes], on a table
    with unique labels: a table without columns makes it raise
    [ZeroDivisionError]; a table with columns and no missing value makes
    it return the empty table; a table with a missing value makes it
    raise [NameError] for [display] wherever the interpreter does not
    provide that name. *)
Theorem analisar_valores_ausentes_exceptions
    (display_defined : bool) (df : DataFrame)
    (limite_porcentagem : Q) (plotar_grafico : bool) (limite_grafico : Q)
    (Hlabels : NoDup (column_names df)) :
  let out := Eda.analisar_valores_ausentes display_defined df limite_porcentagem
               plotar_grafico limite_grafico in
  (columns df = [] -> out = Eda.Raises Eda.ZeroDivisionError)
  /\ (columns df <> [] ->
      existsb (fun c => has_null (snd c)) (columns df) = false ->
      out = Eda.Returns [])
  /\ (columns df <> [] ->
      existsb (fun c => has_null (snd c)) (columns df) = true ->
      display_defined = false ->
      out = Eda.Raises (Eda.NameError "display")).
Proof.
  intros out. subst out. unfold Eda.analisar_valores_ausentes.
  split; [|split].
  - intros ->. reflexivity.
  - intros Hc Hnone. destruct (columns df) as [|c cs] eqn:Ec; [congruence|].
    cbn [List.length Nat.eqb]. rewrite <- Ec in Hnone.
    apply missing_data_empty in Hnone. now rewrite Hnone.
  - intros Hc Hgap ->. destruct (columns df) as [|c cs] eqn:Ec; [congruence|].
    cbn [List.length Nat.eqb]. rewrite <- Ec in Hgap.
    destruct (filter _ (Eda.sort_values (Eda.missing_counts df))) as [|r rows] eqn:E;
      [|reflexivity].
    apply missing_data_empty in E. congruence.
Qed.

Lemma StronglySorted_filter {A : Type} (R : A -> A -> Prop) (f : A -> bool) (l : list A) :
  StronglySorted R l -> StronglySorted R (filter f l).
Proof.
  induction 1 as [|a l Hs IH Ha]; simpl; [constructor|].
  destruct (f a); [|assumption]. constructor; [assumption|].
  rewrite Forall_forall in *. intros x Hx. apply filter_In in Hx. now apply Ha.
Qed.

Lemma NoDup_map_filter {A B : Type} (g : A -> B) (f : A -> bool) (l : list A) :
  NoDup (map g l) -> NoDup (map g (filter f l)).
Proof.
  induction l as [|a l IH]; simpl; intros H; [constructor|].
  inversion H as [|? ? Hnot Hnd]; subst.
  destruct (f a); [|now apply IH]. simpl. constructor; [|now apply IH].
  intros Hin. apply Hnot. apply in_map_iff in Hin. destruct Hin as [x [Hx Hf]].
  apply filter_In in Hf. apply in_map_iff. exists x. tauto.
Qed.

(** X28. The table [analisar_valores_ausentes] returns where [display]
    is defined, for a well-formed table with columns: one row for each
    column with a missing value and none for the others; in the row, the
    count of missing cells and the percentage, 100 times the count
    over the number of rows, which lies above 0 and not above 100; the
    rows in descending order of the percentage. *)
Theorem analisar_valores_ausentes_table
    (df : DataFrame) (limite_porcentagem : Q) (plotar_grafico : bool) (limite_grafico : Q)
    (Hwf : wf_frame df) (Hcolumns : columns df <> []) :
  exists rows,
    Eda.analisar_valores_ausentes true df limite_porcentagem plotar_grafico limite_grafico
      = Eda.Returns rows
    /\ (forall r, In r rows <->
          exists c, In c (columns df) /\ (0 < null_count (snd c))%nat
            /\ r = Eda.mkMissing (fst c) (null_count (snd c))
                     (Eda.percentage (null_count (snd c)) (nrows df)))
    /\ NoDup (map Eda.label rows)
    /\ StronglySorted (fun a b => descends (Eda.Porcentagem a) (Eda.Porcentagem b)) rows
    /\ (forall r, In r rows ->
          exists q, Eda.Porcentagem r = Some q /\ 0 < q /\ q <= 100
            /\ q * inject_Z (Z.of_nat (nrows df)) == 100 * inject_Z (Z.of_nat (Eda.Total r))).
Proof.
  destruct Hwf as [Hnd Hlen].
  set (rows := filter (fun r => (0 <? Eda.Total r)%nat)
                 (Eda.sort_values (Eda.missing_counts df))).
  exists rows. destruct (Hsort (Eda.missing_counts df)) as [Hp Hs].
  split; [|split; [|split; [|split]]].
  - unfold Eda.analisar_valores_ausentes. fold rows.
    destruct (columns df) as [|c cs]; [congruence|]. cbn [List.length Nat.eqb].
    now destruct rows.
  - intros r. apply missing_data_rows.
  - apply NoDup_map_filter.
    apply (Permutation_NoDup (Permutation_map Eda.label (Permutation_sym Hp))).
    unfold Eda.missing_counts. rewrite map_map. cbn [Eda.label]. exact Hnd.
  - now apply StronglySorted_filter.
  - intros r Hr. apply missing_data_rows in Hr. destruct Hr as [c (Hc & Hpos & ->)].
    cbn [Eda.Porcentagem Eda.Total]. unfold Eda.percentage.
    rewrite Forall_forall in Hlen. specialize (Hlen c Hc).
    pose proof (null_count_le (snd c)) as Hle. rewrite Hlen in Hle.
    destruct (nrows df) as [|n] eqn:En; [lia|].
    assert (Hpn : Z.pos (Pos.of_nat (S n)) = Z.of_nat (S n))
      by (rewrite <- (positive_nat_Z (Pos.of_nat (S n))), Nat2Pos.id by lia; reflexivity).
    cbn [ratio]. eexists. split; [reflexivity|].
    set (k := null_count (snd c)) in *.
    assert (Hq : (Z.of_nat k # Pos.of_nat (S n)) * inject_Z (Z.of_nat (S n))
                 == inject_Z (Z.of_nat k)).
    { unfold Qeq, Qmult, inject_Z. cbn [Qnum Qden]. rewrite Pos.mul_1_r, Hpn. ring. }
    assert (Hn : 0 < inject_Z (Z.of_nat (S n))) by (unfold Qlt; simpl; lia).
    assert (Hk : 0 < inject_Z (Z.of_nat k)) by (unfold Qlt; simpl; lia).
    assert (Hkn : inject_Z (Z.of_nat k) <= inject_Z (Z.of_nat (S n)))
      by (rewrite <- Zle_Qle; lia).
    set (q := Z.of_nat k # Pos.of_nat (S n)) in *.
    assert (Hq0 : 0 < q) by (unfold q, Qlt; cbn [Qnum Qden]; lia).
    assert (Hq1 : q <= 1).
    { unfold q, Qle. cbn [Qnum Qden]. rewrite Hpn. lia. }
    split; [lra|]. split; [lra|].
    rewrite <- Hq. ring.
Qed.

End MissingReport.

(** X27 on a table without columns and on a table with gaps. *)
Lemma analisar_valores_ausentes_exceptions_witness :
  sorts_descending insertion_sorter
  /\ Eda.analisar_valores_ausentes (sorter := insertion_sorter) true no_columns 30 true 5
     = Eda.Raises Eda.ZeroDivisionError
  /\ Eda.analisar_valores_ausentes (sorter := insertion_sorter) false gappy 30 true 5
     = Eda.Raises (Eda.NameError "display").
Proof.
  split; [exact insertion_sorter_sorts|].
  assert (Hgappy : NoDup (column_names gappy))
    by (repeat constructor; simpl; intuition discriminate).
  destruct (analisar_valores_ausentes_exceptions (sorter := insertion_sorter)
              insertion_sorter_sorts true no_columns 30 true 5 (NoDup_nil _))
    as (H1 & _ & _).
  destruct (analisar_valores_ausentes_exceptions (sorter := insertion_sorter)
              insertion_sorter_sorts false gappy 30 true 5 Hgappy) as (_ & _ & H3).
  split; [exact (H1 eq_refl)|]. apply H3; [discriminate | reflexivity | reflexivity].
Defined.

(** X28 on a table with gaps in two columns. *)
Lemma analisar_valores_ausentes_table_witness :
  sorts_descending insertion_sorter /\ wf_frame gappy /\ columns gappy <> []
  /\ exists rows,
       Eda.analisar_valores_ausentes (sorter := insertion_sorter) true gappy 30 true 5
         = Eda.Returns rows
       /\ NoDup (map Eda.label rows).
Proof.
  assert (Hwf : wf_frame gappy).
  { split; [repeat constructor; simpl; intuition discriminate | repeat constructor]. }
  assert (Hc : columns gappy <> []) by discriminate.
  split; [exact insertion_sorter_sorts|]. split; [exact Hwf|]. split; [exact Hc|].
  destruct (analisar_valores_ausentes_table (sorter := insertion_sorter)
              insertion_sorter_sorts gappy 30 true 5 Hwf Hc)
    as (rows & H1 & _ & H2 & _).
  exists rows. split; [exact H1 | exact H2].
Defined.

Example gappy_report :
  Eda.analisar_valores_ausentes (sorter := insertion_sorter) true gappy 30 true 5 =
  Eda.Returns [ Eda.mkMissing "Alley" 3 (Some ((3 # 4) * 100));
                Eda.mkMissing "LotFrontage" 1 (Some ((1 # 4) * 100)) ].
Proof. reflexivity. Qed.

(** ** [plot_feature_importance] *)

Lemma insert_position_perm (a : list Q) (i : nat) (l : list nat) :
  Permutation (insert_position a i l) (i :: l).
Proof.
  induction l as [|j l IH]; simpl; [reflexivity|].
  destruct (Qle_bool (nth i a 0) (nth j a 0)); [reflexivity|].
  rewrite IH. apply perm_swap.
Qed.

Lemma insert_position_sorted (a : list Q) (i : nat) (l : list nat) :
  StronglySorted (fun x y => nth x a 0 <= nth y a 0) l ->
  StronglySorted (fun x y => nth x a 0 <= nth y a 0) (insert_position a i l).
Proof.
  intros Hs. induction Hs as [|j l Hs IH Hj]; simpl.
  - constructor; constructor.
  - destruct (Qle_bool (nth i a 0) (nth j a 0)) eqn:E.
    + apply Qle_bool_iff in E. constructor; [now constructor|].
      constructor; [assumption|]. rewrite Forall_forall in *. intros x Hx.
      apply Qle_trans with (nth j a 0); [assumption | now apply Hj].
    + apply Qle_bool_false in E. constructor; [assumption|].
      rewrite Forall_forall in *. intros x Hx.
      apply (Permutation_in _ (insert_position_perm a i l)) in Hx.
      destruct Hx as [<-|Hx]; [now apply Qlt_le_weak | now apply Hj].
Qed.

Lemma insertion_argsort_sorts : sorts_ascending insertion_argsort.
Proof.
  intros a. cbn [Reports.argsort insertion_argsort].
  induction (seq 0 (List.length a)) as [|i l [IHp IHs]]; simpl.
  - split; constructor.
  - split.
    + rewrite insert_position_perm. now constructor.
    + now apply insert_position_sorted.
Qed.

Lemma StronglySorted_app_order {A : Type} (R : A -> A -> Prop) (l1 l2 : list A) :
  StronglySorted R (l1 ++ l2) ->
  StronglySorted R l2 /\ forall x y, In x l1 -> In y l2 -> R x y.
Proof.
  induction l1 as [|a l1 IH]; simpl; intros H.
  - split; [assumption | intros x y []].
  - inversion H as [|? ? Hs Ha]; subst. destruct (IH Hs) as [H2 Hxy].
    split; [assumption|]. intros x y [<-|Hx] Hy.
    + rewrite Forall_forall in Ha. apply Ha. apply in_or_app. now right.
    + now apply Hxy.
Qed.

Lemma last_slice_skipn {A : Type} (k : Z) (a : list A) :
  exists m, Reports.last_slice k a = skipn m a
            /\ List.length (skipn m a) = bars_drawn (List.length a) k.
Proof.
  unfold Reports.last_slice, bars_drawn. destruct (0 <? k)%Z.
  - eexists. split; [reflexivity|]. rewrite length_skipn. lia.
  - eexists. split; [reflexivity|]. now rewrite length_skipn.
Qed.

Section RankedFeatures.
Context {sorting : Reports.Argsort}.
Hypothesis Hsort : sorts_ascending sorting.

(** X29. The bars of [plot_feature_importance], for a list of names at
    least as long as the importances: the call draws, bottom to top and
    in ascending order of importance, the features at positions that
    are distinct, each with its own name and importance, and no feature
    left out is more important than one drawn.  It draws
    [min(top_n, n)] bars for a positive [top_n], but all [n] for
    [top_n = 0], since [a[-0:]] is the whole array. *)
Theorem plot_feature_importance_bars
    (importances : list Q) (feature_names : list string) (top_n : Z)
    (Hnames : (List.length importances <= List.length feature_names)%nat) :
  exists selected : list nat,
    Reports.plot_feature_importance importances feature_names top_n
      = Ok (map (fun i => (nth i feature_names "", nth i importances 0)) selected)
    /\ NoDup selected
    /\ Forall (fun i => (i < List.length importances)%nat) selected
    /\ List.length selected = bars_drawn (List.length importances) top_n
    /\ StronglySorted (fun i j => nth i importances 0 <= nth j importances 0) selected
    /\ (forall i j, In i selected -> (j < List.length importances)%nat ->
          ~ In j selected -> nth j importances 0 <= nth i importances 0)
    /\ (top_n = 0%Z -> List.length selected = List.length importances).
Proof.
  destruct (Hsort importances) as [Hp Hs].
  set (p := Reports.argsort importances) in *.
  destruct (last_slice_skipn top_n p) as [m [Hslice Hlen]].
  assert (Hplen : List.length p = List.length importances)
    by (rewrite (Permutation_length Hp); apply length_seq).
  exists (skipn m p).
  assert (Hrange : forall i, In i p -> (i < List.length importances)%nat).
  { intros i Hi. apply (Permutation_in _ Hp) in Hi. apply in_seq in Hi. lia. }
  assert (Hsel : forall i, In i (skipn m p) -> In i p)
    by (intros i; apply In_skipn_list).
  rewrite <- (firstn_skipn m p) in Hs.
  destruct (StronglySorted_app_order _ _ _ Hs) as [Hs2 Hcross].
  split; [|split; [|split; [|split; [|split; [|split]]]]].
  - unfold Reports.plot_feature_importance. fold p. rewrite Hslice.
    rewrite (mapM_total _ (fun i => nth i feature_names "")).
    + cbn [bind]. f_equal. clear. induction (skipn m p) as [|i l IH]; simpl;
        [reflexivity | now rewrite IH].
    + apply Forall_forall. intros i Hi.
      rewrite (nth_error_nth' feature_names ""); [reflexivity|].
      specialize (Hrange i (Hsel i Hi)). lia.
  - assert (Hnd : NoDup p)
      by (apply (Permutation_NoDup (Permutation_sym Hp)); apply seq_NoDup).
    rewrite <- (firstn_skipn m p) in Hnd. now apply NoDup_app_remove_l in Hnd.
  - apply Forall_forall. intros i Hi. apply Hrange. now apply Hsel.
  - now rewrite Hlen, Hplen.
  - exact Hs2.
  - intros i j Hi Hj Hnot. apply Hcross; [|assumption].
    assert (Hjp : In j p).
    { apply (Permutation_in _ (Permutation_sym Hp)). apply in_seq. lia. }
    rewrite <- (firstn_skipn m p) in Hjp. apply in_app_or in Hjp.
    destruct Hjp as [H|H]; [assumption | contradiction].
  - intros ->. rewrite Hlen, Hplen. unfold bars_drawn. simpl. lia.
Qed.

End RankedFeatures.

(** X29 on three features with [top_n = 0]: all three are drawn. *)
Lemma plot_feature_importance_bars_witness :
  sorts_ascending insertion_argsort
  /\ (List.length sample_importances <= List.length sample_features)%nat
  /\ exists selected : list nat,
       Reports.plot_feature_importance (sorting := insertion_argsort)
         sample_importances sample_features 0
       = Ok (map (fun i => (nth i sample_features "", nth i sample_importances 0)) selected)
       /\ List.length selected = 3%nat.
Proof.
  assert (Hn : (List.length sample_importances <= List.length sample_features)%nat)
    by (simpl; lia).
  split; [exact insertion_argsort_sorts|]. split; [exact Hn|].
  destruct (plot_feature_importance_bars (sorting := insertion_argsort)
              insertion_argsort_sorts sample_importances sample_features 0 Hn)
    as (selected & H1 & _ & _ & _ & _ & _ & H2).
  exists selected. split; [exact H1 | exact (H2 eq_refl)].
Defined.

Example two_most_important :
  Reports.plot_feature_importance (sorting := insertion_argsort)
    sample_importances sample_features 2
  = Ok [("YearBuilt", 0.3); ("GrLivArea", 0.5)].
Proof. reflexivity. Qed.
